(** * Random nanowire networks: construction and conductance matrix

    A shallow embedding of [randomnwn/nanowires.py]: the intersection index
    ([find_intersects], [find_line_intersects]), the network graph
    ([create_NWN], [add_wires]) and the linear system
    ([conductance_matrix], [solve_network]).

    Python values are modelled as the interpreter has them: [int] is [Z],
    [float] is an IEEE 754 binary64 number ([PrimFloat.float]), a [dict] is
    an association list in insertion order, an exception is a constructor of
    [exn] carried by the [result] monad.  The libraries the module calls
    (shapely's predicates, numpy's generator and trigonometry, scipy's
    solver) are an interface, [Extern]; a call of a library returns or
    raises, as a call of the module does. *)

From Stdlib Require Import ZArith List Lia Bool Floats Sorted FinFun.
Import ListNotations.

Set Implicit Arguments.
Open Scope Z_scope.

(** ** Exceptions and the error monad *)

Inductive exn : Set :=
| ValueError
| TypeError
| KeyError
| IndexError
| AttributeError
| ZeroDivisionError
| OverflowError
| NetworkXError
| TopologicalError.

Inductive result (A : Type) : Type :=
| Ok (a : A)
| Raise (e : exn).

Arguments Ok {A} a.
Arguments Raise {A} e.

Definition bind {A B : Type} (c : result A) (k : A -> result B) : result B :=
  match c with
  | Ok a => k a
  | Raise e => Raise e
  end.

(** The call returned. *)
Definition is_ok {A : Type} (c : result A) : bool :=
  match c with
  | Ok _ => true
  | Raise _ => false
  end.

Notation "x <- c ;; k" := (bind c (fun x => k))
  (at level 61, c at next level, right associativity).

(** [for x in xs: s = body(x, s)], leaving the loop at the first exception. *)
Fixpoint for_each {A S : Type} (xs : list A) (body : A -> S -> result S) (s : S)
  : result S :=
  match xs with
  | [] => Ok s
  | x :: xs' => s' <- body x s ;; for_each xs' body s'
  end.

(** [range(n)] as the list of its values; empty when [n <= 0]. *)
Definition range (n : Z) : list Z :=
  map Z.of_nat (seq 0 (Z.to_nat n)).

(** ** Dictionaries

    A Python [dict] keeps its keys in insertion order; assigning to a key
    that is present keeps the key's place. *)

Class EqDec (K : Type) := eq_dec : forall x y : K, {x = y} + {x <> y}.

#[export] Instance Z_EqDec : EqDec Z := Z.eq_dec.

#[export] Instance pair_EqDec {A B : Type} `{EqDec A} `{EqDec B} : EqDec (A * B) :=
  fun x y =>
    match eq_dec (fst x) (fst y), eq_dec (snd x) (snd y) with
    | left Ha, left Hb =>
        left (eq_trans (surjective_pairing x)
                (eq_trans (f_equal2 pair Ha Hb) (eq_sym (surjective_pairing y))))
    | right Ha, _ => right (fun E => Ha (f_equal fst E))
    | _, right Hb => right (fun E => Hb (f_equal snd E))
    end.

Definition dict (K V : Type) : Type := list (K * V).

Section Dict.
Context {K V : Type} `{EqDec K}.

Fixpoint dict_get (k : K) (d : dict K V) : option V :=
  match d with
  | [] => None
  | (k', v) :: d' => if eq_dec k k' then Some v else dict_get k d'
  end.

(** [d[k] = v] *)
Fixpoint dict_set (k : K) (v : V) (d : dict K V) : dict K V :=
  match d with
  | [] => [(k, v)]
  | (k', v') :: d' =>
      if eq_dec k k' then (k', v) :: d' else (k', v') :: dict_set k v d'
  end.

(** [del d[k]] for a key that may be absent *)
Definition dict_del (k : K) (d : dict K V) : dict K V :=
  filter (fun kv => if eq_dec k (fst kv) then false else true) d.

(** [d.update(other)] *)
Definition dict_update (d other : dict K V) : dict K V :=
  fold_left (fun acc kv => dict_set (fst kv) (snd kv) acc) other d.

Definition dict_keys (d : dict K V) : list K := map fst d.

Definition dict_mem (k : K) (d : dict K V) : bool :=
  match dict_get k d with Some _ => true | None => false end.
End Dict.

(** ** Floating point

    Python's [float] is the platform's binary64; [+], [*] and [/] round to
    nearest even as [PrimFloat.add], [mul] and [div] do.  Python raises
    where IEEE 754 returns an infinity or a NaN for a zero divisor. *)

Open Scope float_scope.

(** [a / b] on Python floats *)
Definition py_truediv (a b : float) : result float :=
  if PrimFloat.is_zero b then Raise ZeroDivisionError else Ok (a / b).

(** [sum(xs)]: the integer start value [0] plus the items, left to right. *)
Definition py_sum (xs : list float) : float :=
  fold_left PrimFloat.add xs 0.

(** The integer nearest to [m * 2^e], ties to the even one. *)
Definition round_half_even (m e : Z) : Z :=
  if (0 <=? e)%Z then (m * 2 ^ e)%Z
  else
    let d := (2 ^ (- e))%Z in
    let q := (m / d)%Z in
    let r := (m mod d)%Z in
    match (2 * r ?= d)%Z with
    | Lt => q
    | Gt => (q + 1)%Z
    | Eq => if Z.even q then q else (q + 1)%Z
    end.

(** [round(x)] with one argument: an [int]. *)
Definition py_round (x : float) : result Z :=
  match Prim2SF x with
  | S754_zero _ => Ok 0%Z
  | S754_infinity _ => Raise OverflowError
  | S754_nan => Raise ValueError
  | S754_finite s m e =>
      let n := round_half_even (Zpos m) e in
      Ok (if s then (- n)%Z else n)
  end.

(** The binary64 number nearest to an integer. *)
Definition Z2F (z : Z) : float :=
  SF2Prim (binary_normalize prec emax z 0 false).

(** [float(n)] for a Python [int]. *)
Definition int_to_float (z : Z) : result float :=
  let f := Z2F z in
  if PrimFloat.is_infinity f then Raise OverflowError else Ok f.

(** [n / b] for an [int] [n] and a [float] [b]. *)
Definition py_int_truediv (n : Z) (b : float) : result float :=
  a <- int_to_float n ;; py_truediv a b.

Close Scope float_scope.

(** ** The libraries behind the module

    shapely supplies the segments and their predicates, numpy the random
    generator and the trigonometric functions. *)

Class Extern : Type := {
  LineString : Type;
  (** what [a.intersection(b)] returns: a point for two crossing segments *)
  Geometry : Type;
  (** [numpy.random.Generator] *)
  Generator : Type;
  (** [LineString([(x0, y0), (x1, y1)])] *)
  mk_line : float * float -> float * float -> LineString;
  (** [a.intersects(b)]: shapely answers, or raises for a geometry it
      cannot handle *)
  intersects : LineString -> LineString -> result bool;
  (** [a.intersection(b)] *)
  intersection : LineString -> LineString -> result Geometry;
  (** [np.array(a.centroid)] *)
  centroid : LineString -> float * float;
  (** [np.random.default_rng(seed)]: numpy refuses some seeds *)
  default_rng : option Z -> result Generator;
  (** [rng.uniform(low, high)], with the generator's next state: numpy
      refuses some bounds *)
  rng_uniform : float -> float -> Generator -> result (float * Generator);
  np_cos : float -> float;
  np_sin : float -> float;
  (** [scipy.sparse.linalg.spsolve(A.tocsr(), z)] for a system of [n]
      equations, both given by their non-zero entries *)
  spsolve : Z -> dict (Z * Z) float -> dict (Z * Z) float -> result (list float);
}.

Definition np_pi : float := 0x1.921fb54442d18p+1%float.

Section Geometry.
Context {ext : Extern}.
Open Scope float_scope.

(** [create_line] with a generator passed in, as [create_NWN] calls it. *)
Definition create_line (length xmin xmax ymin ymax : float) (rng : Generator)
  : result (LineString * Generator) :=
  r1 <- rng_uniform xmin xmax rng ;;
  let '(xmid, rng1) := r1 in
  r2 <- rng_uniform ymin ymax rng1 ;;
  let '(ymid, rng2) := r2 in
  r3 <- rng_uniform 0 np_pi rng2 ;;
  let '(angle, rng3) := r3 in
  let xhalf := length / 2 * np_cos angle in
  let yhalf := length / 2 * np_sin angle in
  let xstart := xmid - xhalf in
  let xend := xmid + xhalf in
  let ystart := ymid - yhalf in
  let yend := ymid + yhalf in
  Ok (mk_line (xstart, ystart) (xend, yend), rng3).

Close Scope float_scope.

(** What the two intersection functions are handed as [lines]: something
    with [len(lines)] and [lines[i]].  An item is a segment or [None]. *)
Record Lines : Type := {
  lines_len : Z;
  lines_item : Z -> result (option LineString);
}.

(** A Python list of segments; a negative index counts from the end. *)
Definition list_lines (l : list LineString) : Lines :=
  let n := Z.of_nat (length l) in
  {| lines_len := n;
     lines_item := fun i =>
       let i' := if i <? 0 then i + n else i in
       if (0 <=? i') && (i' <? n) then
         match nth_error l (Z.to_nat i') with
         | Some x => Ok (Some x)
         | None => Raise IndexError
         end
       else Raise IndexError |}.

(** [lines[i].f(lines[j])] for a method [f] of a segment: the receiver is
    evaluated first, then the method is looked up, then the argument, and
    then the library is called. *)
Definition method_call {R : Type} (f : LineString -> LineString -> result R)
    (lines : Lines) (i j : Z) : result R :=
  a <- lines_item lines i ;;
  la <- match a with Some la => Ok la | None => Raise AttributeError end ;;
  b <- lines_item lines j ;;
  lb <- match b with Some lb => Ok lb | None => Raise AttributeError end ;;
  f la lb.

(** The pairs [np.triu_indices(n, k=1)] zips: above the diagonal, by rows. *)
Definition triu_indices (n : Z) : list (Z * Z) :=
  flat_map (fun i => map (fun j => (i, j)) (filter (fun j => i <? j) (range n)))
           (range n).

Definition find_intersects (lines : Lines) : result (dict (Z * Z) Geometry) :=
  for_each (triu_indices (lines_len lines))
    (fun ij out =>
       let '(i, j) := ij in
       c <- method_call intersects lines i j ;;
       if c : bool then
         p <- method_call intersection lines i j ;;
         Ok (dict_update out [((i, j), p)])
       else Ok out)
    [].

Definition find_line_intersects (ind : Z) (lines : Lines)
  : result (dict (Z * Z) Geometry) :=
  for_each (range (lines_len lines))
    (fun j out =>
       if ind =? j then Ok out
       else
         c <- method_call intersects lines ind j ;;
         if c : bool then
           if ind <? j then
             p <- method_call intersection lines ind j ;;
             Ok (dict_update out [((ind, j), p)])
           else
             p <- method_call intersection lines ind j ;;
             Ok (dict_update out [((j, ind), p)])
         else Ok out)
    [].
End Geometry.

(** ** The network: a networkx [Graph]

    The graph attributes are the fields of [Graph].  networkx keeps two
    dictionaries with the same keys in the same order, [_node] (a node's
    attributes) and [_adj] (its neighbours); [nodes] holds both values under
    the one key.  The data of an edge is its ["resistance"]; the dictionary
    networkx shares between [_adj[u][v]] and [_adj[v][u]] is written at both
    places. *)

Section Network.
Context {ext : Extern}.

(** The attributes of a node; [None] is a key that is not set. *)
Record NodeAttr : Type := {
  line : option LineString;
  midpoint : option (float * float);
  electrode : option bool;
}.

Record Graph : Type := {
  wire_length : float;
  width : float;
  size : float;
  wire_density : float;
  wire_num : Z;
  electrodes : Z;
  junction_resistance : float;
  electrode_list : list Z;
  loc : option (dict (Z * Z) Geometry);
  junction_density : option float;
  nodes : dict Z (NodeAttr * dict Z float);
}.

Definition set_nodes (ns : dict Z (NodeAttr * dict Z float)) (G : Graph) : Graph :=
  {| wire_length := wire_length G; width := width G; size := size G;
     wire_density := wire_density G; wire_num := wire_num G;
     electrodes := electrodes G; junction_resistance := junction_resistance G;
     electrode_list := electrode_list G; loc := loc G;
     junction_density := junction_density G; nodes := ns |}.

Definition set_loc (l : option (dict (Z * Z) Geometry)) (G : Graph) : Graph :=
  {| wire_length := wire_length G; width := width G; size := size G;
     wire_density := wire_density G; wire_num := wire_num G;
     electrodes := electrodes G; junction_resistance := junction_resistance G;
     electrode_list := electrode_list G; loc := l;
     junction_density := junction_density G; nodes := nodes G |}.

Definition set_junction_density (d : option float) (G : Graph) : Graph :=
  {| wire_length := wire_length G; width := width G; size := size G;
     wire_density := wire_density G; wire_num := wire_num G;
     electrodes := electrodes G; junction_resistance := junction_resistance G;
     electrode_list := electrode_list G; loc := loc G;
     junction_density := d; nodes := nodes G |}.

Definition set_wire_density (d : float) (G : Graph) : Graph :=
  {| wire_length := wire_length G; width := width G; size := size G;
     wire_density := d; wire_num := wire_num G;
     electrodes := electrodes G; junction_resistance := junction_resistance G;
     electrode_list := electrode_list G; loc := loc G;
     junction_density := junction_density G; nodes := nodes G |}.

Definition set_counts (wn el : Z) (G : Graph) : Graph :=
  {| wire_length := wire_length G; width := width G; size := size G;
     wire_density := wire_density G; wire_num := wn;
     electrodes := el; junction_resistance := junction_resistance G;
     electrode_list := electrode_list G; loc := loc G;
     junction_density := junction_density G; nodes := nodes G |}.

Definition set_electrode_list (l : list Z) (G : Graph) : Graph :=
  {| wire_length := wire_length G; width := width G; size := size G;
     wire_density := wire_density G; wire_num := wire_num G;
     electrodes := electrodes G; junction_resistance := junction_resistance G;
     electrode_list := l; loc := loc G;
     junction_density := junction_density G; nodes := nodes G |}.

(** [old.update(new)] on attribute dictionaries *)
Definition attr_update (old new : NodeAttr) : NodeAttr :=
  {| line := match line new with Some x => Some x | None => line old end;
     midpoint := match midpoint new with Some x => Some x | None => midpoint old end;
     electrode := match electrode new with Some x => Some x | None => electrode old end |}.

Definition no_attr : NodeAttr :=
  {| line := None; midpoint := None; electrode := None |}.

(** [G.add_node(n, **attr)] *)
Definition add_node (n : Z) (attr : NodeAttr) (G : Graph) : Graph :=
  match dict_get n (nodes G) with
  | None => set_nodes (dict_set n (attr_update no_attr attr, []) (nodes G)) G
  | Some (a, row) => set_nodes (dict_set n (attr_update a attr, row) (nodes G)) G
  end.

(** [G._adj[u][v] = data] *)
Definition set_adj (u v : Z) (r : float) (G : Graph) : Graph :=
  match dict_get u (nodes G) with
  | None => G
  | Some (a, row) => set_nodes (dict_set u (a, dict_set v r row) (nodes G)) G
  end.

(** One round of [G.add_edges_from(ebunch, resistance=r)]: the end points
    are added as bare nodes when they are missing. *)
Definition add_edge (r : float) (G : Graph) (e : Z * Z) : Graph :=
  let '(u, v) := e in
  let G1 := if dict_mem u (nodes G) then G else add_node u no_attr G in
  let G2 := if dict_mem v (nodes G1) then G1 else add_node v no_attr G1 in
  set_adj v u r (set_adj u v r G2).

Definition add_edges_from (ebunch : list (Z * Z)) (r : float) (G : Graph) : Graph :=
  fold_left (add_edge r) ebunch G.

(** [G.get_edge_data(u, v)]: the edge's data, or [None] *)
Definition get_edge_data (u v : Z) (G : Graph) : option float :=
  match dict_get u (nodes G) with
  | None => None
  | Some (_, row) => dict_get v row
  end.

(** [G.nodes.data("line")]: [len] counts the nodes, [view[n]] is the line of
    node [n], [None] for a node without one, [KeyError] for no node. *)
Definition nodes_data_line (G : Graph) : Lines :=
  {| lines_len := Z.of_nat (length (nodes G));
     lines_item := fun n =>
       match dict_get n (nodes G) with
       | None => Raise KeyError
       | Some (a, _) => Ok (line a)
       end |}.

(** [G.nodes[n]["midpoint"] = np.array(G.nodes[n]["line"].centroid)] *)
Definition set_midpoint (n : Z) (G : Graph) : result Graph :=
  match dict_get n (nodes G) with
  | None => Raise KeyError
  | Some (a, row) =>
      match line a with
      | None => Raise KeyError
      | Some l =>
          let a' := {| line := line a; midpoint := Some (centroid l);
                       electrode := electrode a |} in
          Ok (set_nodes (dict_set n (a', row) (nodes G)) G)
      end
  end.

(** The body of the loop that adds the wires in [create_NWN]. *)
Definition add_random_wire (i : Z) (st : Graph * Generator)
  : result (Graph * Generator) :=
  let '(NWN, rng) := st in
  lr <- create_line (wire_length NWN) 0 (width NWN) 0 (width NWN) rng ;;
  let '(l, rng') := lr in
  let NWN1 := add_node i {| line := Some l; midpoint := None;
                            electrode := Some false |} NWN in
  NWN2 <- set_midpoint i NWN1 ;;
  Ok (NWN2, rng').

Definition create_NWN (wire_length width density : float) (seed : option Z)
    (resistance : float) : result Graph :=
  let size := (width * width)%float in
  wire_num <- py_round (size * density)%float ;;
  density <- py_int_truediv wire_num size ;;
  let NWN :=
    {| wire_length := wire_length; width := width; size := size;
       wire_density := density; wire_num := wire_num; electrodes := 0;
       junction_resistance := resistance; electrode_list := [];
       loc := None; junction_density := None; nodes := [] |} in
  rng <- default_rng seed ;;
  st <- for_each (range wire_num) add_random_wire (NWN, rng) ;;
  let NWN := fst st in
  intersect_dict <- find_intersects (nodes_data_line NWN) ;;
  let NWN := add_edges_from (dict_keys intersect_dict) resistance NWN in
  let NWN := set_loc (Some intersect_dict) NWN in
  jd <- py_int_truediv (Z.of_nat (length intersect_dict)) size ;;
  Ok (set_junction_density (Some jd) NWN).

(** [np.sum(electrodes)] for a list of booleans *)
Definition np_sum_bool (bs : list bool) : Z :=
  Z.of_nat (length (filter (fun b => b) bs)).

(** One round of the loop of [add_wires]: the wire of index [ind].  The graph
    is the caller's object, so what was written before an exception stays. *)
Definition add_one_wire (ind : Z) (l : LineString) (e : bool) (NWN : Graph)
  : Graph * result unit :=
  let NWN1 := add_node ind {| line := Some l; midpoint := Some (centroid l);
                              electrode := Some e |} NWN in
  let NWN2 := if e then set_electrode_list (electrode_list NWN1 ++ [ind]) NWN1
              else NWN1 in
  match find_line_intersects ind (nodes_data_line NWN2) with
  | Raise x => (NWN2, Raise x)
  | Ok intersect_dict =>
      let NWN3 := add_edges_from (dict_keys intersect_dict)
                    (junction_resistance NWN2) NWN2 in
      match loc NWN3 with
      | None => (NWN3, Raise KeyError)
      | Some d => (set_loc (Some (dict_update d intersect_dict)) NWN3, Ok tt)
      end
  end.

(** [for i in range(new_wire_num)] with [ind = start_ind + i], over what is
    left of the two lists, which have the same length. *)
Fixpoint add_wires_loop (ind : Z) (lines : list LineString) (electrodes : list bool)
    (NWN : Graph) : Graph * result unit :=
  match lines, electrodes with
  | l :: lines', e :: electrodes' =>
      match add_one_wire ind l e NWN with
      | (NWN', Ok _) => add_wires_loop (ind + 1) lines' electrodes' NWN'
      | (NWN', Raise x) => (NWN', Raise x)
      end
  | _, _ => (NWN, Ok tt)
  end.

(** [add_wires] returns the graph as the call leaves it, and how it ended.
    The last division is numpy's (the electrode count is a numpy scalar):
    IEEE 754, no exception.  [Network.electrodes] is the attribute, which
    the parameter of the same name hides. *)
Definition add_wires (NWN : Graph) (lines : list LineString) (electrodes : list bool)
  : Graph * result unit :=
  let new_wire_num := Z.of_nat (length lines) in
  if negb (new_wire_num =? Z.of_nat (length electrodes)) then (NWN, Raise ValueError)
  else
    let start_ind := wire_num NWN in
    let NWN1 := set_counts (wire_num NWN + new_wire_num)
                  (Network.electrodes NWN + np_sum_bool electrodes) NWN in
    match add_wires_loop start_ind lines electrodes NWN1 with
    | (NWN2, Raise x) => (NWN2, Raise x)
    | (NWN2, Ok _) =>
        (set_wire_density
           (Z2F (wire_num NWN2 - Network.electrodes NWN2) / size NWN2)%float NWN2,
         Ok tt)
    end.
End Network.

(** ** The linear system

    A [dok_matrix] is a dictionary of the entries that are not zero: reading
    an absent entry gives [0.0], writing a zero removes the entry. *)

Definition dok : Type := dict (Z * Z) float.

(** [scipy.sparse.dok_matrix((m, n))] *)
Definition dok_matrix (m n : Z) : result dok :=
  if (m <? 0) || (n <? 0) then Raise ValueError else Ok [].

(** [G[i, j]] for an index inside the matrix *)
Definition dok_get (k : Z * Z) (G : dok) : float :=
  match dict_get k G with
  | Some x => x
  | None => 0%float
  end.

(** [G[i, j] = x] for an index inside the matrix *)
Definition dok_set (k : Z * Z) (x : float) (G : dok) : dok :=
  if PrimFloat.is_zero x then dict_del k G else dict_set k x G.

(** The binary64 number that the literal [1e-8] denotes. *)
Definition leak : float := 0x1.5798ee2308c3ap-27%float.

Section Solver.
Context {ext : Extern}.

(** [NWN.edges(i)]: the pairs [(i, nbr)] in the order of [i]'s neighbours *)
Definition edges_of (i : Z) (NWN : Graph) : result (list (Z * Z)) :=
  match dict_get i (nodes NWN) with
  | None => Raise NetworkXError
  | Some (_, row) => Ok (map (fun kv => (i, fst kv)) row)
  end.

(** [NWN[edge[0]][edge[1]]["resistance"]] *)
Definition edge_resistance (edge : Z * Z) (NWN : Graph) : result float :=
  match dict_get (fst edge) (nodes NWN) with
  | None => Raise KeyError
  | Some (_, row) =>
      match dict_get (snd edge) row with
      | None => Raise KeyError
      | Some r => Ok r
      end
  end.

(** [[1 / R(edge) for edge in edges if R(edge) != 0]] *)
Definition conductances (edges : list (Z * Z)) (NWN : Graph) : result (list float) :=
  for_each edges
    (fun edge acc =>
       r <- edge_resistance edge NWN ;;
       if negb (PrimFloat.is_zero r) then
         r' <- edge_resistance edge NWN ;;
         g <- py_truediv 1 r' ;;
         Ok (acc ++ [g])
       else Ok acc)
    [].

(** The body of the inner loop of [conductance_matrix]. *)
Definition conductance_cell (NWN : Graph) (drain_node i j : Z) (G : dok) : result dok :=
  if i =? j then
    if i =? drain_node then Ok (dok_set (i, j) 1 G)
    else
      edges <- edges_of i NWN ;;
      gs <- conductances edges NWN ;;
      let G1 := dok_set (i, j) (py_sum gs) G in
      Ok (dok_set (i, j) (dok_get (i, j) G1 + leak)%float G1)
  else
    if negb (i =? drain_node) then
      match get_edge_data i j NWN with
      | Some r => g <- py_truediv (-1) r ;; Ok (dok_set (i, j) g G)
      | None => Ok G
      end
    else Ok G.

Definition conductance_matrix (NWN : Graph) (drain_node : Z) : result dok :=
  let wire_num := wire_num NWN in
  G <- dok_matrix wire_num wire_num ;;
  for_each (range wire_num)
    (fun i G =>
       for_each (range wire_num) (fun j G => conductance_cell NWN drain_node i j G) G)
    G.

(** A positional argument of a call. *)
Inductive pyarg : Type :=
| ArgGraph (NWN : Graph)
| ArgInt (n : Z).

(** Calling [conductance_matrix]: [def conductance_matrix(NWN, drain_node)]
    binds two positional arguments; any other number is a [TypeError]. *)
Definition call_conductance_matrix (args : list pyarg) : result dok :=
  match args with
  | [ArgGraph NWN; ArgInt drain_node] => conductance_matrix NWN drain_node
  | _ => Raise TypeError
  end.

(** [B[i, 0] = x] on a column of [n] rows: a negative index counts from the
    end, an index outside is an [IndexError]. *)
Definition column_set (n i : Z) (x : float) (B : dok) : result dok :=
  let i' := if i <? 0 then i + n else i in
  if (0 <=? i') && (i' <? n) then Ok (dok_set (i', 0) x B) else Raise IndexError.

(** [-B.T] *)
Definition neg_transpose (B : dok) : dok :=
  map (fun kv => ((snd (fst kv), fst (fst kv)), (- snd kv)%float)) B.

(** [scipy.sparse.bmat([[G, B], [C, None]])] for [G] of [n] rows and columns *)
Definition bmat (n : Z) (G B C : dok) : dok :=
  G ++ map (fun kv => ((fst (fst kv), n), snd kv)) B
    ++ map (fun kv => ((n, snd (fst kv)), snd kv)) C.

(** The lines of [solve_network] between the call of [conductance_matrix]
    and the call of the solver: the matrix [A] and the right-hand side [z]. *)
Definition augmented_system (wire_num : Z) (G : dok) (source_node : Z)
    (voltage : float) : result (dok * dok) :=
  B <- dok_matrix wire_num 1 ;;
  B <- column_set wire_num source_node (-1) B ;;
  let C := neg_transpose B in
  let A := bmat wire_num G B C in
  z <- dok_matrix (wire_num + 1) 1 ;;
  z <- column_set (wire_num + 1) (-1) voltage z ;;
  Ok (A, z).

Definition solve_network (NWN : Graph) (source_node drain_node : Z) (voltage : float)
  : result (list float) :=
  let wire_num := wire_num NWN in
  G <- call_conductance_matrix [ArgGraph NWN; ArgInt source_node; ArgInt drain_node] ;;
  Az <- augmented_system wire_num G source_node voltage ;;
  spsolve (wire_num + 1) (fst Az) (snd Az).
End Solver.

(** ** An instance to run the model on

    Segments by their end points, the classical orientation test for
    [intersects], the crossing of the two carrying lines for
    [intersection] (both refuse a segment with a coordinate that is not
    finite), a linear congruential generator that refuses a negative seed
    and bounds in the wrong order, and polynomials for the cosine and the
    sine.  It stands in for shapely and numpy in the
    examples only; every general statement below is about any [Extern]. *)

Module Sample.
Open Scope float_scope.

Definition point : Type := float * float.
Definition segment : Type := point * point.

(** Twice the signed area of the triangle [p q r]. *)
Definition orient (p q r : point) : float :=
  (fst q - fst p) * (snd r - snd p) - (snd q - snd p) * (fst r - fst p).

Definition fmin (a b : float) : float := if a <=? b then a else b.
Definition fmax (a b : float) : float := if a <=? b then b else a.

Definition boxes_meet (a b : segment) : bool :=
  let '((ax0, ay0), (ax1, ay1)) := a in
  let '((bx0, by0), (bx1, by1)) := b in
  (fmin ax0 ax1 <=? fmax bx0 bx1) && (fmin bx0 bx1 <=? fmax ax0 ax1) &&
  (fmin ay0 ay1 <=? fmax by0 by1) && (fmin by0 by1 <=? fmax ay0 ay1).

Definition seg_intersects (a b : segment) : bool :=
  boxes_meet a b &&
  (orient (fst b) (snd b) (fst a) * orient (fst b) (snd b) (snd a) <=? 0) &&
  (orient (fst a) (snd a) (fst b) * orient (fst a) (snd a) (snd b) <=? 0).

Definition seg_intersection (a b : segment) : point :=
  let d0 := orient (fst b) (snd b) (fst a) in
  let d1 := orient (fst b) (snd b) (snd a) in
  if d0 - d1 =? 0 then fst a
  else
    let t := d0 / (d0 - d1) in
    (fst (fst a) + t * (fst (snd a) - fst (fst a)),
     snd (fst a) + t * (snd (snd a) - snd (fst a))).

Definition seg_centroid (a : segment) : point :=
  ((fst (fst a) + fst (snd a)) / 2, (snd (fst a) + snd (snd a)) / 2).

Definition lcg_next (s : Z) : Z := ((s * 1103515245 + 12345) mod 2147483648)%Z.

Definition lcg_uniform (low high : float) (s : Z) : float * Z :=
  let s' := lcg_next s in
  (low + (high - low) * (Z2F s' / Z2F 2147483648), s').

Definition poly_cos (x : float) : float :=
  let x2 := x * x in
  1 - x2 / 2 * (1 - x2 / 12 * (1 - x2 / 30 * (1 - x2 / 56 * (1 - x2 / 90)))).

Definition poly_sin (x : float) : float :=
  let x2 := x * x in
  x * (1 - x2 / 6 * (1 - x2 / 20 * (1 - x2 / 42 * (1 - x2 / 72 * (1 - x2 / 110))))).

(** A coordinate the geometry library can work with. *)
Definition finite (x : float) : bool :=
  negb (PrimFloat.is_nan x || PrimFloat.is_infinity x).

Definition seg_finite (a : segment) : bool :=
  finite (fst (fst a)) && finite (snd (fst a)) &&
  finite (fst (snd a)) && finite (snd (snd a)).

(** The library call on two segments: refused unless both are finite. *)
Definition on_finite {R : Type} (f : segment -> segment -> R) (a b : segment)
  : result R :=
  if seg_finite a && seg_finite b then Ok (f a b) else Raise TopologicalError.

#[export] Instance ext : Extern := {|
  LineString := segment;
  Geometry := point;
  Generator := Z;
  mk_line := fun p q => (p, q);
  intersects := on_finite seg_intersects;
  intersection := on_finite seg_intersection;
  centroid := seg_centroid;
  default_rng := fun seed =>
    match seed with
    | Some s => if (s <? 0)%Z then Raise ValueError else Ok s
    | None => Ok 0%Z
    end;
  rng_uniform := fun low high s =>
    if high - low <? 0 then Raise ValueError else Ok (lcg_uniform low high s);
  np_cos := poly_cos;
  np_sin := poly_sin;
  spsolve := fun _ _ _ => Raise ValueError;
|}.

(** Two diagonals of a square, which cross at [(1, 1)]. *)
Definition diagonals : list segment :=
  [((0, 0), (2, 2)); ((0, 2), (2, 0))].

(** Two uprights and a bar across them. *)
Definition upright_left : segment := ((0, 0), (0, 2)).
Definition bar : segment := ((-1, 1), (3, 1)).
Definition upright_right : segment := ((2, 0), (2, 2)).

(** No wires yet: what [create_NWN(7.0, 2.0, 0.0, None, resistance)]
    returns. *)
Definition empty_graph (resistance : float) : Graph :=
  {| wire_length := 7; width := 2; size := 4; wire_density := 0;
     wire_num := 0; electrodes := 0; junction_resistance := resistance;
     electrode_list := []; loc := Some []; junction_density := Some 0;
     nodes := [] |}.

(** The two uprights as electrodes, the bar between them, junctions of 10
    ohms. *)
Definition bridge : Graph * result unit :=
  add_wires (empty_graph 10) [upright_left; bar; upright_right] [true; false; true].

(** The same wires with junctions of no resistance. *)
Definition shorted : Graph * result unit :=
  add_wires (empty_graph 0) [upright_left; bar; upright_right] [true; false; true].

(** A negative density: what [create_NWN(7.0, 2.0, -0.625, None, resistance)]
    returns, [round(-2.5)] wires and no node. *)
Definition hollow (resistance : float) : Graph :=
  {| wire_length := 7; width := 2; size := 4; wire_density := -0.5;
     wire_num := -2; electrodes := 0; junction_resistance := resistance;
     electrode_list := []; loc := Some []; junction_density := Some 0;
     nodes := [] |}.

Close Scope float_scope.
End Sample.


(** ** Notions the statements use *)

(** What a [dok_matrix] gives back for a value written to it. *)
Definition stored (x : float) : float :=
  if PrimFloat.is_zero x then 0%float else x.

(** Equal as numbers: the same float, or two zeros (of either sign). *)
Definition num_eq (x y : float) : Prop :=
  x = y \/ (PrimFloat.is_zero x = true /\ PrimFloat.is_zero y = true).

(** An exact fraction [(p, q)], [q > 0], with [x = p / q], for a finite [x]. *)
Definition float_fraction (x : float) : option (Z * Z) :=
  match Prim2SF x with
  | S754_zero _ => Some (0, 1)
  | S754_finite s m e =>
      let p := if s then - Zpos m else Zpos m in
      if 0 <=? e then Some (p * 2 ^ e, 1) else Some (p, 2 ^ (- e))
  | _ => None
  end.

Section Notions.
Context {ext : Extern}.

(** The point recorded for the pair [(i, j)], when the two lines meet. *)
Definition cross (lines : Lines) (i j : Z) : option Geometry :=
  match method_call intersects lines i j with
  | Ok true =>
      match method_call intersection lines i j with
      | Ok p => Some p
      | Raise _ => None
      end
  | _ => None
  end.

(** What both functions ask the library about a receiver [a] and an
    argument [b]: [a.intersects(b)] first, and [a.intersection(b)] only
    when the two meet. *)
Definition crossing (a b : LineString) : result (option Geometry) :=
  c <- intersects a b ;;
  if c : bool then p <- intersection a b ;; Ok (Some p) else Ok None.

(** The key under which [find_line_intersects ind] files line [j]. *)
Definition key_of (ind j : Z) : Z * Z :=
  if ind <? j then (ind, j) else (j, ind).

(** The entries a loop adds to a dictionary, in the order of the loop. *)
Definition entries {A K V : Type} (key : A -> K) (g : A -> option V)
    (xs : list A) : dict K V :=
  flat_map (fun x => match g x with Some v => [(key x, v)] | None => [] end) xs.

(** The attributes of the graph, without its nodes and edges. *)
Definition graph_attrs (NWN : Graph) : Graph := set_nodes [] NWN.

Definition node_attr (k : Z) (NWN : Graph) : option NodeAttr :=
  option_map fst (dict_get k (nodes NWN)).

(** Wire [k] is in the network and its electrode flag is true. *)
Definition is_electrode (k : Z) (NWN : Graph) : Prop :=
  exists a, node_attr k NWN = Some a /\ electrode a = Some true.

(** The neighbours of wire [i], in the order of its adjacency. *)
Definition neighbors (i : Z) (NWN : Graph) : list Z :=
  match dict_get i (nodes NWN) with
  | Some (_, row) => dict_keys row
  | None => []
  end.

(** The resistances of the junctions incident to wire [i]. *)
Definition incident_resistances (i : Z) (NWN : Graph) : list float :=
  flat_map (fun nbr => match get_edge_data i nbr NWN with
                       | Some r => [r]
                       | None => []
                       end)
           (neighbors i NWN).

(** No junction of the graph has a zero resistance. *)
Definition no_zero_resistance (NWN : Graph) : bool :=
  forallb (fun n => forallb (fun kv => negb (PrimFloat.is_zero (snd kv)))
                      (snd (snd n)))
          (nodes NWN).

(** Every wire index below [wire_num] is a node of the graph. *)
Definition wires_present (NWN : Graph) : Prop :=
  0 <= wire_num NWN /\
  forall i, 0 <= i < wire_num NWN -> dict_mem i (nodes NWN) = true.

(** An undirected graph: an edge has one data, seen from both ends. *)
Definition adj_symmetric (NWN : Graph) : Prop :=
  forall u v, get_edge_data u v NWN = get_edge_data v u NWN.

(** Every node of the graph has an index below [bound]. *)
Definition wires_below (bound : Z) (NWN : Graph) : Prop :=
  forall k, dict_mem k (nodes NWN) = true -> k < bound.

(** [electrode_list] is the increasing list of the electrodes. *)
Definition electrodes_sorted (NWN : Graph) : Prop :=
  StronglySorted Z.lt (electrode_list NWN) /\
  forall k, In k (electrode_list NWN) <-> is_electrode k NWN.

(** Every key of the junction map reads [(i, j)] with [i < j], and no
    edge joins a wire to itself. *)
Definition junctions_ordered (NWN : Graph) : Prop :=
  (forall d i j, loc NWN = Some d -> In (i, j) (dict_keys d) -> i < j) /\
  (forall i j r, get_edge_data i j NWN = Some r -> i <> j).

(** The attributes [add_wires] gives a wire, and [create_NWN] too once the
    midpoint is set. *)
Definition wire_attr (l : LineString) (e : bool) : NodeAttr :=
  {| line := Some l; midpoint := Some (centroid l); electrode := Some e |}.

(** The place in a list of [n] items that the index [i] names. *)
Definition list_index (n i : Z) : Z := if i <? 0 then i + n else i.

(** The nodes are the wire indices below [bound], in order, each with its
    line, the centroid of its line and an electrode flag. *)
Definition wires_upto (bound : Z) (NWN : Graph) : Prop :=
  dict_keys (nodes NWN) = range bound /\
  forall k, In k (range bound) ->
    exists l e, node_attr k NWN = Some (wire_attr l e).

(** Every junction joins two nodes with the network's junction resistance,
    and the junction map has the keys [(i, j)], [i < j], of the junctions. *)
Definition junctions_recorded (NWN : Graph) : Prop :=
  (forall u v r, get_edge_data u v NWN = Some r ->
     r = junction_resistance NWN /\
     dict_mem u (nodes NWN) = true /\ dict_mem v (nodes NWN) = true) /\
  exists d, loc NWN = Some d /\
    forall i j, In (i, j) (dict_keys d) <->
                i < j /\ get_edge_data i j NWN <> None.

(** The attributes [add_wires] leaves alone once the counters are set. *)
Definition fixed_attrs (NWN : Graph) : Graph :=
  graph_attrs (set_loc None (set_electrode_list [] NWN)).

(** The networks the module builds. *)
Inductive reachable : Graph -> Prop :=
| reach_create wire_length width density seed resistance NWN :
    create_NWN wire_length width density seed resistance = Ok NWN ->
    reachable NWN
| reach_add NWN lines electrodes :
    reachable NWN ->
    snd (add_wires NWN lines electrodes) = Ok tt ->
    reachable (fst (add_wires NWN lines electrodes)).
End Notions.

(** ** Loops and dictionaries *)

Section LoopFacts.
Context {A S : Type}.
Implicit Types (xs : list A) (body : A -> S -> result S).

Lemma is_ok_returns {B : Type} (c : result B) :
  is_ok c = true -> exists b, c = Ok b.
Proof. destruct c; [eauto | discriminate]. Qed.

Lemma for_each_app xs ys body s :
  for_each (xs ++ ys) body s = (s' <- for_each xs body s ;; for_each ys body s').
Proof.
  revert s; induction xs as [| x xs IH]; intros s; simpl; [reflexivity |].
  destruct (body x s); simpl; auto.
Qed.

Lemma for_each_invariant (I : S -> Prop) xs body s r :
  I s ->
  (forall x s1 s2, In x xs -> I s1 -> body x s1 = Ok s2 -> I s2) ->
  for_each xs body s = Ok r -> I r.
Proof.
  revert s; induction xs as [| x xs IH]; intros s Hs Hstep Hrun; simpl in Hrun.
  - inversion Hrun; subst; assumption.
  - destruct (body x s) as [s1 |] eqn:Hb; simpl in Hrun; [| discriminate].
    apply (IH s1); auto.
    + apply (Hstep x s); simpl; auto.
    + intros y s2 s3 Hy; apply Hstep; simpl; auto.
Qed.

Lemma for_each_total xs body s :
  (forall x s1, In x xs -> exists s2, body x s1 = Ok s2) ->
  exists r, for_each xs body s = Ok r.
Proof.
  revert s; induction xs as [| x xs IH]; intros s Hstep; simpl.
  - eauto.
  - destruct (Hstep x s) as [s1 Hb]; [simpl; auto |].
    rewrite Hb; simpl. apply IH. intros y s2 Hy; apply Hstep; simpl; auto.
Qed.

Lemma for_each_raise xs body s e :
  for_each xs body s = Raise e ->
  exists x s1, In x xs /\ body x s1 = Raise e.
Proof.
  revert s; induction xs as [| x xs IH]; intros s Hrun; simpl in Hrun.
  - discriminate.
  - destruct (body x s) as [s1 |] eqn:Hb; simpl in Hrun.
    + destruct (IH _ Hrun) as (y & s2 & Hy & Hr). exists y, s2; simpl; auto.
    + inversion Hrun; subst. exists x, s; simpl; auto.
Qed.

End LoopFacts.

(** Two nested loops are one loop over the pairs. *)
Lemma for_each_nested {A B S : Type} (xs : list A) (ys : list B)
    (f : A -> B -> S -> result S) (s : S) :
  for_each xs (fun x s1 => for_each ys (f x) s1) s =
  for_each (list_prod xs ys) (fun xy => f (fst xy) (snd xy)) s.
Proof.
  revert s; induction xs as [| x xs IH]; intros s; simpl; [reflexivity |].
  rewrite for_each_app.
  assert (E : for_each (map (fun y => (x, y)) ys)
                (fun xy => f (fst xy) (snd xy)) s = for_each ys (f x) s).
  { clear IH. revert s; induction ys as [| y ys IHy]; intros s; simpl; auto.
    destruct (f x y s); simpl; auto. }
  rewrite E. destruct (for_each ys (f x) s); simpl; auto.
Qed.

(** A loop whose rounds each write one cell of the state: the cell of a
    round is still as at the start when the round runs, and it is not
    written again afterwards. *)
Section Cells.
Context {A S T : Type}.
Variable get : A -> S -> T.
Variable body : A -> S -> result S.
Hypothesis frame :
  forall x s s' y, body x s = Ok s' -> y <> x -> get y s' = get y s.

Lemma for_each_frame xs s r y :
  for_each xs body s = Ok r -> ~ In y xs -> get y r = get y s.
Proof.
  revert s; induction xs as [| x xs IH]; intros s Hrun Hy; simpl in Hrun.
  - inversion Hrun; reflexivity.
  - destruct (body x s) as [s1 |] eqn:Hb; simpl in Hrun; [| discriminate].
    rewrite (IH s1) by (auto; intros F; apply Hy; simpl; auto).
    eapply frame; [exact Hb |]. intros ->; apply Hy; simpl; auto.
Qed.

Lemma for_each_cells xs s r x :
  NoDup xs -> for_each xs body s = Ok r -> In x xs ->
  exists s1 s2, body x s1 = Ok s2 /\ get x s1 = get x s /\ get x r = get x s2.
Proof.
  revert s; induction xs as [| a xs IH]; intros s Hnd Hrun Hx; [destruct Hx |].
  simpl in Hrun. inversion Hnd as [| ? ? Ha Hnd']; subst.
  destruct (body a s) as [s1 |] eqn:Hb; simpl in Hrun; [| discriminate].
  destruct Hx as [-> | Hx].
  - exists s, s1. repeat split; auto. eapply for_each_frame; eauto.
  - destruct (IH s1 Hnd' Hrun Hx) as (t1 & t2 & Ht & Hg & Hr).
    exists t1, t2. repeat split; auto.
    rewrite Hg. eapply frame; [exact Hb |]. intros ->; contradiction.
Qed.
End Cells.

Lemma in_range n i : In i (range n) <-> 0 <= i < n.
Proof.
  unfold range. rewrite in_map_iff. split.
  - intros (k & <- & Hk). apply in_seq in Hk. lia.
  - intros Hi. exists (Z.to_nat i). split; [lia |]. apply in_seq. lia.
Qed.

Lemma NoDup_range n : NoDup (range n).
Proof.
  unfold range. apply Injective_map_NoDup.
  - intros a b. apply Nat2Z.inj.
  - apply seq_NoDup.
Qed.

Section DictFacts.
Context {K V : Type} `{EqDec K}.
Implicit Types (d : dict K V) (k : K) (v : V).

Lemma dict_get_set_same k v d : dict_get k (dict_set k v d) = Some v.
Proof.
  induction d as [| [k' v'] d IH]; simpl.
  - destruct (eq_dec k k); congruence.
  - destruct (eq_dec k k') as [E | N]; simpl.
    + destruct (eq_dec k k'); congruence.
    + destruct (eq_dec k k'); congruence.
Qed.

Lemma dict_get_set_other k k' v d :
  k <> k' -> dict_get k (dict_set k' v d) = dict_get k d.
Proof.
  intros N. induction d as [| [k1 v1] d IH]; simpl.
  - destruct (eq_dec k k'); congruence.
  - destruct (eq_dec k' k1) as [E | N1]; simpl.
    + subst. destruct (eq_dec k k1); congruence.
    + destruct (eq_dec k k1); congruence.
Qed.

Lemma dict_get_del_same k d : dict_get k (dict_del k d) = None.
Proof.
  unfold dict_del. induction d as [| [k' v'] d IH]; simpl; auto.
  destruct (eq_dec k k') as [E | N]; simpl; auto.
  destruct (eq_dec k k'); congruence.
Qed.

Lemma dict_get_del_other k k' d :
  k <> k' -> dict_get k (dict_del k' d) = dict_get k d.
Proof.
  intros N. unfold dict_del. induction d as [| [k1 v1] d IH]; simpl; auto.
  destruct (eq_dec k' k1) as [E | N1]; simpl.
  - subst. destruct (eq_dec k k1); congruence.
  - destruct (eq_dec k k1); congruence.
Qed.

Lemma dict_get_in_keys k d : dict_get k d <> None <-> In k (dict_keys d).
Proof.
  induction d as [| [k' v'] d IH]; simpl.
  - split; [congruence | tauto].
  - destruct (eq_dec k k') as [E | N].
    + split; [auto | congruence].
    + rewrite IH. split; [auto | intros [E | I]; congruence].
Qed.

Lemma dict_get_some_in k v d : dict_get k d = Some v -> In (k, v) d.
Proof.
  induction d as [| [k' v'] d IH]; simpl; [discriminate |].
  destruct (eq_dec k k') as [E | N]; [| auto].
  intros E'; inversion E'; subst; auto.
Qed.

Lemma dict_set_fresh k v d : ~ In k (dict_keys d) -> dict_set k v d = d ++ [(k, v)].
Proof.
  induction d as [| [k' v'] d IH]; simpl; intros Hk; auto.
  destruct (eq_dec k k') as [E | N]; [exfalso; auto |].
  rewrite IH by tauto. reflexivity.
Qed.

Lemma dict_keys_set k v d :
  forall k', In k' (dict_keys (dict_set k v d)) <-> k' = k \/ In k' (dict_keys d).
Proof.
  induction d as [| [k1 v1] d IH]; simpl; intros k'.
  - intuition.
  - destruct (eq_dec k k1) as [E | N]; simpl.
    + subst. intuition.
    + rewrite IH. intuition.
Qed.
End DictFacts.

(** ** Calling the solver *)

(** C2: [solve_network] hands three arguments to [conductance_matrix],
    which takes two, so every call of [solve_network] ends in a [TypeError],
    whatever the network, the nodes, the voltage and the solver: no system
    is assembled or solved. *)
Theorem solve_network_argument_count {ext : Extern}
    (NWN : Graph) (source_node drain_node : Z) (voltage : float) :
  solve_network NWN source_node drain_node voltage = Raise TypeError.
Proof.
  unfold solve_network, call_conductance_matrix. reflexivity.
Qed.

(** C1: on the two uprights and the bar, with the left upright as source,
    the right one as drain and 5 volts applied, [solve_network] returns no
    solution vector: the call ends in a [TypeError]. *)
Example solve_network_bridge :
  snd Sample.bridge = Ok tt /\
  wire_num (fst Sample.bridge) = 3 /\
  solve_network (fst Sample.bridge) 0 2 5 = Raise TypeError.
Proof.
  split; [vm_compute; reflexivity |].
  split; [vm_compute; reflexivity |].
  vm_compute; reflexivity.
Qed.

(** ** Adding wires *)

(** C4: when the two lists differ in length, [add_wires] raises
    [ValueError] and the network is left exactly as it was, every attribute,
    node and edge of it. *)
Theorem add_wires_length_mismatch {ext : Extern}
    (NWN : Graph) (lines : list LineString) (electrodes : list bool) :
  length lines <> length electrodes ->
  add_wires NWN lines electrodes = (NWN, Raise ValueError).
Proof.
  intros Hlen. unfold add_wires.
  destruct (Z.eqb_spec (Z.of_nat (length lines)) (Z.of_nat (length electrodes)))
    as [E | N]; simpl; [| reflexivity].
  apply Nat2Z.inj in E. contradiction.
Qed.

Lemma add_wires_length_mismatch_witness :
  length [Sample.upright_left; Sample.bar; Sample.upright_right]
    <> length [true; false] /\
  add_wires (fst Sample.bridge)
    [Sample.upright_left; Sample.bar; Sample.upright_right] [true; false]
  = (fst Sample.bridge, Raise ValueError).
Proof.
  split; [discriminate |].
  apply (add_wires_length_mismatch (ext := Sample.ext)). discriminate.
Defined.

(** ** The intersection index *)

Section Collect.
Context {A K V : Type} `{EqDec K}.
Variable key : A -> K.
Variable g : A -> option V.
Variable body : A -> dict K V -> result (dict K V).
Hypothesis body_spec :
  forall x out out', body x out = Ok out' ->
    out' = match g x with Some v => dict_set (key x) v out | None => out end.

Lemma dict_keys_entries xs :
  dict_keys (entries key g xs) =
  map key (filter (fun x => match g x with Some _ => true | None => false end) xs).
Proof.
  induction xs as [| x xs IH]; simpl; auto.
  unfold dict_keys in *. destruct (g x); simpl; rewrite IH; reflexivity.
Qed.

Lemma NoDup_map_filter (p : A -> bool) xs :
  NoDup (map key xs) -> NoDup (map key (filter p xs)).
Proof.
  induction xs as [| x xs IH]; simpl; intros Hnd; auto.
  inversion Hnd as [| ? ? Hx Hnd']; subst.
  destruct (p x); simpl; auto.
  constructor; auto.
  intros Hin. apply Hx. apply in_map_iff in Hin. destruct Hin as (y & E & Hy).
  apply filter_In in Hy. apply in_map_iff. exists y; tauto.
Qed.

Lemma NoDup_keys_entries xs :
  NoDup (map key xs) -> NoDup (dict_keys (entries key g xs)).
Proof.
  intros Hnd. rewrite dict_keys_entries. apply NoDup_map_filter, Hnd.
Qed.

Lemma in_entries xs k v :
  In (k, v) (entries key g xs) <-> exists x, In x xs /\ key x = k /\ g x = Some v.
Proof.
  unfold entries. rewrite in_flat_map. split.
  - intros (x & Hx & Hin). exists x. destruct (g x) as [v' |]; simpl in Hin.
    + destruct Hin as [E | []]. inversion E; subst; auto.
    + destruct Hin.
  - intros (x & Hx & Hk & Hg). exists x. rewrite Hg; simpl. subst; auto.
Qed.

(** When no key is met twice, every round appends. *)
Lemma for_each_collect xs acc d :
  NoDup (dict_keys (acc ++ entries key g xs)) ->
  for_each xs body acc = Ok d ->
  d = acc ++ entries key g xs.
Proof.
  revert acc; induction xs as [| x xs IH]; intros acc Hnd Hrun; simpl in *.
  - inversion Hrun; subst. rewrite app_nil_r; reflexivity.
  - destruct (body x acc) as [acc' |] eqn:Hb; simpl in Hrun; [| discriminate].
    apply body_spec in Hb. destruct (g x) as [v |]; simpl in *.
    + assert (Hfresh : ~ In (key x) (dict_keys acc)).
      { unfold dict_keys in *. rewrite map_app in Hnd. simpl in Hnd.
        apply NoDup_remove_2 in Hnd. intros Hin; apply Hnd.
        apply in_or_app; auto. }
      rewrite (dict_set_fresh _ _ _ Hfresh) in Hb. subst acc'.
      rewrite (IH (acc ++ [(key x, v)])); auto.
      * rewrite <- app_assoc; reflexivity.
      * rewrite <- app_assoc; exact Hnd.
    + subst acc'. apply IH; auto.
Qed.
End Collect.

Section Index.
Context {ext : Extern}.

Lemma in_triu_indices n i j : In (i, j) (triu_indices n) <-> 0 <= i < j /\ j < n.
Proof.
  unfold triu_indices. rewrite in_flat_map. split.
  - intros (a & Ha & Hin). apply in_map_iff in Hin. destruct Hin as (b & E & Hb).
    inversion E; subst. apply filter_In in Hb. destruct Hb as [Hb Hlt].
    apply in_range in Ha, Hb. apply Z.ltb_lt in Hlt. lia.
  - intros [Hi Hj]. exists i. split; [apply in_range; lia |].
    apply in_map_iff. exists j. split; auto.
    apply filter_In. split; [apply in_range; lia | apply Z.ltb_lt; lia].
Qed.

Lemma NoDup_filter {B : Type} (p : B -> bool) (l : list B) :
  NoDup l -> NoDup (filter p l).
Proof.
  induction l as [| x l IH]; simpl; intros Hnd; auto.
  inversion Hnd; subst. destruct (p x); auto.
  constructor; auto. rewrite filter_In. tauto.
Qed.

Lemma NoDup_rows {B C : Type} (row : B -> list C) (l : list B) :
  NoDup l ->
  (forall x, In x l -> NoDup (row x)) ->
  (forall x y c, In x l -> In y l -> In c (row x) -> In c (row y) -> x = y) ->
  NoDup (flat_map row l).
Proof.
  induction l as [| x l IH]; simpl; intros Hnd Hrow Hdis; [constructor |].
  inversion Hnd as [| ? ? Hx Hnd']; subst.
  assert (Hl : NoDup (flat_map row l)).
  { apply IH; auto. intros a b c Ha Hb; apply Hdis; auto. }
  assert (Hx' : forall c, In c (row x) -> ~ In c (flat_map row l)).
  { intros c Hc Hin. apply in_flat_map in Hin. destruct Hin as (y & Hy & Hcy).
    assert (x = y) by (apply (Hdis x y c); auto). subst; contradiction. }
  specialize (Hrow x (or_introl eq_refl)).
  clear - Hrow Hl Hx'. induction (row x) as [| c cs IHc]; simpl; auto.
  inversion Hrow; subst. constructor.
  - rewrite in_app_iff. intros [F | F]; [contradiction |].
    apply (Hx' c); simpl; auto.
  - apply IHc; auto. intros c' Hc'; apply Hx'; simpl; auto.
Qed.

Lemma NoDup_triu_indices n : NoDup (triu_indices n).
Proof.
  unfold triu_indices. apply NoDup_rows.
  - apply NoDup_range.
  - intros i _. apply Injective_map_NoDup.
    + intros a b E; inversion E; reflexivity.
    + apply NoDup_filter, NoDup_range.
  - intros x y c _ _ Hx Hy. apply in_map_iff in Hx, Hy.
    destruct Hx as (a & <- & _). destruct Hy as (b & E & _).
    inversion E; reflexivity.
Qed.

Lemma key_of_injective ind : Injective (key_of ind).
Proof.
  intros a b. unfold key_of.
  destruct (Z.ltb_spec ind a), (Z.ltb_spec ind b); intros E; inversion E; lia.
Qed.

Lemma key_of_min_max ind j : key_of ind j = (Z.min ind j, Z.max ind j).
Proof.
  unfold key_of. destruct (Z.ltb_spec ind j); f_equal; lia.
Qed.

(** What one round of [find_intersects] does to [out], when it returns. *)
Lemma find_intersects_round lines (ij : Z * Z) out out' :
  (let '(i, j) := ij in
   c <- method_call intersects lines i j ;;
   if c : bool then
     p <- method_call intersection lines i j ;;
     Ok (dict_update out [((i, j), p)])
   else Ok out) = Ok out' ->
  out' = match cross lines (fst ij) (snd ij) with
         | Some v => dict_set ij v out
         | None => out
         end.
Proof.
  destruct ij as [i j]; simpl. unfold cross.
  destruct (method_call intersects lines i j) as [[|] |]; simpl; try discriminate.
  - destruct (method_call intersection lines i j); simpl; try discriminate.
    intros E; inversion E; reflexivity.
  - intros E; inversion E; reflexivity.
Qed.

Lemma find_intersects_entries lines d :
  find_intersects lines = Ok d ->
  d = entries (fun ij => ij) (fun ij => cross lines (fst ij) (snd ij))
        (triu_indices (lines_len lines)).
Proof.
  intros Hrun. unfold find_intersects in Hrun.
  eapply (for_each_collect (fun ij : Z * Z => ij)
            (fun ij => cross lines (fst ij) (snd ij))) in Hrun.
  - exact Hrun.
  - intros x out out'. apply find_intersects_round.
  - simpl. apply NoDup_keys_entries. rewrite map_id. apply NoDup_triu_indices.
Qed.

Lemma find_line_intersects_entries ind lines d :
  find_line_intersects ind lines = Ok d ->
  d = entries (key_of ind)
        (fun j => if ind =? j then None else cross lines ind j)
        (range (lines_len lines)).
Proof.
  intros Hrun. unfold find_line_intersects in Hrun.
  eapply (for_each_collect (key_of ind)
            (fun j => if ind =? j then None else cross lines ind j)) in Hrun.
  - exact Hrun.
  - intros j out out'. unfold cross, key_of.
    destruct (ind =? j); [intros E; inversion E; reflexivity |].
    destruct (method_call intersects lines ind j) as [[|] |]; simpl; try discriminate.
    + destruct (ind <? j);
        destruct (method_call intersection lines ind j); simpl;
        try discriminate; intros E; inversion E; reflexivity.
    + intros E; inversion E; reflexivity.
  - simpl. apply NoDup_keys_entries.
    apply Injective_map_NoDup; [apply key_of_injective | apply NoDup_range].
Qed.

Lemma find_intersects_keys (lines : Lines) d :
  find_intersects lines = Ok d ->
  NoDup (dict_keys d) /\ forall i j, In (i, j) (dict_keys d) -> i < j.
Proof.
  intros Hrun. apply find_intersects_entries in Hrun. subst d. split.
  - apply NoDup_keys_entries. rewrite map_id. apply NoDup_triu_indices.
  - intros i j Hin. unfold dict_keys in Hin. apply in_map_iff in Hin.
    destruct Hin as ([k v] & E & Hin). simpl in E; subst k.
    apply in_entries in Hin. destruct Hin as (x & Hx & -> & _).
    apply in_triu_indices in Hx. lia.
Qed.

Lemma find_line_intersects_keys ind (lines : Lines) d :
  find_line_intersects ind lines = Ok d ->
  NoDup (dict_keys d) /\
  forall i j, In (i, j) (dict_keys d) ->
    i < j /\ exists k, k <> ind /\ (i, j) = (Z.min ind k, Z.max ind k).
Proof.
  intros Hrun. apply find_line_intersects_entries in Hrun. subst d. split.
  - apply NoDup_keys_entries.
    apply Injective_map_NoDup; [apply key_of_injective | apply NoDup_range].
  - intros i j Hin. unfold dict_keys in Hin. apply in_map_iff in Hin.
    destruct Hin as ([k v] & E & Hin). simpl in E; subst k.
    apply in_entries in Hin. destruct Hin as (x & Hx & Hk & Hg).
    destruct (Z.eqb_spec ind x) as [-> | Hne]; [discriminate |].
    rewrite key_of_min_max in Hk. inversion Hk; subst.
    split; [lia |]. exists x. split; [congruence | reflexivity].
Qed.
End Index.

(** ** Creating a network *)

Lemma round_half_even_nearest m e :
  0 <= m -> e < 0 ->
  2 * Z.abs (round_half_even m e * 2 ^ (- e) - m) <= 2 ^ (- e).
Proof.
  intros Hm He. unfold round_half_even.
  destruct (Z.leb_spec 0 e); [lia |].
  assert (Hd : 0 < 2 ^ (- e)) by (apply Z.pow_pos_nonneg; lia).
  generalize dependent (2 ^ (- e)). intros d Hd.
  pose proof (Z.div_mod m d ltac:(lia)) as Hdm.
  pose proof (Z.mod_pos_bound m d Hd) as Hr.
  destruct (Z.compare_spec (2 * (m mod d)) d) as [E | L | G].
  - destruct (Z.even (m / d)); nia.
  - nia.
  - nia.
Qed.

(** [round] returns an integer nearest to its argument. *)
Lemma py_round_nearest x n :
  py_round x = Ok n ->
  exists p q, float_fraction x = Some (p, q) /\ 0 < q /\
              2 * Z.abs (n * q - p) <= q.
Proof.
  unfold py_round, float_fraction.
  destruct (Prim2SF x) as [s | s | | s m e]; try discriminate.
  - intros E; inversion E; subst. exists 0, 1.
    split; [reflexivity |]. split; lia.
  - intros E; inversion E; subst; clear E.
    destruct (Z.leb_spec 0 e) as [He | He].
    + exists ((if s then - Z.pos m else Z.pos m) * 2 ^ e), 1.
      split; [reflexivity |]. split; [lia |].
      unfold round_half_even. destruct (Z.leb_spec 0 e); [| lia].
      destruct s; lia.
    + exists (if s then - Z.pos m else Z.pos m), (2 ^ (- e)).
      split; [reflexivity |].
      split; [apply Z.pow_pos_nonneg; lia |].
      pose proof (@round_half_even_nearest (Z.pos m) e ltac:(lia) He) as Hn.
      destruct s; lia.
Qed.

Section Attributes.
Context {ext : Extern}.

Lemma graph_attrs_add_node n a NWN :
  graph_attrs (add_node n a NWN) = graph_attrs NWN.
Proof.
  unfold add_node. destruct (dict_get n (nodes NWN)) as [[a' row] |]; reflexivity.
Qed.

Lemma graph_attrs_set_adj u v r NWN :
  graph_attrs (set_adj u v r NWN) = graph_attrs NWN.
Proof.
  unfold set_adj. destruct (dict_get u (nodes NWN)) as [[a' row] |]; reflexivity.
Qed.

Lemma graph_attrs_add_edge r NWN e :
  graph_attrs (add_edge r NWN e) = graph_attrs NWN.
Proof.
  destruct e as [u v]. unfold add_edge.
  rewrite !graph_attrs_set_adj.
  destruct (dict_mem v _); [| rewrite graph_attrs_add_node];
    destruct (dict_mem u _); try rewrite graph_attrs_add_node; reflexivity.
Qed.

Lemma graph_attrs_add_edges_from es r NWN :
  graph_attrs (add_edges_from es r NWN) = graph_attrs NWN.
Proof.
  unfold add_edges_from. revert NWN.
  induction es as [| e es IH]; intros NWN; simpl; [reflexivity |].
  rewrite IH. apply graph_attrs_add_edge.
Qed.

Lemma graph_attrs_set_midpoint n NWN NWN' :
  set_midpoint n NWN = Ok NWN' -> graph_attrs NWN' = graph_attrs NWN.
Proof.
  unfold set_midpoint.
  destruct (dict_get n (nodes NWN)) as [[a row] |]; [| discriminate].
  destruct (line a); [| discriminate].
  intros E; inversion E; reflexivity.
Qed.

Lemma graph_attrs_add_random_wire i st st' :
  add_random_wire i st = Ok st' -> graph_attrs (fst st') = graph_attrs (fst st).
Proof.
  destruct st as [NWN rng]. unfold add_random_wire.
  destruct (create_line _ _ _ _ _ rng) as [[l rng'] | x]; [| discriminate].
  cbn [bind].
  destruct (set_midpoint i _) as [NWN2 |] eqn:E; simpl; [| discriminate].
  intros E'; inversion E'; subst; simpl.
  apply graph_attrs_set_midpoint in E. rewrite E. apply graph_attrs_add_node.
Qed.

Lemma graph_attrs_add_random_wires xs st st' :
  for_each xs add_random_wire st = Ok st' ->
  graph_attrs (fst st') = graph_attrs (fst st).
Proof.
  intros Hrun.
  apply (for_each_invariant
           (fun t => graph_attrs (fst t) = graph_attrs (fst st))
           xs add_random_wire st); auto.
  intros x s1 s2 _ H1 Hb. rewrite <- H1. eapply graph_attrs_add_random_wire; eauto.
Qed.

(** The steps of [create_NWN], when it returns. *)
Lemma create_NWN_steps wl w dn seed resistance NWN :
  create_NWN wl w dn seed resistance = Ok NWN ->
  exists n dens rng st d jd,
    py_round (w * w * dn)%float = Ok n /\
    py_int_truediv n (w * w)%float = Ok dens /\
    default_rng seed = Ok rng /\
    for_each (range n) add_random_wire
      ({| wire_length := wl; width := w;
          size := (w * w)%float; wire_density := dens; wire_num := n;
          electrodes := 0; junction_resistance := resistance;
          electrode_list := []; loc := None; junction_density := None;
          nodes := [] |}, rng) = Ok st /\
    find_intersects (nodes_data_line (fst st)) = Ok d /\
    NWN = set_junction_density (Some jd)
            (set_loc (Some d) (add_edges_from (dict_keys d) resistance (fst st))).
Proof.
  unfold create_NWN.
  destruct (py_round _) as [n |] eqn:Hn; simpl; [| discriminate].
  destruct (py_int_truediv n _) as [dens |] eqn:Hdens; simpl; [| discriminate].
  destruct (default_rng seed) as [rng |] eqn:Hrng; simpl; [| discriminate].
  destruct (for_each _ _ _) as [st |] eqn:Hst; simpl; [| discriminate].
  destruct (find_intersects _) as [d |] eqn:Hd; simpl; [| discriminate].
  destruct (py_int_truediv (Z.of_nat _) _) as [jd |] eqn:Hjd; simpl; [| discriminate].
  intros E; inversion E; subst.
  exists n, dens, rng, st, d, jd. repeat split; auto.
Qed.

(** C5: the network [create_NWN] returns has, as [wire_num], what [round]
    makes of [width * width * density], an integer nearest to that product
    (the floating-point one), and as [wire_density] the quotient of
    [wire_num] by [width * width]. *)
Theorem create_NWN_wire_num wire_length width density seed resistance NWN :
  create_NWN wire_length width density seed resistance = Ok NWN ->
  py_round (width * width * density)%float = Ok (wire_num NWN) /\
  (exists p q, float_fraction (width * width * density)%float = Some (p, q) /\
               0 < q /\ 2 * Z.abs (wire_num NWN * q - p) <= q) /\
  py_int_truediv (wire_num NWN) (width * width)%float = Ok (wire_density NWN) /\
  wire_density NWN = (Z2F (wire_num NWN) / (width * width))%float.
Proof.
  intros Hrun.
  destruct (create_NWN_steps _ _ _ _ _ Hrun) as (n & dens & rng0 & st & d & jd & Hn & Hdens & _ & Hst & _ & ->).
  apply graph_attrs_add_random_wires in Hst. simpl in Hst.
  assert (Hw : wire_num (add_edges_from (dict_keys d) resistance (fst st)) = n).
  { change (wire_num (graph_attrs (add_edges_from (dict_keys d) resistance (fst st))) = n).
    rewrite graph_attrs_add_edges_from, Hst. reflexivity. }
  assert (Hden : wire_density (add_edges_from (dict_keys d) resistance (fst st)) = dens).
  { change (wire_density (graph_attrs (add_edges_from (dict_keys d) resistance (fst st))) = dens).
    rewrite graph_attrs_add_edges_from, Hst. reflexivity. }
  simpl. rewrite Hw, Hden.
  split; [exact Hn |]. split; [apply py_round_nearest; exact Hn |].
  split; [exact Hdens |].
  unfold py_int_truediv, int_to_float, py_truediv in Hdens.
  destruct (PrimFloat.is_infinity (Z2F n)); simpl in Hdens; [discriminate |].
  destruct (PrimFloat.is_zero _); inversion Hdens; reflexivity.
Qed.
End Attributes.

Lemma create_NWN_wire_num_witness :
  exists NWN,
    create_NWN (ext := Sample.ext) 1 2 0.625%float (Some 7) 10 = Ok NWN /\
    py_round (2 * 2 * 0.625)%float = Ok (wire_num NWN) /\
    wire_num NWN = 2 /\
    wire_density NWN = 0.5%float.
Proof.
  destruct (is_ok_returns
              (create_NWN (ext := Sample.ext) 1 2 0.625%float (Some 7) 10))
    as [NWN E]; [vm_compute; reflexivity |].
  exists NWN. split; [exact E |].
  destruct (create_NWN_wire_num (ext := Sample.ext) _ _ _ _ _ E)
    as (Hn & _ & _ & Hd).
  split; [exact Hn |].
  assert (H2 : py_round (2 * 2 * 0.625)%float = Ok 2) by (vm_compute; reflexivity).
  assert (Hw : wire_num NWN = 2) by congruence.
  split; [exact Hw |]. rewrite Hd, Hw. vm_compute. reflexivity.
Defined.

(** ** The conductance matrix *)

Lemma NoDup_list_prod {B C : Type} (xs : list B) (ys : list C) :
  NoDup xs -> NoDup ys -> NoDup (list_prod xs ys).
Proof.
  intros Hx Hy.
  assert (Hflat : list_prod xs ys = flat_map (fun x => map (fun y => (x, y)) ys) xs).
  { clear Hx. induction xs as [| x xs IH]; simpl; [reflexivity |].
    f_equal. exact IH. }
  rewrite Hflat. apply NoDup_rows; auto.
  - intros x _. apply Injective_map_NoDup; auto.
    intros a b E; inversion E; reflexivity.
  - intros x y c _ _ H1 H2. apply in_map_iff in H1, H2.
    destruct H1 as (a & <- & _). destruct H2 as (b & E & _).
    inversion E; reflexivity.
Qed.

Lemma is_zero_cases x :
  PrimFloat.is_zero x = true -> x = 0%float \/ x = (-0)%float.
Proof.
  unfold PrimFloat.is_zero. rewrite FloatAxioms.eqb_spec. intros Hz.
  rewrite <- (SF2Prim_Prim2SF x).
  destruct (Prim2SF x) as [s | s | | s m e].
  - destruct s; [right | left]; reflexivity.
  - destruct s; discriminate Hz.
  - discriminate Hz.
  - destruct s; discriminate Hz.
Qed.

Lemma num_eq_stored x : num_eq (stored x) x.
Proof.
  unfold stored, num_eq. destruct (PrimFloat.is_zero x) eqn:Hz; auto.
Qed.

(** Adding to what was stored is adding to what was written. *)
Lemma stored_plus_leak x : (stored x + leak)%float = (x + leak)%float.
Proof.
  unfold stored. destruct (PrimFloat.is_zero x) eqn:Hz; [| reflexivity].
  destruct (is_zero_cases Hz) as [-> | ->]; reflexivity.
Qed.

Lemma dok_get_set_same k x G : dok_get k (dok_set k x G) = stored x.
Proof.
  unfold dok_get, dok_set, stored.
  destruct (PrimFloat.is_zero x).
  - rewrite dict_get_del_same. reflexivity.
  - rewrite dict_get_set_same. reflexivity.
Qed.

Lemma dok_get_set_other k k' x G :
  k <> k' -> dok_get k (dok_set k' x G) = dok_get k G.
Proof.
  intros N. unfold dok_get, dok_set.
  destruct (PrimFloat.is_zero x).
  - rewrite dict_get_del_other by exact N. reflexivity.
  - rewrite dict_get_set_other by exact N. reflexivity.
Qed.

Section Matrix.
Context {ext : Extern}.
Variable NWN : Graph.
Variable drain_node : Z.

(** The resistances met along a list of edges. *)
Lemma edge_resistance_data edge :
  edge_resistance edge NWN =
  match get_edge_data (fst edge) (snd edge) NWN with
  | Some r => Ok r
  | None => Raise KeyError
  end.
Proof.
  unfold edge_resistance, get_edge_data.
  destruct (dict_get (fst edge) (nodes NWN)) as [[a row] |]; [| reflexivity].
  destruct (dict_get (snd edge) row); reflexivity.
Qed.

Lemma conductances_spec edges acc gs :
  for_each edges
    (fun edge acc =>
       r <- edge_resistance edge NWN ;;
       if negb (PrimFloat.is_zero r) then
         r' <- edge_resistance edge NWN ;;
         g <- py_truediv 1 r' ;;
         Ok (acc ++ [g])
       else Ok acc) acc = Ok gs ->
  gs = acc ++
       map (fun r => (1 / r)%float)
         (filter (fun r => negb (PrimFloat.is_zero r))
            (flat_map (fun e => match get_edge_data (fst e) (snd e) NWN with
                                | Some r => [r]
                                | None => []
                                end) edges)).
Proof.
  revert acc; induction edges as [| e es IH]; intros acc Hrun; simpl in Hrun.
  - inversion Hrun; subst. simpl. rewrite app_nil_r. reflexivity.
  - rewrite edge_resistance_data in Hrun. simpl.
    destruct (get_edge_data (fst e) (snd e) NWN) as [r |]; simpl in Hrun;
      [| discriminate].
    unfold py_truediv in Hrun.
    destruct (PrimFloat.is_zero r) eqn:Hz; simpl in Hrun |- *.
    + rewrite Hz. simpl. apply IH; exact Hrun.
    + rewrite Hz. simpl. apply IH in Hrun. rewrite <- app_assoc in Hrun. exact Hrun.
Qed.

Lemma incident_resistances_edges i a row :
  dict_get i (nodes NWN) = Some (a, row) ->
  flat_map (fun e => match get_edge_data (fst e) (snd e) NWN with
                     | Some r => [r]
                     | None => []
                     end) (map (fun kv : Z * float => (i, fst kv)) row)
  = incident_resistances i NWN.
Proof.
  intros Hi. unfold incident_resistances, neighbors, dict_keys. rewrite Hi.
  clear Hi. induction row as [| kv row IH]; simpl; [reflexivity |].
  rewrite IH. reflexivity.
Qed.

(** A round of the loops writes its own cell only. *)
Lemma conductance_cell_frame i j G G' k :
  conductance_cell NWN drain_node i j G = Ok G' ->
  k <> (i, j) -> dok_get k G' = dok_get k G.
Proof.
  unfold conductance_cell. intros Hrun Hk.
  destruct (i =? j).
  - destruct (i =? drain_node).
    + inversion Hrun; subst. apply dok_get_set_other; exact Hk.
    + destruct (edges_of i NWN) as [es |]; simpl in Hrun; [| discriminate].
      destruct (conductances es NWN) as [gs |]; simpl in Hrun; [| discriminate].
      inversion Hrun; subst. rewrite !dok_get_set_other by exact Hk. reflexivity.
  - destruct (negb (i =? drain_node)); [| inversion Hrun; reflexivity].
    destruct (get_edge_data i j NWN) as [r |]; [| inversion Hrun; reflexivity].
    destruct (py_truediv (-1) r) as [g |]; simpl in Hrun; [| discriminate].
    inversion Hrun; subst. apply dok_get_set_other; exact Hk.
Qed.

Lemma conductance_matrix_flat :
  conductance_matrix NWN drain_node =
  (G <- dok_matrix (wire_num NWN) (wire_num NWN) ;;
   for_each (list_prod (range (wire_num NWN)) (range (wire_num NWN)))
     (fun ij => conductance_cell NWN drain_node (fst ij) (snd ij)) G).
Proof.
  unfold conductance_matrix.
  destruct (dok_matrix _ _) as [G |]; simpl; [| reflexivity].
  apply (for_each_nested (range (wire_num NWN)) (range (wire_num NWN))
           (fun i j G => conductance_cell NWN drain_node i j G)).
Qed.

Lemma dok_matrix_returns m n G : dok_matrix m n = Ok G -> G = [] /\ 0 <= m /\ 0 <= n.
Proof.
  unfold dok_matrix.
  destruct (Z.ltb_spec m 0); simpl; [discriminate |].
  destruct (Z.ltb_spec n 0); simpl; [discriminate |].
  intros E; inversion E. repeat split; auto.
Qed.

Lemma dok_matrix_raises m n e :
  dok_matrix m n = Raise e -> e = ValueError /\ (m < 0 \/ n < 0).
Proof.
  unfold dok_matrix.
  destruct (Z.ltb_spec m 0); simpl; [intros E; inversion E; auto |].
  destruct (Z.ltb_spec n 0); simpl; [intros E; inversion E; auto | discriminate].
Qed.

(** Every cell of the result is what its own round left, and that round
    found the cell empty. *)
Lemma conductance_matrix_cells G i j :
  conductance_matrix NWN drain_node = Ok G ->
  0 <= i < wire_num NWN -> 0 <= j < wire_num NWN ->
  exists G1 G2,
    conductance_cell NWN drain_node i j G1 = Ok G2 /\
    dok_get (i, j) G1 = 0%float /\
    dok_get (i, j) G = dok_get (i, j) G2.
Proof.
  rewrite conductance_matrix_flat. intros Hrun Hi Hj.
  destruct (dok_matrix _ _) as [G0 |] eqn:H0; simpl in Hrun; [| discriminate].
  apply dok_matrix_returns in H0. destruct H0 as [-> _].
  assert (Hframe : forall (x : Z * Z) (s s' : dok) (y : Z * Z),
             conductance_cell NWN drain_node (fst x) (snd x) s = Ok s' ->
             y <> x -> dok_get y s' = dok_get y s).
  { intros [a b] s s' y Hb Hy. eapply conductance_cell_frame; eauto. }
  destruct (@for_each_cells (Z * Z) dok float
              (fun ij G => dok_get ij G)
              (fun ij => conductance_cell NWN drain_node (fst ij) (snd ij))
              Hframe
              (list_prod (range (wire_num NWN)) (range (wire_num NWN)))
              [] G (i, j)
              (NoDup_list_prod (NoDup_range _) (NoDup_range _)) Hrun)
    as (G1 & G2 & Hb & Hg & Hr).
  - apply in_prod; apply in_range; assumption.
  - exists G1, G2. auto.
Qed.

Lemma cell_drain G1 G2 :
  conductance_cell NWN drain_node drain_node drain_node G1 = Ok G2 ->
  dok_get (drain_node, drain_node) G2 = 1%float.
Proof.
  unfold conductance_cell. rewrite Z.eqb_refl.
  intros E; inversion E. rewrite dok_get_set_same. reflexivity.
Qed.

Lemma cell_diagonal i G1 G2 :
  i <> drain_node ->
  conductance_cell NWN drain_node i i G1 = Ok G2 ->
  dok_get (i, i) G2 =
  stored (py_sum (map (fun r => (1 / r)%float)
                    (filter (fun r => negb (PrimFloat.is_zero r))
                       (incident_resistances i NWN))) + leak)%float.
Proof.
  intros Hi. unfold conductance_cell. rewrite Z.eqb_refl.
  destruct (Z.eqb_spec i drain_node); [contradiction |].
  unfold edges_of.
  destruct (dict_get i (nodes NWN)) as [[a row] |] eqn:Hn; simpl; [| discriminate].
  destruct (conductances _ NWN) as [gs |] eqn:Hgs; simpl; [| discriminate].
  intros E; inversion E; subst; clear E.
  rewrite !dok_get_set_same, stored_plus_leak.
  apply conductances_spec in Hgs. simpl in Hgs.
  rewrite (incident_resistances_edges _ Hn) in Hgs. subst gs. reflexivity.
Qed.

Lemma cell_off_diagonal i j G1 G2 :
  i <> j -> i <> drain_node ->
  conductance_cell NWN drain_node i j G1 = Ok G2 ->
  dok_get (i, j) G1 = 0%float ->
  dok_get (i, j) G2 =
    match get_edge_data i j NWN with
    | Some r => stored ((-1) / r)%float
    | None => 0%float
    end /\
  forall r, get_edge_data i j NWN = Some r -> PrimFloat.is_zero r = false.
Proof.
  intros Hij Hi. unfold conductance_cell.
  destruct (Z.eqb_spec i j); [contradiction |].
  destruct (Z.eqb_spec i drain_node); [contradiction |]. simpl.
  destruct (get_edge_data i j NWN) as [r |].
  - unfold py_truediv. destruct (PrimFloat.is_zero r) eqn:Hz; simpl; [discriminate |].
    intros E _; inversion E; subst. rewrite dok_get_set_same.
    split; [reflexivity |]. intros r' Hr; inversion Hr; subst; exact Hz.
  - intros E H0; inversion E; subst. split; [exact H0 | discriminate].
Qed.
End Matrix.

Section MatrixClaims.
Context {ext : Extern}.

(** C3: in the matrix [conductance_matrix] returns, the drain's diagonal
    entry is 1; the diagonal entry of another wire is the sum of
    [1 / resistance] over its junctions of non-zero resistance, plus 1e-8;
    and off the diagonal, outside the drain row, the entry is
    [-1 / resistance] of the junction of the two wires, or 0 when they have
    none.  The entries are equal as numbers: a zero is read back as [0.0]
    whatever its sign was. *)
Theorem conductance_matrix_entries (NWN : Graph) (drain_node : Z) (G : dok) :
  conductance_matrix NWN drain_node = Ok G ->
  (0 <= drain_node < wire_num NWN ->
   dok_get (drain_node, drain_node) G = 1%float) /\
  (forall i, 0 <= i < wire_num NWN -> i <> drain_node ->
     num_eq (dok_get (i, i) G)
       (py_sum (map (fun r => (1 / r)%float)
                  (filter (fun r => negb (PrimFloat.is_zero r))
                     (incident_resistances i NWN))) + leak)%float) /\
  (forall i j, 0 <= i < wire_num NWN -> 0 <= j < wire_num NWN ->
     i <> j -> i <> drain_node ->
     num_eq (dok_get (i, j) G)
       match get_edge_data i j NWN with
       | Some r => ((-1) / r)%float
       | None => 0%float
       end).
Proof.
  intros Hrun. split; [| split].
  - intros Hd.
    destruct (conductance_matrix_cells _ _ Hrun Hd Hd) as (G1 & G2 & Hb & _ & ->).
    eapply cell_drain; eauto.
  - intros i Hi Hne.
    destruct (conductance_matrix_cells _ _ Hrun Hi Hi) as (G1 & G2 & Hb & _ & ->).
    rewrite (@cell_diagonal _ NWN drain_node i G1 G2 Hne Hb). apply num_eq_stored.
  - intros i j Hi Hj Hij Hne.
    destruct (conductance_matrix_cells _ _ Hrun Hi Hj) as (G1 & G2 & Hb & H0 & ->).
    destruct (@cell_off_diagonal _ NWN drain_node i j G1 G2 Hij Hne Hb H0) as [-> _].
    destruct (get_edge_data i j NWN); [apply num_eq_stored | left; reflexivity].
Qed.

(** C8: away from the drain row and the drain column the matrix is
    symmetric, for a graph whose edges are undirected. *)
Theorem conductance_matrix_symmetric (NWN : Graph) (drain_node : Z) (G : dok) :
  adj_symmetric NWN ->
  conductance_matrix NWN drain_node = Ok G ->
  forall i j, 0 <= i < wire_num NWN -> 0 <= j < wire_num NWN ->
    i <> j -> i <> drain_node -> j <> drain_node ->
    dok_get (i, j) G = dok_get (j, i) G.
Proof.
  intros Hsym Hrun i j Hi Hj Hij Hid Hjd.
  destruct (conductance_matrix_cells _ _ Hrun Hi Hj) as (G1 & G2 & Hb & H0 & ->).
  destruct (conductance_matrix_cells _ _ Hrun Hj Hi) as (G3 & G4 & Hb' & H0' & ->).
  destruct (@cell_off_diagonal _ NWN drain_node i j G1 G2 Hij Hid Hb H0) as [-> _].
  destruct (@cell_off_diagonal _ NWN drain_node j i G3 G4 (not_eq_sym Hij) Hjd Hb' H0') as [-> _].
  rewrite (Hsym i j). reflexivity.
Qed.

Lemma conductances_returns (NWN : Graph) i a row :
  dict_get i (nodes NWN) = Some (a, row) ->
  exists gs, conductances (map (fun kv : Z * float => (i, fst kv)) row) NWN = Ok gs.
Proof.
  intros Hi. unfold conductances. apply for_each_total.
  intros e acc He. apply in_map_iff in He. destruct He as ([nbr r0] & <- & Hin).
  rewrite edge_resistance_data. unfold get_edge_data. simpl. rewrite Hi.
  destruct (dict_get nbr row) as [r |] eqn:Hr.
  - simpl. unfold py_truediv.
    destruct (PrimFloat.is_zero r); simpl; eauto.
  - exfalso. apply (proj2 (dict_get_in_keys nbr row)); [| exact Hr].
    unfold dict_keys. apply in_map_iff. exists (nbr, r0). auto.
Qed.

(** A round divides by zero only off the diagonal, by the resistance of the
    junction of the two wires. *)
Lemma cell_zero_division (NWN : Graph) drain_node i j G :
  conductance_cell NWN drain_node i j G = Raise ZeroDivisionError ->
  i <> j /\ i <> drain_node /\
  exists r, get_edge_data i j NWN = Some r /\ PrimFloat.is_zero r = true.
Proof.
  unfold conductance_cell.
  destruct (Z.eqb_spec i j) as [-> | Hij].
  - destruct (j =? drain_node); [discriminate |].
    unfold edges_of.
    destruct (dict_get j (nodes NWN)) as [[a row] |] eqn:Hn; simpl; [| discriminate].
    destruct (conductances_returns NWN j Hn) as [gs ->]. discriminate.
  - destruct (Z.eqb_spec i drain_node); simpl; [discriminate |].
    destruct (get_edge_data i j NWN) as [r |]; [| discriminate].
    unfold py_truediv. destruct (PrimFloat.is_zero r) eqn:Hz; simpl; [| discriminate].
    intros _. repeat split; auto. exists r; auto.
Qed.

(** With every wire present, a round returns or divides by zero. *)
Lemma cell_outcome (NWN : Graph) drain_node i j G :
  wires_present NWN -> 0 <= i < wire_num NWN ->
  (exists G', conductance_cell NWN drain_node i j G = Ok G') \/
  conductance_cell NWN drain_node i j G = Raise ZeroDivisionError.
Proof.
  intros [_ Hnodes] Hi. specialize (Hnodes i Hi). unfold dict_mem in Hnodes.
  unfold conductance_cell.
  destruct (i =? j).
  - destruct (i =? drain_node); [left; eauto |].
    unfold edges_of.
    destruct (dict_get i (nodes NWN)) as [[a row] |] eqn:Hn; [| discriminate].
    simpl. destruct (conductances_returns NWN i Hn) as [gs ->]. simpl. left; eauto.
  - destruct (negb (i =? drain_node)); [| left; eauto].
    destruct (get_edge_data i j NWN) as [r |]; [| left; eauto].
    unfold py_truediv. destruct (PrimFloat.is_zero r); simpl; [right | left]; eauto.
Qed.

(** C9: when no junction has a zero resistance, [conductance_matrix] never
    divides by zero, and it returns a matrix when every wire is present;
    the precondition is needed: with every wire present, one junction of
    zero resistance between two wires, seen from a wire that is not the
    drain, makes the call end in [ZeroDivisionError], although the diagonal
    sum leaves such junctions out; in an undirected graph any junction of
    zero resistance between two wires does. *)
Theorem conductance_matrix_divisions (NWN : Graph) (drain_node : Z) :
  ((forall i j r, get_edge_data i j NWN = Some r -> PrimFloat.is_zero r = false) ->
   conductance_matrix NWN drain_node <> Raise ZeroDivisionError /\
   (wires_present NWN -> exists G, conductance_matrix NWN drain_node = Ok G)) /\
  (wires_present NWN ->
   forall i j r, 0 <= i < wire_num NWN -> 0 <= j < wire_num NWN ->
     i <> j -> i <> drain_node ->
     get_edge_data i j NWN = Some r -> PrimFloat.is_zero r = true ->
     conductance_matrix NWN drain_node = Raise ZeroDivisionError) /\
  (wires_present NWN -> adj_symmetric NWN ->
   forall i j r, 0 <= i < wire_num NWN -> 0 <= j < wire_num NWN ->
     i <> j ->
     get_edge_data i j NWN = Some r -> PrimFloat.is_zero r = true ->
     conductance_matrix NWN drain_node = Raise ZeroDivisionError).
Proof.
  assert (Hneeded : wires_present NWN ->
            forall i j r, 0 <= i < wire_num NWN -> 0 <= j < wire_num NWN ->
              i <> j -> i <> drain_node ->
              get_edge_data i j NWN = Some r -> PrimFloat.is_zero r = true ->
              conductance_matrix NWN drain_node = Raise ZeroDivisionError).
  { intros Hw i j r Hi Hj Hij Hid Hr Hz.
    destruct (conductance_matrix NWN drain_node) as [G | e] eqn:Hrun.
    - destruct (conductance_matrix_cells _ _ Hrun Hi Hj) as (G1 & G2 & Hb & H0 & _).
      destruct (@cell_off_diagonal _ NWN drain_node i j G1 G2 Hij Hid Hb H0)
        as [_ Hnz].
      rewrite (Hnz r Hr) in Hz. discriminate.
    - f_equal. rewrite conductance_matrix_flat in Hrun.
      destruct (dok_matrix _ _) as [G0 |] eqn:H0; simpl in Hrun.
      + apply for_each_raise in Hrun. destruct Hrun as ([a b] & G1 & Hin & Hb).
        apply in_prod_iff in Hin. destruct Hin as [Ha _]. apply in_range in Ha.
        destruct (cell_outcome drain_node b G1 Hw Ha) as [[G' Hok] | Hzd];
          simpl in Hb; congruence.
      + apply dok_matrix_raises in H0. destruct Hw as [Hw _]. lia. }
  split; [| split; [exact Hneeded |]].
  - intros Hnz.
    assert (Hno : conductance_matrix NWN drain_node <> Raise ZeroDivisionError).
    { rewrite conductance_matrix_flat. intros Hrun.
      destruct (dok_matrix _ _) as [G0 |] eqn:H0; simpl in Hrun.
      - apply for_each_raise in Hrun. destruct Hrun as ([i j] & G1 & _ & Hb).
        simpl in Hb.
        apply cell_zero_division in Hb. destruct Hb as (_ & _ & r & Hr & Hz).
        rewrite (Hnz _ _ _ Hr) in Hz. discriminate.
      - apply dok_matrix_raises in H0. destruct H0 as [-> _]. discriminate. }
    split; [exact Hno |].
    intros Hw. destruct (conductance_matrix NWN drain_node) as [G | e] eqn:Hrun;
      [eauto |].
    exfalso. apply Hno. f_equal.
    rewrite conductance_matrix_flat in Hrun.
    destruct (dok_matrix _ _) as [G0 |] eqn:H0; simpl in Hrun.
    + apply for_each_raise in Hrun. destruct Hrun as ([i j] & G1 & Hin & Hb).
      apply in_prod_iff in Hin. destruct Hin as [Hi _]. apply in_range in Hi.
      destruct (cell_outcome drain_node j G1 Hw Hi) as [[G' Hok] | Hz];
        simpl in Hb; congruence.
    + apply dok_matrix_raises in H0. destruct Hw as [Hw _]. lia.
  - intros Hw Hsym i j r Hi Hj Hij Hr Hz.
    destruct (Z.eq_dec i drain_node) as [-> | Hid].
    + apply (Hneeded Hw j drain_node r); auto.
      rewrite (Hsym j drain_node). exact Hr.
    + apply (Hneeded Hw i j r); auto.
Qed.
End MatrixClaims.

Lemma conductance_matrix_entries_witness :
  exists G,
    conductance_matrix (fst Sample.bridge) 2 = Ok G /\
    dok_get (2, 2) G = 1%float /\
    num_eq (dok_get (0, 1) G) ((-1) / 10)%float.
Proof.
  destruct (is_ok_returns (conductance_matrix (fst Sample.bridge) 2))
    as [G E]; [vm_compute; reflexivity |].
  exists G. split; [exact E |].
  destruct (conductance_matrix_entries _ _ E) as (Hd & _ & Hoff).
  assert (Hn : wire_num (fst Sample.bridge) = 3) by (vm_compute; reflexivity).
  assert (He : get_edge_data 0 1 (fst Sample.bridge) = Some 10%float)
    by (vm_compute; reflexivity).
  rewrite Hn in Hd, Hoff. split; [apply Hd; lia |].
  specialize (Hoff 0 1). rewrite He in Hoff. apply Hoff; lia.
Defined.

Lemma no_zero_resistance_sound {ext : Extern} (NWN : Graph) :
  no_zero_resistance NWN = true ->
  forall i j r, get_edge_data i j NWN = Some r -> PrimFloat.is_zero r = false.
Proof.
  unfold no_zero_resistance, get_edge_data. intros Hall i j r Hr.
  destruct (dict_get i (nodes NWN)) as [[a row] |] eqn:Hi; [| discriminate].
  apply dict_get_some_in in Hi, Hr.
  rewrite forallb_forall in Hall. specialize (Hall _ Hi). simpl in Hall.
  rewrite forallb_forall in Hall. specialize (Hall _ Hr). simpl in Hall.
  destruct (PrimFloat.is_zero r); [discriminate | reflexivity].
Qed.

Lemma conductance_matrix_divisions_witness :
  (exists G, conductance_matrix (fst Sample.bridge) 2 = Ok G) /\
  conductance_matrix (fst Sample.shorted) 2 = Raise ZeroDivisionError.
Proof.
  assert (Hw : forall NWN : Graph (ext := Sample.ext),
             wire_num NWN = 3 ->
             dict_mem 0 (nodes NWN) = true -> dict_mem 1 (nodes NWN) = true ->
             dict_mem 2 (nodes NWN) = true -> wires_present NWN).
  { intros NWN Hn H0 H1 H2. split; [lia |]. intros i Hi.
    assert (Hc : i = 0 \/ i = 1 \/ i = 2) by lia.
    destruct Hc as [-> | [-> | ->]]; assumption. }
  split.
  - apply (proj1 (conductance_matrix_divisions (fst Sample.bridge) 2)).
    + apply no_zero_resistance_sound. vm_compute; reflexivity.
    + apply Hw; vm_compute; reflexivity.
  - apply (proj1 (proj2 (conductance_matrix_divisions (fst Sample.shorted) 2)))
      with (i := 0) (j := 1) (r := 0%float).
    + apply Hw; vm_compute; reflexivity.
    + assert (Hn : wire_num (fst Sample.shorted) = 3) by (vm_compute; reflexivity).
      lia.
    + assert (Hn : wire_num (fst Sample.shorted) = 3) by (vm_compute; reflexivity).
      lia.
    + lia.
    + lia.
    + vm_compute; reflexivity.
    + vm_compute; reflexivity.
Defined.

(** ** Nodes and edges under the graph operations *)

Section GraphFacts.
Context {ext : Extern}.
Implicit Types (NWN : Graph) (a attr : NodeAttr) (r : float).

Lemma nodes_add_node_other k n attr NWN :
  k <> n -> dict_get k (nodes (add_node n attr NWN)) = dict_get k (nodes NWN).
Proof.
  intros Hk. unfold add_node.
  destruct (dict_get n (nodes NWN)) as [[a row] |]; simpl;
    apply dict_get_set_other; exact Hk.
Qed.

Lemma nodes_add_node_same n attr NWN :
  dict_get n (nodes (add_node n attr NWN)) =
  match dict_get n (nodes NWN) with
  | Some (a, row) => Some (attr_update a attr, row)
  | None => Some (attr_update no_attr attr, [])
  end.
Proof.
  unfold add_node.
  destruct (dict_get n (nodes NWN)) as [[a row] |]; simpl;
    apply dict_get_set_same.
Qed.

Lemma nodes_set_adj k u v r NWN a row :
  dict_get u (nodes NWN) = Some (a, row) ->
  dict_get k (nodes (set_adj u v r NWN)) =
  if eq_dec k u then Some (a, dict_set v r row) else dict_get k (nodes NWN).
Proof.
  intros Hu. unfold set_adj. rewrite Hu. simpl.
  destruct (eq_dec k u) as [-> | Hk].
  - apply dict_get_set_same.
  - apply dict_get_set_other; exact Hk.
Qed.

Lemma get_edge_data_add_node u v n attr NWN :
  get_edge_data u v (add_node n attr NWN) = get_edge_data u v NWN.
Proof.
  unfold get_edge_data.
  destruct (eq_dec u n) as [-> | Hu].
  - rewrite nodes_add_node_same.
    destruct (dict_get n (nodes NWN)) as [[a row] |]; reflexivity.
  - rewrite nodes_add_node_other by exact Hu. reflexivity.
Qed.

Lemma get_edge_data_set_adj x y u v r NWN :
  dict_mem u (nodes NWN) = true ->
  get_edge_data x y (set_adj u v r NWN) =
  if eq_dec x u then
    if eq_dec y v then Some r else get_edge_data x y NWN
  else get_edge_data x y NWN.
Proof.
  unfold dict_mem. intros Hu.
  destruct (dict_get u (nodes NWN)) as [[a row] |] eqn:Hn; [| discriminate].
  unfold get_edge_data. rewrite (@nodes_set_adj x u v r NWN a row Hn).
  destruct (eq_dec x u) as [-> | Hx]; [| reflexivity].
  rewrite Hn. destruct (eq_dec y v) as [-> | Hy].
  - apply dict_get_set_same.
  - apply dict_get_set_other; exact Hy.
Qed.

Lemma dict_mem_add_node k n attr NWN :
  dict_mem k (nodes (add_node n attr NWN)) =
  if eq_dec k n then true else dict_mem k (nodes NWN).
Proof.
  unfold dict_mem. destruct (eq_dec k n) as [-> | Hk].
  - rewrite nodes_add_node_same.
    destruct (dict_get n (nodes NWN)) as [[a row] |]; reflexivity.
  - rewrite nodes_add_node_other by exact Hk. reflexivity.
Qed.

Lemma dict_mem_set_adj k u v r NWN :
  dict_mem k (nodes (set_adj u v r NWN)) = dict_mem k (nodes NWN).
Proof.
  unfold dict_mem.
  destruct (dict_get u (nodes NWN)) as [[a row] |] eqn:Hn.
  - rewrite (@nodes_set_adj k u v r NWN a row Hn).
    destruct (eq_dec k u) as [-> | Hk]; [rewrite Hn |]; reflexivity.
  - unfold set_adj. rewrite Hn. reflexivity.
Qed.

(** The graph with both end points made nodes. *)
Lemma ensure_nodes u v NWN :
  let G1 := if dict_mem u (nodes NWN) then NWN else add_node u no_attr NWN in
  let G2 := if dict_mem v (nodes G1) then G1 else add_node v no_attr G1 in
  dict_mem u (nodes G2) = true /\ dict_mem v (nodes G2) = true /\
  forall x y, get_edge_data x y G2 = get_edge_data x y NWN.
Proof.
  simpl.
  set (G1 := if dict_mem u (nodes NWN) then NWN else add_node u no_attr NWN).
  assert (H1 : dict_mem u (nodes G1) = true).
  { unfold G1. destruct (dict_mem u (nodes NWN)) eqn:Hu; [exact Hu |].
    rewrite dict_mem_add_node. destruct (eq_dec u u); congruence. }
  assert (E1 : forall x y, get_edge_data x y G1 = get_edge_data x y NWN).
  { intros x y. unfold G1. destruct (dict_mem u (nodes NWN)); [reflexivity |].
    apply get_edge_data_add_node. }
  destruct (dict_mem v (nodes G1)) eqn:Hv.
  - auto.
  - rewrite !dict_mem_add_node. destruct (eq_dec v v); [| congruence].
    split; [destruct (eq_dec u v); auto |]. split; [reflexivity |].
    intros x y. rewrite get_edge_data_add_node. apply E1.
Qed.

Lemma get_edge_data_add_edge x y u v r NWN :
  get_edge_data x y (add_edge r NWN (u, v)) =
  if eq_dec (x, y) (v, u) then Some r
  else if eq_dec (x, y) (u, v) then Some r
  else get_edge_data x y NWN.
Proof.
  unfold add_edge.
  destruct (ensure_nodes u v NWN) as (Hu & Hv & He). simpl in Hu, Hv, He.
  set (G2 := if dict_mem v _ then _ else _) in *.
  rewrite get_edge_data_set_adj by (rewrite dict_mem_set_adj; exact Hv).
  rewrite get_edge_data_set_adj by exact Hu. rewrite He.
  repeat match goal with
         | |- context [eq_dec ?p ?q] => destruct (eq_dec p q)
         end; try reflexivity; congruence.
Qed.

Lemma adj_symmetric_add_edge r NWN e :
  adj_symmetric NWN -> adj_symmetric (add_edge r NWN e).
Proof.
  destruct e as [u v]. intros Hsym x y. rewrite !get_edge_data_add_edge.
  rewrite (Hsym x y).
  repeat match goal with
         | |- context [eq_dec ?p ?q] => destruct (eq_dec p q)
         end; try reflexivity; congruence.
Qed.

Lemma adj_symmetric_add_edges_from es r NWN :
  adj_symmetric NWN -> adj_symmetric (add_edges_from es r NWN).
Proof.
  unfold add_edges_from. revert NWN.
  induction es as [| e es IH]; intros NWN Hsym; simpl; [exact Hsym |].
  apply IH, adj_symmetric_add_edge, Hsym.
Qed.

Lemma adj_symmetric_nodes NWN NWN' :
  nodes NWN' = nodes NWN -> adj_symmetric NWN -> adj_symmetric NWN'.
Proof.
  intros E Hsym u v. unfold get_edge_data. rewrite E. apply Hsym.
Qed.

Lemma adj_symmetric_add_node n attr NWN :
  adj_symmetric NWN -> adj_symmetric (add_node n attr NWN).
Proof.
  intros Hsym u v. rewrite !get_edge_data_add_node. apply Hsym.
Qed.

Lemma nodes_set_midpoint n NWN NWN' :
  set_midpoint n NWN = Ok NWN' ->
  exists a row,
    dict_get n (nodes NWN) = Some (a, row) /\
    forall k, dict_get k (nodes NWN') =
      if eq_dec k n
      then Some ({| line := line a; midpoint := option_map centroid (line a);
                    electrode := electrode a |}, row)
      else dict_get k (nodes NWN).
Proof.
  unfold set_midpoint.
  destruct (dict_get n (nodes NWN)) as [[a row] |] eqn:Hn; [| discriminate].
  destruct (line a) as [l |] eqn:Hl; [| discriminate].
  intros E; inversion E; subst; clear E. exists a, row. split; [reflexivity |].
  intros k. simpl. destruct (eq_dec k n) as [-> | Hk].
  - rewrite dict_get_set_same, Hl. reflexivity.
  - apply dict_get_set_other; exact Hk.
Qed.

Lemma adj_symmetric_set_midpoint n NWN NWN' :
  set_midpoint n NWN = Ok NWN' -> adj_symmetric NWN -> adj_symmetric NWN'.
Proof.
  intros Hset Hsym.
  destruct (@nodes_set_midpoint n NWN NWN' Hset) as (a & row & Hn & Hk).
  assert (E : forall u v, get_edge_data u v NWN' = get_edge_data u v NWN).
  { intros u v. unfold get_edge_data. rewrite Hk.
    destruct (eq_dec u n) as [-> | Hu]; [rewrite Hn |]; reflexivity. }
  intros u v. rewrite !E. apply Hsym.
Qed.
End GraphFacts.

(** ** The electrode list *)

Lemma dict_mem_node_attr {ext : Extern} k (NWN : Graph) :
  dict_mem k (nodes NWN) =
  match node_attr k NWN with Some _ => true | None => false end.
Proof.
  unfold dict_mem, node_attr. destruct (dict_get k (nodes NWN)); reflexivity.
Qed.

Lemma node_attr_add_node {ext : Extern} k n attr (NWN : Graph) :
  node_attr k (add_node n attr NWN) =
  if eq_dec k n
  then Some (attr_update (match node_attr n NWN with
                          | Some a => a
                          | None => no_attr
                          end) attr)
  else node_attr k NWN.
Proof.
  unfold node_attr. destruct (eq_dec k n) as [-> | Hk].
  - rewrite nodes_add_node_same.
    destruct (dict_get n (nodes NWN)) as [[a row] |]; reflexivity.
  - rewrite nodes_add_node_other by exact Hk. reflexivity.
Qed.

Lemma node_attr_set_adj {ext : Extern} k u v r (NWN : Graph) :
  node_attr k (set_adj u v r NWN) = node_attr k NWN.
Proof.
  unfold node_attr.
  destruct (dict_get u (nodes NWN)) as [[a row] |] eqn:Hn.
  - rewrite (@nodes_set_adj ext k u v r NWN a row Hn).
    destruct (eq_dec k u) as [-> | Hk]; [rewrite Hn |]; reflexivity.
  - unfold set_adj. rewrite Hn. reflexivity.
Qed.

Lemma node_attr_add_edge {ext : Extern} k r (NWN : Graph) e :
  dict_mem (fst e) (nodes NWN) = true ->
  dict_mem (snd e) (nodes NWN) = true ->
  node_attr k (add_edge r NWN e) = node_attr k NWN.
Proof.
  destruct e as [u v]; simpl. intros Hu Hv. unfold add_edge.
  rewrite Hu, Hv, !node_attr_set_adj. reflexivity.
Qed.

Lemma node_attr_add_edges_from {ext : Extern} es r (NWN : Graph) :
  (forall e, In e es ->
     dict_mem (fst e) (nodes NWN) = true /\ dict_mem (snd e) (nodes NWN) = true) ->
  forall k, node_attr k (add_edges_from es r NWN) = node_attr k NWN.
Proof.
  unfold add_edges_from. revert NWN.
  induction es as [| e es IH]; intros NWN Hes k; simpl; [reflexivity |].
  destruct (Hes e (or_introl eq_refl)) as [Hu Hv].
  rewrite IH.
  - apply node_attr_add_edge; assumption.
  - intros e' He'. rewrite !dict_mem_node_attr, !node_attr_add_edge by assumption.
    rewrite <- !dict_mem_node_attr. apply Hes; simpl; auto.
Qed.

(** A pair whose lines were compared names two nodes of the graph. *)
Lemma cross_present {ext : Extern} (NWN : Graph) i j p :
  cross (nodes_data_line NWN) i j = Some p ->
  dict_mem i (nodes NWN) = true /\ dict_mem j (nodes NWN) = true.
Proof.
  unfold cross, method_call, dict_mem. simpl.
  destruct (dict_get i (nodes NWN)) as [[a row] |]; simpl; [| discriminate].
  destruct (line a); simpl; [| discriminate].
  destruct (dict_get j (nodes NWN)) as [[b row'] |]; simpl; [| discriminate].
  auto.
Qed.

Lemma find_intersects_keys_present {ext : Extern} (NWN : Graph) d :
  find_intersects (nodes_data_line NWN) = Ok d ->
  forall e, In e (dict_keys d) ->
    dict_mem (fst e) (nodes NWN) = true /\ dict_mem (snd e) (nodes NWN) = true.
Proof.
  intros Hrun e He. apply find_intersects_entries in Hrun. subst d.
  unfold dict_keys in He. apply in_map_iff in He. destruct He as ([k v] & <- & Hin).
  apply in_entries in Hin. destruct Hin as (x & _ & -> & Hc). simpl.
  eapply cross_present; eauto.
Qed.

Lemma find_line_intersects_keys_present {ext : Extern} ind (NWN : Graph) d :
  find_line_intersects ind (nodes_data_line NWN) = Ok d ->
  forall e, In e (dict_keys d) ->
    dict_mem (fst e) (nodes NWN) = true /\ dict_mem (snd e) (nodes NWN) = true.
Proof.
  intros Hrun e He. apply find_line_intersects_entries in Hrun. subst d.
  unfold dict_keys in He. apply in_map_iff in He. destruct He as ([k v] & <- & Hin).
  apply in_entries in Hin. destruct Hin as (j & _ & <- & Hc). simpl.
  destruct (ind =? j); [discriminate |].
  apply cross_present in Hc. unfold key_of. destruct (ind <? j); simpl; tauto.
Qed.

Lemma StronglySorted_snoc (l : list Z) (y : Z) :
  StronglySorted Z.lt l -> (forall x, In x l -> x < y) ->
  StronglySorted Z.lt (l ++ [y]).
Proof.
  induction l as [| x l IH]; simpl; intros Hs Hy.
  - repeat constructor.
  - inversion Hs as [| ? ? Hs' Hall]; subst. constructor.
    + apply IH; auto.
    + rewrite Forall_forall in *. intros z Hz. apply in_app_iff in Hz.
      destruct Hz as [Hz | [<- | []]]; auto.
Qed.

Lemma is_electrode_ext {ext : Extern} (NWN NWN' : Graph) :
  (forall k, node_attr k NWN' = node_attr k NWN) ->
  forall k, is_electrode k NWN' <-> is_electrode k NWN.
Proof.
  intros E k. unfold is_electrode. rewrite E. tauto.
Qed.

(** What [create_NWN] leaves: wires from 0 to [wire_num], none of them an
    electrode, and no electrode listed. *)
Lemma add_random_wire_nodes {ext : Extern} i st st' :
  add_random_wire i st = Ok st' ->
  forall k a, node_attr k (fst st') = Some a ->
    (k = i /\ electrode a = Some false) \/ node_attr k (fst st) = Some a.
Proof.
  destruct st as [NWN rng]. unfold add_random_wire.
  destruct (create_line _ _ _ _ _ rng) as [[l rng'] | x]; [| discriminate].
  cbn [bind].
  destruct (set_midpoint i _) as [NWN2 |] eqn:Hset; simpl; [| discriminate].
  intros E; inversion E; subst; clear E. simpl. intros k a Hk.
  destruct (nodes_set_midpoint _ _ Hset) as (a1 & row & Hn & Hget).
  unfold node_attr in Hk. rewrite Hget in Hk.
  assert (H1 : node_attr i (add_node i {| line := Some l; midpoint := None;
                                          electrode := Some false |} NWN) = Some a1)
    by (unfold node_attr; rewrite Hn; reflexivity).
  rewrite node_attr_add_node in H1.
  destruct (eq_dec k i) as [-> | Hne].
  - left. split; [reflexivity |].
    destruct (eq_dec i i); [| congruence].
    inversion H1; subst. inversion Hk; subst. reflexivity.
  - right. rewrite nodes_add_node_other in Hk by exact Hne. exact Hk.
Qed.

Lemma add_random_wire_symmetric {ext : Extern} i st st' :
  add_random_wire i st = Ok st' ->
  adj_symmetric (fst st) -> adj_symmetric (fst st').
Proof.
  destruct st as [NWN rng]. unfold add_random_wire.
  destruct (create_line _ _ _ _ _ rng) as [[l rng'] | x]; [| discriminate].
  cbn [bind].
  destruct (set_midpoint i _) as [NWN2 |] eqn:Hset; simpl; [| discriminate].
  intros E; inversion E; subst; clear E. simpl. intros Hsym.
  eapply adj_symmetric_set_midpoint; [exact Hset |].
  apply adj_symmetric_add_node, Hsym.
Qed.

Lemma create_NWN_invariant {ext : Extern} wl w dn seed resistance (NWN : Graph) :
  create_NWN wl w dn seed resistance = Ok NWN ->
  wires_below (wire_num NWN) NWN /\ electrodes_sorted NWN /\ adj_symmetric NWN.
Proof.
  intros Hrun.
  destruct (create_NWN_steps _ _ _ _ _ Hrun)
    as (n & dens & rng0 & st & d & jd & _ & _ & _ & Hst & Hd & ->).
  pose proof (graph_attrs_add_random_wires _ _ Hst) as Hattrs. simpl in Hattrs.
  assert (Hinv : (forall k a, node_attr k (fst st) = Some a ->
                    In k (range n) /\ electrode a <> Some true) /\
                 adj_symmetric (fst st)).
  { apply (for_each_invariant
             (fun t => (forall k a, node_attr k (fst t) = Some a ->
                          In k (range n) /\ electrode a <> Some true) /\
                       adj_symmetric (fst t)) _ _ _ (r := st)) in Hst; auto.
    - split; [intros k a Hk; discriminate Hk | intros u v; reflexivity].
    - intros i s1 s2 Hi [Hnodes Hsym] Hb. split.
      + intros k a Hk.
        destruct (add_random_wire_nodes _ _ Hb _ Hk) as [[-> He] | Hold].
        * split; [exact Hi | congruence].
        * apply Hnodes; exact Hold.
      + eapply add_random_wire_symmetric; eauto. }
  destruct Hinv as [Hnodes Hsym].
  pose proof (node_attr_add_edges_from (dict_keys d) resistance (fst st)
                (find_intersects_keys_present _ Hd)) as Hsame.
  set (G := add_edges_from (dict_keys d) resistance (fst st)) in *.
  assert (Hw : wire_num G = n).
  { change (wire_num (graph_attrs G) = n). unfold G.
    rewrite graph_attrs_add_edges_from, Hattrs. reflexivity. }
  assert (Hel : electrode_list G = []).
  { change (electrode_list (graph_attrs G) = []). unfold G.
    rewrite graph_attrs_add_edges_from, Hattrs. reflexivity. }
  split; [| split].
  - intros k Hk. simpl in *. rewrite Hw.
    change (dict_mem k (nodes G) = true) in Hk.
    rewrite dict_mem_node_attr, Hsame in Hk.
    destruct (node_attr k (fst st)) as [a |] eqn:Ha; [| discriminate].
    apply Hnodes in Ha. destruct Ha as [Hr _]. apply in_range in Hr. lia.
  - split; simpl; rewrite Hel; [constructor |].
    intros k. split; [intros [] |].
    intros (a & Ha & He).
    change (node_attr k G = Some a) in Ha. rewrite Hsame in Ha.
    apply Hnodes in Ha. tauto.
  - apply adj_symmetric_nodes with (NWN := G); [reflexivity |].
    apply adj_symmetric_add_edges_from, Hsym.
Qed.

(** One wire more: a new node, listed when it is an electrode. *)
Lemma add_one_wire_spec {ext : Extern} ind l e (NWN NWN' : Graph) :
  dict_mem ind (nodes NWN) = false ->
  add_one_wire ind l e NWN = (NWN', Ok tt) ->
  (forall k, node_attr k NWN' =
     if eq_dec k ind
     then Some {| line := Some l; midpoint := Some (centroid l);
                  electrode := Some e |}
     else node_attr k NWN) /\
  electrode_list NWN' = electrode_list NWN ++ (if e then [ind] else []) /\
  wire_num NWN' = wire_num NWN /\
  (adj_symmetric NWN -> adj_symmetric NWN').
Proof.
  intros Hfresh. unfold add_one_wire.
  set (attr := {| line := Some l; midpoint := Some (centroid l);
                  electrode := Some e |}).
  set (NWN1 := add_node ind attr NWN).
  set (NWN2 := if e then set_electrode_list (electrode_list NWN1 ++ [ind]) NWN1
               else NWN1).
  assert (Hn2 : nodes NWN2 = nodes NWN1) by (unfold NWN2; destruct e; reflexivity).
  destruct (find_line_intersects ind (nodes_data_line NWN2)) as [d |] eqn:Hd;
    [| intros E; inversion E].
  set (NWN3 := add_edges_from (dict_keys d) (junction_resistance NWN2) NWN2).
  destruct (loc NWN3) as [old |]; intros E; inversion E; subst; clear E.
  pose proof (node_attr_add_edges_from (dict_keys d) (junction_resistance NWN2)
                NWN2 (find_line_intersects_keys_present _ _ Hd)) as Hsame.
  fold NWN3 in Hsame.
  assert (Hattrs : graph_attrs NWN3 = graph_attrs NWN2)
    by apply graph_attrs_add_edges_from.
  assert (Hattrs1 : graph_attrs NWN1 = graph_attrs NWN)
    by apply graph_attrs_add_node.
  split; [| split; [| split]].
  - intros k. change (node_attr k NWN3 = if eq_dec k ind then Some attr
                                         else node_attr k NWN).
    rewrite Hsame. unfold node_attr at 1. rewrite Hn2.
    fold (node_attr k NWN1). unfold NWN1. rewrite node_attr_add_node.
    destruct (eq_dec k ind) as [-> | Hk]; [| reflexivity].
    rewrite dict_mem_node_attr in Hfresh.
    destruct (node_attr ind NWN); [discriminate | reflexivity].
  - change (electrode_list (graph_attrs NWN3) =
            electrode_list NWN ++ (if e then [ind] else [])).
    rewrite Hattrs. unfold NWN2. destruct e; simpl.
    + change (electrode_list (graph_attrs NWN1) ++ [ind] = electrode_list NWN ++ [ind]).
      rewrite Hattrs1. reflexivity.
    + change (electrode_list (graph_attrs NWN1) = electrode_list NWN ++ []).
      rewrite Hattrs1, app_nil_r. reflexivity.
  - change (wire_num (graph_attrs NWN3) = wire_num NWN).
    rewrite Hattrs. unfold NWN2. destruct e; simpl.
    + change (wire_num (graph_attrs NWN1) = wire_num NWN).
      rewrite Hattrs1. reflexivity.
    + change (wire_num (graph_attrs NWN1) = wire_num NWN).
      rewrite Hattrs1. reflexivity.
  - intros Hsym. apply adj_symmetric_nodes with (NWN := NWN3); [reflexivity |].
    apply adj_symmetric_add_edges_from.
    apply adj_symmetric_nodes with (NWN := NWN1); [exact Hn2 |].
    apply adj_symmetric_add_node, Hsym.
Qed.

Lemma add_one_wire_invariant {ext : Extern} ind l e (NWN NWN' : Graph) :
  wires_below ind NWN -> electrodes_sorted NWN -> adj_symmetric NWN ->
  add_one_wire ind l e NWN = (NWN', Ok tt) ->
  wires_below (ind + 1) NWN' /\ electrodes_sorted NWN' /\ adj_symmetric NWN' /\
  wire_num NWN' = wire_num NWN.
Proof.
  intros Hbelow [Hsorted Hlist] Hsym Hrun.
  assert (Hfresh : dict_mem ind (nodes NWN) = false).
  { destruct (dict_mem ind (nodes NWN)) eqn:Hm; [| reflexivity].
    apply Hbelow in Hm. lia. }
  destruct (@add_one_wire_spec ext ind l e NWN NWN' Hfresh Hrun)
    as (Hattr & Hel & Hwn & Hsym').
  assert (Hold : forall k, In k (electrode_list NWN) -> k < ind).
  { intros k Hk. apply Hlist in Hk. destruct Hk as (a & Ha & _).
    apply Hbelow. rewrite dict_mem_node_attr, Ha. reflexivity. }
  assert (Hnot : ~ is_electrode ind NWN).
  { intros (a & Ha & _). rewrite dict_mem_node_attr, Ha in Hfresh. discriminate. }
  split; [| split; [| split]]; auto.
  - intros k Hk. rewrite dict_mem_node_attr, Hattr in Hk.
    destruct (eq_dec k ind) as [-> | Hne]; [lia |].
    rewrite <- dict_mem_node_attr in Hk. apply Hbelow in Hk. lia.
  - split.
    + rewrite Hel. destruct e; [| rewrite app_nil_r; exact Hsorted].
      apply StronglySorted_snoc; assumption.
    + intros k. rewrite Hel, in_app_iff, Hlist. unfold is_electrode at 2.
      rewrite Hattr. destruct (eq_dec k ind) as [-> | Hne].
      * split.
        -- intros [Hk | Hk]; [contradiction |].
           destruct e; [| destruct Hk]. eexists; split; reflexivity.
        -- intros (a & Ha & He). inversion Ha; subst. simpl in He.
           inversion He; subst. right; simpl; auto.
      * split.
        -- intros [Hk | Hk]; [exact Hk |].
           destruct e; [destruct Hk as [<- | []]; congruence | destruct Hk].
        -- intros Hk; left; exact Hk.
Qed.

Lemma add_wires_loop_invariant {ext : Extern} lines :
  forall ind electrodes (NWN NWN' : Graph),
    wires_below ind NWN -> electrodes_sorted NWN -> adj_symmetric NWN ->
    add_wires_loop ind lines electrodes NWN = (NWN', Ok tt) ->
    exists ind', ind <= ind' <= ind + Z.of_nat (length lines) /\
      wires_below ind' NWN' /\ electrodes_sorted NWN' /\ adj_symmetric NWN' /\
      wire_num NWN' = wire_num NWN.
Proof.
  induction lines as [| l lines IH]; intros ind electrodes NWN NWN' Hb Hs Hsym Hrun.
  - simpl in Hrun. inversion Hrun; subst. exists ind.
    split; [simpl; lia |]. repeat (split; [assumption |]). reflexivity.
  - destruct electrodes as [| e electrodes].
    + simpl in Hrun. inversion Hrun; subst. exists ind.
      split; [simpl length; lia |]. repeat (split; [assumption |]). reflexivity.
    + simpl in Hrun.
      destruct (add_one_wire ind l e NWN) as [NWN1 [[] | x]] eqn:Hone;
        [| inversion Hrun].
      destruct (@add_one_wire_invariant ext ind l e NWN NWN1 Hb Hs Hsym Hone)
        as (Hb1 & Hs1 & Hsym1 & Hw1).
      destruct (IH _ _ _ _ Hb1 Hs1 Hsym1 Hrun) as (ind' & Hi & Hb' & Hs' & Hsym' & Hw').
      exists ind'. split; [simpl length; lia |].
      repeat (split; [assumption |]). congruence.
Qed.

Lemma add_wires_invariant {ext : Extern} (NWN NWN' : Graph) lines electrodes :
  wires_below (wire_num NWN) NWN -> electrodes_sorted NWN -> adj_symmetric NWN ->
  add_wires NWN lines electrodes = (NWN', Ok tt) ->
  wires_below (wire_num NWN') NWN' /\ electrodes_sorted NWN' /\ adj_symmetric NWN'.
Proof.
  intros Hb Hs Hsym. unfold add_wires.
  destruct (negb _); [intros E; inversion E |].
  set (NWN1 := set_counts _ _ NWN).
  destruct (add_wires_loop (wire_num NWN) lines electrodes NWN1)
    as [NWN2 [[] | x]] eqn:Hloop; intros E; inversion E; subst; clear E.
  destruct (@add_wires_loop_invariant ext lines (wire_num NWN) electrodes
              NWN1 NWN2 Hb Hs Hsym Hloop)
    as (ind' & Hi & Hb' & Hs' & Hsym' & Hw').
  split; [| split]; auto.
  intros k Hk. simpl in *. apply Hb' in Hk. rewrite Hw'. simpl. lia.
Qed.

(** What holds of every network the module builds. *)
Lemma reachable_invariant {ext : Extern} (NWN : Graph) :
  reachable NWN ->
  wires_below (wire_num NWN) NWN /\ electrodes_sorted NWN /\ adj_symmetric NWN.
Proof.
  induction 1 as [wl w dn seed resistance NWN Hc | NWN lines els Hr IH Ha].
  - eapply create_NWN_invariant; eauto.
  - destruct IH as (Hb & Hs & Hsym).
    destruct (add_wires NWN lines els) as [NWN' out] eqn:Hadd.
    simpl in Ha |- *. subst out. eapply add_wires_invariant; eauto.
Qed.

(** C7: in a network made by [create_NWN] and any number of successful
    calls of [add_wires], [electrode_list] is increasing and holds exactly
    the indices of the wires whose electrode flag is true: it is the sorted
    list of the electrodes. *)
Theorem electrode_list_sorted {ext : Extern} (NWN : Graph) :
  reachable NWN ->
  StronglySorted Z.lt (electrode_list NWN) /\
  forall k, In k (electrode_list NWN) <-> is_electrode k NWN.
Proof.
  intros Hr. exact (proj1 (proj2 (@reachable_invariant ext NWN Hr))).
Qed.

Lemma bridge_reachable : reachable (fst Sample.bridge).
Proof.
  change (reachable
            (fst (add_wires (Sample.empty_graph 10)
                    [Sample.upright_left; Sample.bar; Sample.upright_right]
                    [true; false; true]))).
  apply reach_add.
  - apply reach_create
      with (wire_length := 7%float) (width := 2%float) (density := 0%float)
           (seed := None) (resistance := 10%float).
    reflexivity.
  - vm_compute. reflexivity.
Defined.

Lemma electrode_list_sorted_witness :
  reachable (fst Sample.bridge) /\
  electrode_list (fst Sample.bridge) = [0; 2] /\
  StronglySorted Z.lt (electrode_list (fst Sample.bridge)) /\
  (forall k, In k (electrode_list (fst Sample.bridge)) <->
             is_electrode k (fst Sample.bridge)).
Proof.
  split; [exact bridge_reachable |].
  split; [vm_compute; reflexivity |].
  exact (@electrode_list_sorted Sample.ext (fst Sample.bridge) bridge_reachable).
Defined.

Lemma conductance_matrix_symmetric_witness :
  exists G,
    conductance_matrix (fst Sample.bridge) 2 = Ok G /\
    dok_get (0, 1) G = dok_get (1, 0) G.
Proof.
  destruct (is_ok_returns (conductance_matrix (fst Sample.bridge) 2))
    as [G E]; [vm_compute; reflexivity |].
  exists G. split; [exact E |].
  assert (Hn : wire_num (fst Sample.bridge) = 3) by (vm_compute; reflexivity).
  apply (@conductance_matrix_symmetric Sample.ext (fst Sample.bridge) 2 G
           (proj2 (proj2 (@reachable_invariant Sample.ext (fst Sample.bridge)
                            bridge_reachable))) E);
    rewrite ?Hn; lia.
Defined.

(** ** The system the solver would be given

    [solve_network] never gets past its call of [conductance_matrix]; with
    the matrix of [conductance_matrix NWN drain_node] the lines after the
    call make a system whose row of the drain reads [x_drain = 0] and whose
    last row reads [x_source = voltage]. *)

Lemma dict_get_app {K V : Type} `{EqDec K} (k : K) (d1 d2 : dict K V) :
  dict_get k (d1 ++ d2) =
  match dict_get k d1 with
  | Some v => Some v
  | None => dict_get k d2
  end.
Proof.
  induction d1 as [| [k' v'] d1 IH]; simpl; [reflexivity |].
  destruct (eq_dec k k'); [reflexivity | exact IH].
Qed.

Lemma dict_get_dok_set_other k k' x (G : dok) :
  k <> k' -> dict_get k (dok_set k' x G) = dict_get k G.
Proof.
  intros N. unfold dok_set. destruct (PrimFloat.is_zero x).
  - apply dict_get_del_other; exact N.
  - apply dict_get_set_other; exact N.
Qed.

Lemma conductance_cell_keeps {ext : Extern} (NWN : Graph) drain_node i j G G' k :
  conductance_cell NWN drain_node i j G = Ok G' ->
  k <> (i, j) -> dict_get k G' = dict_get k G.
Proof.
  unfold conductance_cell. intros Hrun Hk.
  destruct (i =? j).
  - destruct (i =? drain_node).
    + inversion Hrun; subst. apply dict_get_dok_set_other; exact Hk.
    + destruct (edges_of i NWN) as [es |]; simpl in Hrun; [| discriminate].
      destruct (conductances es NWN) as [gs |]; simpl in Hrun; [| discriminate].
      inversion Hrun; subst. rewrite !dict_get_dok_set_other by exact Hk. reflexivity.
  - destruct (negb (i =? drain_node)); [| inversion Hrun; reflexivity].
    destruct (get_edge_data i j NWN) as [r |]; [| inversion Hrun; reflexivity].
    destruct (py_truediv (-1) r) as [g |]; simpl in Hrun; [| discriminate].
    inversion Hrun; subst. apply dict_get_dok_set_other; exact Hk.
Qed.

(** The matrix has no entry outside its shape. *)
Lemma conductance_matrix_shape {ext : Extern} (NWN : Graph) drain_node G i j :
  conductance_matrix NWN drain_node = Ok G ->
  ~ (0 <= i < wire_num NWN /\ 0 <= j < wire_num NWN) ->
  dict_get (i, j) G = None.
Proof.
  rewrite conductance_matrix_flat. intros Hrun Hout.
  destruct (dok_matrix _ _) as [G0 |] eqn:H0; simpl in Hrun; [| discriminate].
  apply dok_matrix_returns in H0. destruct H0 as [-> _].
  assert (Hframe : forall (x : Z * Z) (s s' : dok) (y : Z * Z),
             conductance_cell NWN drain_node (fst x) (snd x) s = Ok s' ->
             y <> x -> dict_get y s' = dict_get y s).
  { intros [a b] s s' y Hb Hy. eapply conductance_cell_keeps; eauto. }
  rewrite (@for_each_frame (Z * Z) dok (option float)
             (fun ij G => dict_get ij G)
             (fun ij => conductance_cell NWN drain_node (fst ij) (snd ij))
             Hframe _ [] G (i, j) Hrun); [reflexivity |].
  intros Hin. apply in_prod_iff in Hin. rewrite !in_range in Hin. tauto.
Qed.

Lemma dok_matrix_ok m n : 0 <= m -> 0 <= n -> dok_matrix m n = Ok [].
Proof.
  intros Hm Hn. unfold dok_matrix.
  destruct (Z.ltb_spec m 0); [lia |]. destruct (Z.ltb_spec n 0); [lia |].
  reflexivity.
Qed.

Lemma column_set_inside n i x B :
  0 <= i < n -> column_set n i x B = Ok (dok_set (i, 0) x B).
Proof.
  intros Hi. unfold column_set.
  destruct (Z.ltb_spec i 0); [lia |].
  destruct (Z.leb_spec 0 i); [| lia]. destruct (Z.ltb_spec i n); [| lia].
  reflexivity.
Qed.

Lemma column_set_last n x B :
  0 <= n -> column_set (n + 1) (-1) x B = Ok (dok_set (n, 0) x B).
Proof.
  intros Hn. unfold column_set.
  change (-1 <? 0) with true. cbv iota.
  replace (-1 + (n + 1)) with n by lia.
  destruct (Z.leb_spec 0 n); [| lia]. destruct (Z.ltb_spec n (n + 1)); [| lia].
  reflexivity.
Qed.

(** X17: the lines of [solve_network] after its call of
    [conductance_matrix], run on the matrix [conductance_matrix NWN drain_node]
    for a source and a drain that are two different wires: in the system
    they assemble the row of the drain has 1 at the drain and 0 elsewhere
    with right-hand side 0 (the drain is grounded), and the last row has 1
    at the source and 0 elsewhere with the voltage as right-hand side (the
    source is at the voltage). *)
Lemma augmented_system_rows {ext : Extern} (NWN : Graph)
    (source_node drain_node : Z) (voltage : float) (G A z : dok) :
  conductance_matrix NWN drain_node = Ok G ->
  0 <= drain_node < wire_num NWN ->
  0 <= source_node < wire_num NWN ->
  source_node <> drain_node ->
  augmented_system (wire_num NWN) G source_node voltage = Ok (A, z) ->
  (forall j, 0 <= j <= wire_num NWN ->
     dok_get (drain_node, j) A = if j =? drain_node then 1%float else 0%float) /\
  dok_get (drain_node, 0) z = 0%float /\
  (forall j, 0 <= j <= wire_num NWN ->
     dok_get (wire_num NWN, j) A = if j =? source_node then 1%float else 0%float) /\
  dok_get (wire_num NWN, 0) z = stored voltage.
Proof.
  intros Hrun Hd Hs Hsd. unfold augmented_system.
  set (n := wire_num NWN) in *.
  rewrite !dok_matrix_ok by lia. cbn [bind].
  rewrite column_set_inside by lia. cbn [bind].
  rewrite column_set_last by lia. cbn [bind].
  intros E; injection E as <- <-.
  assert (HB : dok_set (source_node, 0) (-1) [] = [((source_node, 0), (-1)%float)])
    by reflexivity.
  rewrite HB. unfold bmat, neg_transpose. simpl.
  assert (Hget : forall i j,
             dok_get (i, j)
               (G ++ [((source_node, n), (-1)%float);
                      ((n, source_node), (- (-1))%float)]) =
             match dict_get (i, j) G with
             | Some v => v
             | None =>
                 if eq_dec (i, j) (source_node, n) then (-1)%float
                 else if eq_dec (i, j) (n, source_node) then 1%float
                 else 0%float
             end).
  { intros i j. unfold dok_get. rewrite dict_get_app.
    destruct (dict_get (i, j) G); [reflexivity |]. simpl.
    destruct (eq_dec (i, j) (source_node, n)); [reflexivity |].
    destruct (eq_dec (i, j) (n, source_node)); reflexivity. }
  split; [| split; [| split]].
  - intros j Hj. rewrite Hget.
    destruct (Z.eq_dec j n) as [-> | Hjn].
    + rewrite (conductance_matrix_shape _ _ Hrun) by (fold n; lia).
      destruct (eq_dec (drain_node, n) (source_node, n)) as [E | _];
        [inversion E; congruence |].
      destruct (eq_dec (drain_node, n) (n, source_node)) as [E | _];
        [inversion E; lia |].
      destruct (Z.eqb_spec n drain_node); [lia | reflexivity].
    + assert (Hj' : 0 <= j < n) by lia.
      destruct (conductance_matrix_cells _ _ Hrun Hd Hj')
        as (G1 & G2 & Hb & H0 & Hr).
      fold (dok_get (drain_node, j) G) in Hr |- *.
      assert (Hval : dok_get (drain_node, j) G =
                     if j =? drain_node then 1%float else 0%float).
      { rewrite Hr. destruct (Z.eqb_spec j drain_node) as [-> | Hne].
        - eapply cell_drain; eauto.
        - unfold conductance_cell in Hb.
          destruct (Z.eqb_spec drain_node j); [congruence |].
          rewrite Z.eqb_refl in Hb. simpl in Hb. inversion Hb; subst. exact H0. }
      unfold dok_get in Hval.
      destruct (dict_get (drain_node, j) G) as [v |] eqn:Hv; [exact Hval |].
      destruct (eq_dec (drain_node, j) (source_node, n)) as [E | _];
        [inversion E; congruence |].
      destruct (eq_dec (drain_node, j) (n, source_node)) as [E | _];
        [inversion E; lia |].
      exact Hval.
  - unfold dok_get, dok_set. destruct (PrimFloat.is_zero voltage); simpl.
    + reflexivity.
    + destruct (eq_dec (drain_node, 0) (n, 0)) as [E | _];
        [inversion E; lia | reflexivity].
  - intros j Hj. rewrite Hget.
    rewrite (conductance_matrix_shape _ _ Hrun) by (fold n; lia).
    destruct (eq_dec (n, j) (source_node, n)) as [E | _]; [inversion E; lia |].
    destruct (eq_dec (n, j) (n, source_node)) as [E | N].
    + inversion E; subst. rewrite Z.eqb_refl. reflexivity.
    + destruct (Z.eqb_spec j source_node); [congruence | reflexivity].
  - apply dok_get_set_same.
Qed.

(** ** The junction keys of a network *)

Lemma dict_update_keys {K V : Type} `{EqDec K} (d other : dict K V) k :
  In k (dict_keys (dict_update d other)) ->
  In k (dict_keys d) \/ In k (dict_keys other).
Proof.
  unfold dict_update. revert d.
  induction other as [| [k' v'] other IH]; intros d Hin; simpl in *; [auto |].
  apply IH in Hin. destruct Hin as [Hin | Hin]; [| auto].
  apply dict_keys_set in Hin. destruct Hin as [-> | Hin]; auto.
Qed.

Lemma add_edges_from_edges {ext : Extern} es r (NWN : Graph) x y v :
  get_edge_data x y (add_edges_from es r NWN) = Some v ->
  In (x, y) es \/ In (y, x) es \/ get_edge_data x y NWN = Some v.
Proof.
  unfold add_edges_from. revert NWN.
  induction es as [| [a b] es IH]; intros NWN Hget; cbn [fold_left] in Hget;
    [auto |].
  apply IH in Hget. cbn [In].
  destruct Hget as [Hin | [Hin | Hget]]; [auto | auto |].
  rewrite get_edge_data_add_edge in Hget.
  destruct (eq_dec (x, y) (b, a)) as [E | _];
    [inversion E; subst; right; left; auto |].
  destruct (eq_dec (x, y) (a, b)) as [E | _];
    [inversion E; subst; left; auto |].
  auto.
Qed.

Lemma junctions_ordered_add_edges {ext : Extern} es r (NWN NWN' : Graph) :
  (forall i j, In (i, j) es -> i < j) ->
  (forall x y, get_edge_data x y NWN' = get_edge_data x y (add_edges_from es r NWN)) ->
  (forall i j v, get_edge_data i j NWN = Some v -> i <> j) ->
  forall i j v, get_edge_data i j NWN' = Some v -> i <> j.
Proof.
  intros Hes Hsame Hold i j v Hget. rewrite Hsame in Hget.
  apply add_edges_from_edges in Hget.
  destruct Hget as [Hin | [Hin | Hget]].
  - apply Hes in Hin. lia.
  - apply Hes in Hin. lia.
  - eapply Hold; eauto.
Qed.

Lemma create_NWN_junctions {ext : Extern} wl w dn seed resistance (NWN : Graph) :
  create_NWN wl w dn seed resistance = Ok NWN -> junctions_ordered NWN.
Proof.
  intros Hrun.
  destruct (create_NWN_steps _ _ _ _ _ Hrun)
    as (n & dens & rng0 & st & d & jd & _ & _ & _ & Hst & Hd & ->).
  destruct (find_intersects_keys _ Hd) as [_ Hlt].
  split.
  - simpl. intros d' i j E Hin. inversion E; subst. eauto.
  - refine (@junctions_ordered_add_edges ext (dict_keys d) resistance (fst st) _
              Hlt (fun _ _ => eq_refl) _).
    refine (@for_each_invariant _ _
              (fun t => forall i j v, get_edge_data i j (fst t) = Some v -> i <> j)
              _ _ _ st _ _ Hst).
    + intros i j v Hget. discriminate Hget.
    + intros k [G rng] [G' rng'] _ Hold Hb i j v Hget. simpl in *.
      unfold add_random_wire in Hb.
      destruct (create_line _ _ _ _ _ rng) as [[l rng1] | x]; [| discriminate Hb].
      cbn [bind] in Hb.
      destruct (set_midpoint k _) as [G2 |] eqn:Hset; simpl in Hb; [| discriminate].
      inversion Hb; subst; clear Hb.
      destruct (nodes_set_midpoint _ _ Hset) as (a & row & Hn & Hk).
      unfold get_edge_data in Hget. rewrite Hk in Hget.
      apply (Hold i j v). rewrite <- (get_edge_data_add_node i j k
                {| line := Some l; midpoint := None; electrode := Some false |} G).
      unfold get_edge_data.
      destruct (eq_dec i k) as [-> | Hne]; [rewrite Hn |]; exact Hget.
Qed.

Lemma add_one_wire_junctions {ext : Extern} ind l e (NWN NWN' : Graph) :
  junctions_ordered NWN ->
  add_one_wire ind l e NWN = (NWN', Ok tt) ->
  junctions_ordered NWN'.
Proof.
  intros [Hloc Hedges]. unfold add_one_wire.
  set (attr := {| line := Some l; midpoint := Some (centroid l);
                  electrode := Some e |}).
  set (NWN1 := add_node ind attr NWN).
  set (NWN2 := if e then set_electrode_list (electrode_list NWN1 ++ [ind]) NWN1
               else NWN1).
  assert (Hn2 : nodes NWN2 = nodes NWN1) by (unfold NWN2; destruct e; reflexivity).
  assert (Hl2 : loc NWN2 = loc NWN).
  { unfold NWN2. destruct e; simpl;
      change (loc (graph_attrs NWN1) = loc NWN); unfold NWN1;
      rewrite graph_attrs_add_node; reflexivity. }
  destruct (find_line_intersects ind (nodes_data_line NWN2)) as [d |] eqn:Hd;
    [| intros E; inversion E].
  set (NWN3 := add_edges_from (dict_keys d) (junction_resistance NWN2) NWN2).
  assert (Hl3 : loc NWN3 = loc NWN).
  { change (loc (graph_attrs NWN3) = loc NWN). unfold NWN3.
    rewrite graph_attrs_add_edges_from. exact Hl2. }
  destruct (find_line_intersects_keys _ _ Hd) as [_ Hlt].
  destruct (loc NWN3) as [old |] eqn:Hold; intros E; inversion E; subst; clear E.
  split.
  - simpl. intros d' i j E Hin. inversion E; subst; clear E.
    apply dict_update_keys in Hin. destruct Hin as [Hin | Hin].
    + eapply Hloc; eauto.
    + apply Hlt in Hin. tauto.
  - refine (@junctions_ordered_add_edges ext (dict_keys d)
              (junction_resistance NWN2) NWN2 _ _ (fun _ _ => eq_refl) _).
    + intros i j Hin. apply Hlt in Hin. tauto.
    + intros i j v Hget. apply (Hedges i j v).
      unfold get_edge_data in Hget. rewrite Hn2 in Hget.
      fold (get_edge_data i j NWN1) in Hget. unfold NWN1 in Hget.
      rewrite get_edge_data_add_node in Hget. exact Hget.
Qed.

Lemma add_wires_loop_junctions {ext : Extern} lines :
  forall ind electrodes (NWN NWN' : Graph),
    junctions_ordered NWN ->
    add_wires_loop ind lines electrodes NWN = (NWN', Ok tt) ->
    junctions_ordered NWN'.
Proof.
  induction lines as [| l lines IH]; intros ind electrodes NWN NWN' Hj Hrun.
  - simpl in Hrun. inversion Hrun; subst. exact Hj.
  - destruct electrodes as [| e electrodes].
    + simpl in Hrun. inversion Hrun; subst. exact Hj.
    + simpl in Hrun.
      destruct (add_one_wire ind l e NWN) as [NWN1 [[] | x]] eqn:Hone;
        [| inversion Hrun].
      eapply IH; [| exact Hrun]. eapply add_one_wire_junctions; eauto.
Qed.

Lemma reachable_junctions {ext : Extern} (NWN : Graph) :
  reachable NWN -> junctions_ordered NWN.
Proof.
  induction 1 as [wl w dn seed resistance NWN Hc | NWN lines els Hr IH Ha].
  - eapply create_NWN_junctions; eauto.
  - unfold add_wires in *.
    destruct (negb _); [discriminate Ha |].
    destruct (add_wires_loop _ _ _ _) as [NWN2 [[] | x]] eqn:Hloop;
      [| discriminate Ha].
    simpl. apply add_wires_loop_junctions in Hloop; [exact Hloop |].
    exact IH.
Qed.

(** C6: every key of [find_intersects] and of [find_line_intersects] is a
    pair [(i, j)] with [i < j]; the result has one entry for each pair whose
    lines meet, in the order of the loop, so no key comes twice; a key of
    [find_line_intersects ind] is [(min ind k, max ind k)] for another line
    [k], whichever of the two indices is the designated one; and so every
    junction key of a network the module builds has [i < j], and no
    junction joins a wire to itself. *)
Theorem intersect_keys_canonical {ext : Extern} :
  (forall (lines : Lines) d, find_intersects lines = Ok d ->
     d = entries (fun ij => ij) (fun ij => cross lines (fst ij) (snd ij))
           (triu_indices (lines_len lines)) /\
     NoDup (dict_keys d) /\
     forall i j, In (i, j) (dict_keys d) -> i < j) /\
  (forall (lines : Lines) ind d, find_line_intersects ind lines = Ok d ->
     d = entries (key_of ind)
           (fun j => if ind =? j then None else cross lines ind j)
           (range (lines_len lines)) /\
     NoDup (dict_keys d) /\
     forall i j, In (i, j) (dict_keys d) ->
       i < j /\ exists k, k <> ind /\ (i, j) = (Z.min ind k, Z.max ind k)) /\
  (forall NWN : Graph, reachable NWN -> junctions_ordered NWN).
Proof.
  split; [| split].
  - intros lines d Hrun. split; [apply find_intersects_entries; exact Hrun |].
    exact (@find_intersects_keys ext lines d Hrun).
  - intros lines ind d Hrun.
    split; [apply find_line_intersects_entries; exact Hrun |].
    exact (@find_line_intersects_keys ext ind lines d Hrun).
  - intros NWN. apply reachable_junctions.
Qed.

Lemma intersect_keys_canonical_witness :
  find_intersects (list_lines (ext := Sample.ext) Sample.diagonals)
    = Ok [((0, 1), (1%float, 1%float))] /\
  NoDup (dict_keys [((0, 1), (1%float, 1%float))]) /\
  (forall i j, In (i, j) (dict_keys [((0, 1), (1%float, 1%float))]) -> i < j) /\
  junctions_ordered (fst Sample.bridge).
Proof.
  assert (E : find_intersects (list_lines (ext := Sample.ext) Sample.diagonals)
              = Ok [((0, 1), (1%float, 1%float))]) by (vm_compute; reflexivity).
  split; [exact E |].
  destruct (@intersect_keys_canonical Sample.ext) as (Hfi & _ & Hnet).
  destruct (Hfi _ _ E) as (_ & Hnd & Hlt).
  split; [exact Hnd |]. split; [exact Hlt |].
  apply Hnet. exact bridge_reachable.
Defined.

(** * Further properties of the module *)

(** ** More on dictionaries *)

Section DictMore.
Context {K V : Type} `{EqDec K}.
Implicit Types (d : dict K V) (k : K) (v : V).

Lemma dict_mem_in_keys k d : dict_mem k d = true <-> In k (dict_keys d).
Proof.
  rewrite <- dict_get_in_keys. unfold dict_mem.
  destruct (dict_get k d); split; intros; congruence.
Qed.

Lemma dict_keys_set_exact k v d :
  dict_keys (dict_set k v d) =
  if dict_mem k d then dict_keys d else dict_keys d ++ [k].
Proof.
  induction d as [| [k' v'] d IH]; simpl; [reflexivity |].
  unfold dict_mem in *. simpl.
  destruct (eq_dec k k') as [-> | N]; simpl; [reflexivity |].
  rewrite IH. destruct (dict_get k d); reflexivity.
Qed.

Lemma dict_get_entries_none {A : Type} (key : A -> K) (g : A -> option V) xs k :
  ~ In k (map key xs) -> dict_get k (entries key g xs) = None.
Proof.
  intros Hk. destruct (dict_get k (entries key g xs)) eqn:E; [| reflexivity].
  exfalso. apply Hk.
  assert (Hin : In k (dict_keys (entries key g xs)))
    by (apply dict_get_in_keys; congruence).
  rewrite dict_keys_entries in Hin. apply in_map_iff in Hin.
  destruct Hin as (x & <- & Hx). apply filter_In in Hx. apply in_map; tauto.
Qed.

Lemma dict_get_entries {A : Type} (key : A -> K) (g : A -> option V) xs x :
  NoDup (map key xs) -> In x xs -> dict_get (key x) (entries key g xs) = g x.
Proof.
  induction xs as [| y xs IH]; simpl; intros Hnd Hin; [destruct Hin |].
  inversion Hnd as [| ? ? Hy Hnd']; subst.
  rewrite dict_get_app. destruct Hin as [-> | Hin].
  - destruct (g x) as [v |]; simpl.
    + destruct (eq_dec (key x) (key x)); [reflexivity | congruence].
    + apply dict_get_entries_none; exact Hy.
  - assert (Hne : key x <> key y)
      by (intros E; apply Hy; rewrite <- E; apply in_map; exact Hin).
    destruct (g y) as [v |]; simpl.
    + destruct (eq_dec (key x) (key y)); [congruence | auto].
    + auto.
Qed.

Lemma dict_update_keys_iff d other k :
  In k (dict_keys (dict_update d other)) <->
  In k (dict_keys d) \/ In k (dict_keys other).
Proof.
  unfold dict_update. revert d.
  induction other as [| [k' v'] other IH]; intros d; simpl; [tauto |].
  rewrite IH, dict_keys_set. intuition congruence.
Qed.

Lemma length_dict_set k v d :
  length (dict_set k v d) = if dict_mem k d then length d else S (length d).
Proof.
  rewrite <- !(length_map fst). fold (dict_keys (dict_set k v d)) (dict_keys d).
  rewrite dict_keys_set_exact. destruct (dict_mem k d); [reflexivity |].
  rewrite length_app. simpl. lia.
Qed.
End DictMore.

(** ** The intersection index, call by call *)

Lemma for_each_rounds {A S : Type} (xs : list A) (body : A -> S -> result S)
    (s r : S) (x : A) :
  for_each xs body s = Ok r -> In x xs -> exists s1 s2, body x s1 = Ok s2.
Proof.
  revert s. induction xs as [| y xs IH]; intros s Hrun Hin; [destruct Hin |].
  cbn [for_each] in Hrun.
  destruct (body y s) as [s' |] eqn:Hb; simpl in Hrun; [| discriminate].
  destruct Hin as [<- | Hin]; [eauto |]. eapply IH; eauto.
Qed.

Section Calls.
Context {ext : Extern}.
Variable lines : Lines.


Lemma method_call_items {R : Type} (f : LineString -> LineString -> result R)
    i j a b :
  lines_item lines i = Ok (Some a) -> lines_item lines j = Ok (Some b) -> method_call f lines i j = f a b.
Proof.
  unfold method_call. intros Hi Hj.
  rewrite Hi; cbn [bind]. rewrite Hj. reflexivity.
Qed.

Lemma cross_items i j a b :
  lines_item lines i = Ok (Some a) -> lines_item lines j = Ok (Some b) ->
  cross lines i j = match crossing a b with Ok o => o | Raise _ => None end.
Proof.
  intros Hi Hj. unfold cross, crossing.
  rewrite (@method_call_items _ intersects _ _ _ _ Hi Hj),
          (@method_call_items _ intersection _ _ _ _ Hi Hj).
  destruct (intersects a b) as [[|] | e]; simpl; try reflexivity.
  destruct (intersection a b); reflexivity.
Qed.

(** One round of [find_intersects], and one of [find_line_intersects], on
    two places that hold a segment. *)
Lemma find_intersects_call i j a b (out : dict (Z * Z) Geometry) :
  lines_item lines i = Ok (Some a) -> lines_item lines j = Ok (Some b) ->
  (c <- method_call intersects lines i j ;;
   if c : bool then
     p <- method_call intersection lines i j ;;
     Ok (dict_update out [((i, j), p)])
   else Ok out)
  = (o <- crossing a b ;;
     Ok match o with Some p => dict_set (i, j) p out | None => out end).
Proof.
  intros Hi Hj. unfold crossing.
  rewrite (@method_call_items _ intersects _ _ _ _ Hi Hj),
          (@method_call_items _ intersection _ _ _ _ Hi Hj).
  destruct (intersects a b) as [[|] | e]; simpl; try reflexivity.
  destruct (intersection a b); reflexivity.
Qed.

Lemma find_line_intersects_call ind j a b (out : dict (Z * Z) Geometry) :
  lines_item lines ind = Ok (Some a) -> lines_item lines j = Ok (Some b) -> ind <> j ->
  (if ind =? j then Ok out
   else
     c <- method_call intersects lines ind j ;;
     if c : bool then
       if ind <? j then
         p <- method_call intersection lines ind j ;;
         Ok (dict_update out [((ind, j), p)])
       else
         p <- method_call intersection lines ind j ;;
         Ok (dict_update out [((j, ind), p)])
     else Ok out)
  = (o <- crossing a b ;;
     Ok match o with Some p => dict_set (key_of ind j) p out | None => out end).
Proof.
  intros Hi Hj Hne. unfold crossing, key_of.
  destruct (Z.eqb_spec ind j); [contradiction |].
  rewrite (@method_call_items _ intersects _ _ _ _ Hi Hj),
          (@method_call_items _ intersection _ _ _ _ Hi Hj).
  destruct (intersects a b) as [[|] | e]; simpl; try reflexivity.
  destruct (ind <? j); destruct (intersection a b); reflexivity.
Qed.

(** When [find_intersects] returns, the library answered for every pair,
    and the dictionary holds its answer. *)
Lemma find_intersects_answered d i j a b :
  find_intersects lines = Ok d ->
  In (i, j) (triu_indices (lines_len lines)) -> lines_item lines i = Ok (Some a) -> lines_item lines j = Ok (Some b) ->
  crossing a b = Ok (dict_get (i, j) d).
Proof.
  intros Hrun Hin Hi Hj.
  assert (Hc : exists o, crossing a b = Ok o).
  { unfold find_intersects in Hrun.
    destruct (@for_each_rounds _ _ _ _ _ _ (i, j) Hrun Hin) as (s1 & s2 & Hb).
    cbv beta iota in Hb. rewrite (@find_intersects_call i j a b s1 Hi Hj) in Hb.
    destruct (crossing a b) as [o |]; [eauto | discriminate Hb]. }
  destruct Hc as [o Ho]. rewrite Ho. f_equal.
  apply find_intersects_entries in Hrun. rewrite Hrun.
  rewrite (@dict_get_entries _ _ _ _ (fun ij : Z * Z => ij)
             (fun ij => cross lines (fst ij) (snd ij)) _ (i, j));
    [| rewrite map_id; apply NoDup_triu_indices | exact Hin].
  simpl fst; simpl snd. rewrite (@cross_items i j a b Hi Hj), Ho. reflexivity.
Qed.

Lemma find_line_intersects_answered ind d j a b :
  find_line_intersects ind lines = Ok d ->
  0 <= j < lines_len lines -> ind <> j -> lines_item lines ind = Ok (Some a) -> lines_item lines j = Ok (Some b) ->
  crossing a b = Ok (dict_get (key_of ind j) d).
Proof.
  intros Hrun Hj Hne Hi Hjb.
  assert (Hin : In j (range (lines_len lines))) by (apply in_range; exact Hj).
  assert (Hc : exists o, crossing a b = Ok o).
  { unfold find_line_intersects in Hrun.
    destruct (@for_each_rounds _ _ _ _ _ _ j Hrun Hin) as (s1 & s2 & Hb).
    cbv beta in Hb. rewrite (@find_line_intersects_call ind j a b s1 Hi Hjb Hne) in Hb.
    destruct (crossing a b) as [o |]; [eauto | discriminate Hb]. }
  destruct Hc as [o Ho]. rewrite Ho. f_equal.
  apply find_line_intersects_entries in Hrun. rewrite Hrun.
  rewrite (@dict_get_entries _ _ _ _ (key_of ind)
             (fun j => if ind =? j then None else cross lines ind j) _ j);
    [| apply Injective_map_NoDup; [apply key_of_injective | apply NoDup_range]
     | exact Hin].
  destruct (Z.eqb_spec ind j); [contradiction |].
  rewrite (@cross_items ind j a b Hi Hjb), Ho. reflexivity.
Qed.

(** When every place holds a segment, an exception of the two functions is
    one the library raised. *)
Hypothesis items :
  forall i, 0 <= i < lines_len lines -> exists a, lines_item lines i = Ok (Some a).

Lemma find_intersects_refused e :
  find_intersects lines = Raise e ->
  exists i j a b, In (i, j) (triu_indices (lines_len lines)) /\
    lines_item lines i = Ok (Some a) /\ lines_item lines j = Ok (Some b) /\ crossing a b = Raise e.
Proof.
  unfold find_intersects. intros Hrun.
  apply for_each_raise in Hrun. destruct Hrun as ([i j] & s1 & Hin & Hb).
  pose proof Hin as Hij. apply in_triu_indices in Hij.
  destruct (@items i) as [a Ha]; [lia |]. destruct (@items j) as [b Hb']; [lia |].
  cbv beta iota in Hb. rewrite (@find_intersects_call i j a b s1 Ha Hb') in Hb.
  exists i, j, a, b. repeat (split; [assumption |]).
  destruct (crossing a b) as [o |]; [discriminate Hb | simpl in Hb; congruence].
Qed.

Lemma find_intersects_returns :
  (forall i j a b, In (i, j) (triu_indices (lines_len lines)) ->
     lines_item lines i = Ok (Some a) -> lines_item lines j = Ok (Some b) -> exists o, crossing a b = Ok o) ->
  exists d, find_intersects lines = Ok d.
Proof.
  intros Hans. destruct (find_intersects lines) as [d | e] eqn:Hrun; [eauto |].
  destruct (@find_intersects_refused e Hrun) as (i & j & a & b & Hin & Ha & Hb & Hc).
  destruct (Hans i j a b Hin Ha Hb) as [o Ho]. congruence.
Qed.

Lemma find_line_intersects_refused ind a e :
  lines_item lines ind = Ok (Some a) ->
  find_line_intersects ind lines = Raise e ->
  exists j b, 0 <= j < lines_len lines /\ ind <> j /\ lines_item lines j = Ok (Some b) /\
    crossing a b = Raise e.
Proof.
  unfold find_line_intersects. intros Ha Hrun.
  apply for_each_raise in Hrun. destruct Hrun as (j & s1 & Hin & Hb).
  apply in_range in Hin. destruct (@items j Hin) as [b Hb'].
  destruct (Z.eq_dec ind j) as [-> | Hne].
  - rewrite Z.eqb_refl in Hb. discriminate Hb.
  - rewrite (@find_line_intersects_call ind j a b s1 Ha Hb' Hne) in Hb.
    exists j, b. repeat (split; [assumption |]).
    destruct (crossing a b) as [o |]; [discriminate Hb | simpl in Hb; congruence].
Qed.

Lemma find_line_intersects_returns ind a :
  lines_item lines ind = Ok (Some a) ->
  (forall j b, 0 <= j < lines_len lines -> ind <> j -> lines_item lines j = Ok (Some b) ->
     exists o, crossing a b = Ok o) ->
  exists d, find_line_intersects ind lines = Ok d.
Proof.
  intros Ha Hans.
  destruct (find_line_intersects ind lines) as [d | e] eqn:Hrun; [eauto |].
  destruct (@find_line_intersects_refused ind a e Ha Hrun) as (j & b & Hj & Hne & Hb & Hc).
  destruct (Hans j b Hj Hne Hb) as [o Ho]. congruence.
Qed.
End Calls.

(** ** The intersection index of a list of segments *)

Section ListIndex.
Context {ext : Extern}.
Variable l : list LineString.

Lemma list_lines_item_valid i :
  - Z.of_nat (length l) <= i < Z.of_nat (length l) ->
  exists a, nth_error l (Z.to_nat (list_index (Z.of_nat (length l)) i)) = Some a /\
            lines_item (list_lines l) i = Ok (Some a).
Proof.
  intros Hi. simpl. unfold list_index.
  set (i' := if i <? 0 then i + Z.of_nat (length l) else i).
  assert (Hi' : 0 <= i' < Z.of_nat (length l))
    by (unfold i'; destruct (Z.ltb_spec i 0); lia).
  destruct (Z.leb_spec 0 i'); [| lia].
  destruct (Z.ltb_spec i' (Z.of_nat (length l))); [| lia]. simpl.
  destruct (nth_error l (Z.to_nat i')) as [a |] eqn:E.
  - exists a; auto.
  - apply nth_error_None in E. lia.
Qed.

Lemma list_lines_item_outside i :
  ~ (- Z.of_nat (length l) <= i < Z.of_nat (length l)) ->
  lines_item (list_lines l) i = Raise IndexError.
Proof.
  intros Hi. simpl.
  set (i' := if i <? 0 then i + Z.of_nat (length l) else i).
  assert (Hi' : ~ (0 <= i' < Z.of_nat (length l)))
    by (unfold i'; destruct (Z.ltb_spec i 0); lia).
  destruct (Z.leb_spec 0 i'); simpl; [| reflexivity].
  destruct (Z.ltb_spec i' (Z.of_nat (length l))); [lia | reflexivity].
Qed.

Lemma list_lines_place i :
  0 <= i < Z.of_nat (length l) ->
  exists a, nth_error l (Z.to_nat i) = Some a /\
            lines_item (list_lines l) i = Ok (Some a).
Proof.
  intros Hi. destruct (@list_lines_item_valid i) as (a & Ha & Hia); [lia |].
  exists a. split; [| exact Hia].
  unfold list_index in Ha. destruct (Z.ltb_spec i 0); [lia | exact Ha].
Qed.

Lemma list_lines_places i :
  0 <= i < lines_len (list_lines l) ->
  exists a, lines_item (list_lines l) i = Ok (Some a).
Proof.
  intros Hi. destruct (@list_lines_place i Hi) as (a & _ & Ha). eauto.
Qed.

Lemma list_lines_member i a :
  lines_item (list_lines l) i = Ok (Some a) -> In a l.
Proof.
  simpl. destruct (_ && _); [| discriminate].
  destruct (nth_error l _) as [x |] eqn:E; [| discriminate].
  intros H; inversion H; subst. eapply nth_error_In; eauto.
Qed.

(** X1: [find_intersects] on a Python list of segments, call by call.
    When it returns, the library answered for every pair of places
    [i < j], and the dictionary holds under [(i, j)] the point
    [l[i].intersection(l[j])] when [l[i].intersects(l[j])] and nothing
    when the two do not meet; no other key is there (not [(j, i)], not
    [(i, i)], not an index outside the list).  When it raises, the
    exception is one shapely raised, at [intersects] or [intersection], on
    two segments of the list: the function has no failure of its own.  So
    it returns whenever the library answers on the segments of the list. *)
Theorem find_intersects_list_lookup :
  (forall d, find_intersects (list_lines l) = Ok d ->
     (forall i j a b, 0 <= i < j ->
        nth_error l (Z.to_nat i) = Some a -> nth_error l (Z.to_nat j) = Some b ->
        crossing a b = Ok (dict_get (i, j) d)) /\
     (forall i j, ~ (0 <= i < j /\ j < Z.of_nat (length l)) ->
        dict_get (i, j) d = None)) /\
  (forall e, find_intersects (list_lines l) = Raise e ->
     exists a b, In a l /\ In b l /\ crossing a b = Raise e) /\
  ((forall a b, In a l -> In b l -> exists o, crossing a b = Ok o) ->
   exists d, find_intersects (list_lines l) = Ok d).
Proof.
  assert (Hraise : forall e, find_intersects (list_lines l) = Raise e ->
            exists a b, In a l /\ In b l /\ crossing a b = Raise e).
  { intros e Hrun.
    destruct (@find_intersects_refused ext (list_lines l) list_lines_places e Hrun)
      as (i & j & a & b & _ & Ha & Hb & Hc).
    exists a, b. split; [eapply list_lines_member; eauto |].
    split; [eapply list_lines_member; eauto | exact Hc]. }
  split; [| split; [exact Hraise |]].
  - intros d Hrun. split.
    + intros i j a b Hij Ha Hb.
      assert (Hj : (Z.to_nat j < length l)%nat)
        by (apply nth_error_Some; congruence).
      assert (Hi' : 0 <= i < Z.of_nat (length l)) by lia.
      assert (Hj' : 0 <= j < Z.of_nat (length l)) by lia.
      destruct (@list_lines_place i Hi') as (a' & Ea & Hia).
      destruct (@list_lines_place j Hj') as (b' & Eb & Hjb).
      assert (a' = a) by congruence. assert (b' = b) by congruence. subst a' b'.
      apply (@find_intersects_answered ext (list_lines l) d i j a b Hrun);
        [| exact Hia | exact Hjb].
      apply in_triu_indices. simpl. lia.
    + intros i j Hout. apply find_intersects_entries in Hrun. rewrite Hrun.
      apply dict_get_entries_none. rewrite map_id, in_triu_indices. exact Hout.
  - intros Hans.
    destruct (find_intersects (list_lines l)) as [d | e] eqn:Hrun; [eauto |].
    destruct (Hraise e eq_refl) as (a & b & Ha & Hb & Hc).
    destruct (Hans a b Ha Hb) as [o Ho]. congruence.
Qed.

(** X2: [find_line_intersects(ind, lines)] on a list, for every index
    Python accepts ([-len <= ind < len]; a negative one counts from the
    end), call by call.  When it returns, the library answered for the
    line of index [ind] as receiver and every other place [j] as argument,
    and the result holds [l[ind].intersection(l[j])] under the key
    [(ind, j)] or [(j, ind)], smaller index first, when
    [l[ind].intersects(l[j])], and nothing under that key otherwise; no
    other key is there.  For a negative [ind] no place [j] equals it, so
    the line is also compared with itself and the keys read [(ind, j)] with
    the negative index.  When it raises, the exception is one shapely
    raised with the line of index [ind] as receiver; so it returns whenever
    the library answers for that line and the segments of the list. *)
Theorem find_line_intersects_list_lookup (ind : Z) (a : LineString) :
  - Z.of_nat (length l) <= ind < Z.of_nat (length l) ->
  nth_error l (Z.to_nat (list_index (Z.of_nat (length l)) ind)) = Some a ->
  (forall d, find_line_intersects ind (list_lines l) = Ok d ->
     (forall j b, 0 <= j -> j <> ind ->
        nth_error l (Z.to_nat j) = Some b ->
        crossing a b = Ok (dict_get (key_of ind j) d)) /\
     (forall k, (forall j, 0 <= j < Z.of_nat (length l) -> j <> ind ->
                           k <> key_of ind j) ->
        dict_get k d = None)) /\
  (forall e, find_line_intersects ind (list_lines l) = Raise e ->
     exists b, In b l /\ crossing a b = Raise e) /\
  ((forall b, In b l -> exists o, crossing a b = Ok o) ->
   exists d, find_line_intersects ind (list_lines l) = Ok d).
Proof.
  intros Hind Ha.
  destruct (@list_lines_item_valid ind Hind) as (a' & Ha' & Hia).
  assert (a' = a) by congruence. subst a'.
  assert (Hraise : forall e, find_line_intersects ind (list_lines l) = Raise e ->
            exists b, In b l /\ crossing a b = Raise e).
  { intros e Hrun.
    destruct (@find_line_intersects_refused ext (list_lines l) list_lines_places
                ind a e Hia Hrun)
      as (j & b & _ & _ & Hb & Hc).
    exists b. split; [eapply list_lines_member; eauto | exact Hc]. }
  split; [| split; [exact Hraise |]].
  - intros d Hrun. split.
    + intros j b Hj0 Hne Hb.
      assert (Hj : 0 <= j < Z.of_nat (length l)).
      { assert ((Z.to_nat j < length l)%nat) by (apply nth_error_Some; congruence).
        lia. }
      destruct (@list_lines_place j Hj) as (b' & Eb & Hjb).
      assert (b' = b) by congruence. subst b'.
      apply (@find_line_intersects_answered ext (list_lines l) ind d j a b Hrun);
        auto.
    + intros k Hk.
      destruct (dict_get k d) as [v |] eqn:E; [| reflexivity]. exfalso.
      apply find_line_intersects_entries in Hrun.
      apply dict_get_some_in in E. rewrite Hrun in E. apply in_entries in E.
      destruct E as (j & Hj & Hkey & Hg). apply in_range in Hj. simpl in Hj.
      destruct (Z.eqb_spec ind j) as [-> | Hne]; [discriminate |].
      apply (Hk j Hj); congruence.
  - intros Hans.
    destruct (find_line_intersects ind (list_lines l)) as [d | e] eqn:Hrun;
      [eauto |].
    destruct (Hraise e eq_refl) as (b & Hb & Hc).
    destruct (Hans b Hb) as [o Ho]. congruence.
Qed.

(** X3: an index outside the list.  On an empty list
    [find_line_intersects] returns the empty dictionary whatever the index
    is (the loop has no round); on a list that is not empty an index that
    Python rejects ([ind >= len] or [ind < -len]) raises [IndexError] in the
    first round, at [lines[ind]]. *)
Theorem find_line_intersects_out_of_range (ind : Z) :
  (l = [] -> find_line_intersects ind (list_lines l) = Ok []) /\
  (l <> [] -> ~ (- Z.of_nat (length l) <= ind < Z.of_nat (length l)) ->
   find_line_intersects ind (list_lines l) = Raise IndexError).
Proof.
  split.
  - intros ->. reflexivity.
  - intros Hne Hout. unfold find_line_intersects.
    assert (Hlen : (0 < length l)%nat) by (destruct l; [congruence | simpl; lia]).
    assert (Hr : range (lines_len (list_lines l))
                 = 0 :: map Z.of_nat (seq 1 (length l - 1))).
    { simpl. unfold range. rewrite Nat2Z.id.
      destruct (length l) as [| m]; [lia |]. simpl. rewrite Nat.sub_0_r. reflexivity. }
    rewrite Hr. cbn [for_each].
    destruct (Z.eqb_spec ind 0) as [-> | _]; [lia |].
    unfold method_call at 1. rewrite (@list_lines_item_outside ind Hout). reflexivity.
Qed.
End ListIndex.

Lemma find_intersects_list_lookup_witness :
  find_intersects (list_lines (ext := Sample.ext)
      [Sample.upright_left; ((0, 0), (infinity, infinity))%float])
    = Raise TopologicalError /\
  exists d,
    find_intersects (list_lines (ext := Sample.ext) Sample.diagonals) = Ok d /\
    dict_get (0, 1) d = Some (1%float, 1%float).
Proof.
  split; [vm_compute; reflexivity |].
  destruct (@find_intersects_list_lookup Sample.ext Sample.diagonals)
    as (Hok & _ & Hret).
  destruct Hret as [d Hd].
  - intros a b [<- | [<- | []]] [<- | [<- | []]]; eexists; vm_compute; reflexivity.
  - exists d. split; [exact Hd |].
    destruct (Hok d Hd) as [Hget _].
    assert (Hc : crossing (ext := Sample.ext) ((0, 0), (2, 2))%float
                   ((0, 2), (2, 0))%float = Ok (Some (1%float, 1%float)))
      by (vm_compute; reflexivity).
    specialize (Hget 0 1 _ _ ltac:(lia) eq_refl eq_refl).
    rewrite Hc in Hget. inversion Hget. symmetry. assumption.
Defined.

Lemma find_line_intersects_list_lookup_witness :
  exists d,
    find_line_intersects (-1) (list_lines (ext := Sample.ext)
        [Sample.upright_left; Sample.bar]) = Ok d /\
    dict_get (key_of (-1) 0) d = Some (0%float, 1%float) /\
    dict_get (key_of (-1) 1) d = Some ((-1)%float, 1%float).
Proof.
  destruct (@find_line_intersects_list_lookup Sample.ext
              [Sample.upright_left; Sample.bar] (-1) Sample.bar)
    as (Hok & _ & Hret); [simpl; lia | reflexivity |].
  destruct Hret as [d Hd].
  - intros b [<- | [<- | []]]; eexists; vm_compute; reflexivity.
  - exists d. split; [exact Hd |].
    destruct (Hok d Hd) as [Hget _].
    pose proof (Hget 0 Sample.upright_left ltac:(lia) ltac:(lia) eq_refl) as H0.
    pose proof (Hget 1 Sample.bar ltac:(lia) ltac:(lia) eq_refl) as H1.
    assert (C0 : crossing (ext := Sample.ext) Sample.bar Sample.upright_left
                 = Ok (Some (0%float, 1%float))) by (vm_compute; reflexivity).
    assert (C1 : crossing (ext := Sample.ext) Sample.bar Sample.bar
                 = Ok (Some ((-1)%float, 1%float))) by (vm_compute; reflexivity).
    rewrite C0 in H0. rewrite C1 in H1.
    inversion H0. inversion H1. split; symmetry; assumption.
Defined.

(** ** Nodes, junctions and the junction map of a network *)

Lemma range_snoc n : 0 <= n -> range (n + 1) = range n ++ [n].
Proof.
  intros Hn. unfold range.
  replace (Z.to_nat (n + 1)) with (Z.to_nat n + 1)%nat by lia.
  rewrite seq_app, map_app. simpl. rewrite Z2Nat.id by lia. reflexivity.
Qed.

Lemma range_nonpos n : n <= 0 -> range n = [].
Proof.
  intros Hn. unfold range. replace (Z.to_nat n) with 0%nat by lia. reflexivity.
Qed.

Lemma range_length n : 0 <= n -> range (Z.of_nat (length (range n))) = range n.
Proof.
  intros Hn. unfold range at 2. rewrite length_map, length_seq, Z2Nat.id by lia.
  reflexivity.
Qed.

Lemma dict_mem_ext {K V W : Type} `{EqDec K} (d : dict K V) (d' : dict K W) :
  dict_keys d = dict_keys d' -> forall k, dict_mem k d = dict_mem k d'.
Proof.
  intros E k.
  pose proof (dict_mem_in_keys k d) as H1. pose proof (dict_mem_in_keys k d') as H2.
  rewrite E in H1.
  destruct (dict_mem k d), (dict_mem k d'); try reflexivity.
  - symmetry. apply H2, H1. reflexivity.
  - apply H1, H2. reflexivity.
Qed.

Section Wiring.
Context {ext : Extern}.
Implicit Types (NWN G : Graph) (r : float).

Lemma keys_add_node n a G :
  dict_keys (nodes (add_node n a G)) =
  if dict_mem n (nodes G) then dict_keys (nodes G) else dict_keys (nodes G) ++ [n].
Proof.
  unfold add_node, dict_mem.
  destruct (dict_get n (nodes G)) as [[a0 row] |] eqn:E; simpl;
    rewrite dict_keys_set_exact; unfold dict_mem; rewrite E; reflexivity.
Qed.

Lemma keys_set_adj u v r G :
  dict_keys (nodes (set_adj u v r G)) = dict_keys (nodes G).
Proof.
  unfold set_adj.
  destruct (dict_get u (nodes G)) as [[a row] |] eqn:E; [| reflexivity]. simpl.
  rewrite dict_keys_set_exact. unfold dict_mem. rewrite E. reflexivity.
Qed.

Lemma keys_add_edge r G e :
  dict_mem (fst e) (nodes G) = true -> dict_mem (snd e) (nodes G) = true ->
  dict_keys (nodes (add_edge r G e)) = dict_keys (nodes G).
Proof.
  destruct e as [u v]; simpl; intros Hu Hv. unfold add_edge.
  rewrite Hu. cbv iota. rewrite Hv. cbv iota. rewrite !keys_set_adj. reflexivity.
Qed.

Lemma keys_add_edges_from es r G :
  (forall e, In e es ->
     dict_mem (fst e) (nodes G) = true /\ dict_mem (snd e) (nodes G) = true) ->
  dict_keys (nodes (add_edges_from es r G)) = dict_keys (nodes G).
Proof.
  unfold add_edges_from. revert G.
  induction es as [| e es IH]; intros G Hin; cbn [fold_left]; [reflexivity |].
  assert (He : dict_keys (nodes (add_edge r G e)) = dict_keys (nodes G))
    by (apply keys_add_edge; apply Hin; left; reflexivity).
  rewrite IH; [exact He |].
  intros e' He'. rewrite !(dict_mem_ext _ _ He). apply Hin. right; exact He'.
Qed.

(** The edges after [add_edges_from]: the new ones, from either end, and
    the old ones. *)
Lemma add_edges_from_get es r G x y :
  (In (x, y) es \/ In (y, x) es ->
   get_edge_data x y (add_edges_from es r G) = Some r) /\
  (~ In (x, y) es -> ~ In (y, x) es ->
   get_edge_data x y (add_edges_from es r G) = get_edge_data x y G).
Proof.
  unfold add_edges_from. revert G.
  induction es as [| [a b] es IH]; intros G; cbn [fold_left].
  - split; [intros [[] | []] | reflexivity].
  - destruct (IH (add_edge r G (a, b))) as [IH1 IH2]. split.
    + intros Hin.
      destruct (in_dec eq_dec (x, y) es) as [H1 | H1]; [apply IH1; auto |].
      destruct (in_dec eq_dec (y, x) es) as [H2 | H2]; [apply IH1; auto |].
      rewrite IH2 by assumption. rewrite get_edge_data_add_edge.
      cbn [In] in Hin.
      destruct (eq_dec (x, y) (b, a)) as [_ | N1]; [reflexivity |].
      destruct (eq_dec (x, y) (a, b)) as [_ | N2]; [reflexivity |].
      exfalso. destruct Hin as [[E | H] | [E | H]]; try contradiction.
      * apply N2. congruence.
      * apply N1. inversion E; reflexivity.
    + intros N1 N2. cbn [In] in N1, N2. rewrite IH2 by tauto.
      rewrite get_edge_data_add_edge.
      destruct (eq_dec (x, y) (b, a)) as [E | _];
        [exfalso; apply N2; left; inversion E; reflexivity |].
      destruct (eq_dec (x, y) (a, b)) as [E | _];
        [exfalso; apply N1; left; congruence |].
      reflexivity.
Qed.

Lemma add_edges_from_some es r G x y :
  get_edge_data x y (add_edges_from es r G) <> None <->
  In (x, y) es \/ In (y, x) es \/ get_edge_data x y G <> None.
Proof.
  destruct (add_edges_from_get es r G x y) as [H1 H2].
  destruct (in_dec eq_dec (x, y) es) as [I1 | I1].
  - rewrite H1 by auto. split; [auto | discriminate].
  - destruct (in_dec eq_dec (y, x) es) as [I2 | I2].
    + rewrite H1 by auto. split; [auto | discriminate].
    + rewrite H2 by assumption. tauto.
Qed.

(** The node view at a wire: its line. *)
Lemma nodes_item G i a ea :
  node_attr i G = Some (wire_attr a ea) ->
  lines_item (nodes_data_line G) i = Ok (Some a).
Proof.
  unfold node_attr. simpl.
  destruct (dict_get i (nodes G)) as [[ai ri] |]; simpl; [| discriminate].
  intros E; inversion E; subst; clear E. reflexivity.
Qed.

Lemma nodes_len bound G :
  wires_upto bound G -> range (lines_len (nodes_data_line G)) = range bound.
Proof.
  intros [Hk _]. simpl. rewrite <- (length_map fst).
  fold (dict_keys (nodes G)). rewrite Hk.
  unfold range at 2. rewrite length_map, length_seq.
  unfold range. rewrite Nat2Z.id. reflexivity.
Qed.

Lemma nodes_places bound G i :
  wires_upto bound G -> 0 <= i < lines_len (nodes_data_line G) ->
  exists a, lines_item (nodes_data_line G) i = Ok (Some a).
Proof.
  intros Hw Hi. apply in_range in Hi. rewrite (nodes_len Hw) in Hi.
  destruct (proj2 Hw i Hi) as (a & ea & Ha). exists a. eapply nodes_item; eauto.
Qed.

Lemma node_attr_mem k G a : node_attr k G = Some a -> dict_mem k (nodes G) = true.
Proof. intros E. rewrite dict_mem_node_attr, E. reflexivity. Qed.

Lemma wires_upto_mem bound G k :
  wires_upto bound G -> dict_mem k (nodes G) = true <-> 0 <= k < bound.
Proof.
  intros [Hk _]. rewrite dict_mem_in_keys, Hk. apply in_range.
Qed.

(** *** The loop of [create_NWN] *)

Lemma add_random_wire_exact i G rng st' :
  dict_mem i (nodes G) = false ->
  add_random_wire i (G, rng) = Ok st' ->
  dict_keys (nodes (fst st')) = dict_keys (nodes G) ++ [i] /\
  (exists l, node_attr i (fst st') = Some (wire_attr l false)) /\
  (forall k, k <> i -> node_attr k (fst st') = node_attr k G) /\
  (forall u v, get_edge_data u v (fst st') = get_edge_data u v G).
Proof.
  intros Hfresh. unfold add_random_wire.
  destruct (create_line _ _ _ _ _ rng) as [[l rng'] | x]; [| discriminate].
  cbn [bind].
  set (attr := {| line := Some l; midpoint := None; electrode := Some false |}).
  destruct (set_midpoint i (add_node i attr G)) as [NWN2 |] eqn:Hset; simpl;
    [| discriminate].
  intros E; inversion E; subst; clear E. simpl.
  destruct (nodes_set_midpoint _ _ Hset) as (a1 & row & Hn & Hget).
  assert (Hnone : dict_get i (nodes G) = None)
    by (unfold dict_mem in Hfresh; destruct (dict_get i (nodes G));
        [discriminate | reflexivity]).
  rewrite nodes_add_node_same, Hnone in Hn. inversion Hn; subst a1 row; clear Hn.
  assert (Hkeys : dict_keys (nodes NWN2) = dict_keys (nodes (add_node i attr G))).
  { unfold set_midpoint in Hset. rewrite nodes_add_node_same, Hnone in Hset.
    simpl in Hset. inversion Hset; subst NWN2; clear Hset. simpl.
    rewrite dict_keys_set_exact, dict_mem_add_node.
    destruct (eq_dec i i); [reflexivity | congruence]. }
  split; [| split; [| split]].
  - rewrite Hkeys, keys_add_node, Hfresh. reflexivity.
  - exists l. unfold node_attr. rewrite Hget.
    destruct (eq_dec i i); [reflexivity | congruence].
  - intros k Hk. unfold node_attr. rewrite Hget.
    destruct (eq_dec k i); [contradiction |].
    rewrite nodes_add_node_other by exact Hk. reflexivity.
  - intros u v. unfold get_edge_data. rewrite Hget.
    destruct (eq_dec u i) as [-> | Hu].
    + rewrite Hnone. reflexivity.
    + rewrite nodes_add_node_other by exact Hu. reflexivity.
Qed.

Lemma add_random_wires_exact xs :
  forall G rng st,
    NoDup xs -> (forall x, In x xs -> dict_mem x (nodes G) = false) ->
    for_each xs add_random_wire (G, rng) = Ok st ->
    dict_keys (nodes (fst st)) = dict_keys (nodes G) ++ xs /\
    (forall k, In k xs -> exists l, node_attr k (fst st) = Some (wire_attr l false)) /\
    (forall k, ~ In k xs -> node_attr k (fst st) = node_attr k G) /\
    (forall u v, get_edge_data u v (fst st) = get_edge_data u v G).
Proof.
  induction xs as [| x xs IH]; intros G rng st Hnd Hfresh Hrun.
  - simpl in Hrun. inversion Hrun; subst. simpl. rewrite app_nil_r.
    repeat split; auto. intros k [].
  - cbn [for_each] in Hrun.
    destruct (add_random_wire x (G, rng)) as [[G1 rng1] |] eqn:Hone;
      simpl in Hrun; [| discriminate].
    inversion Hnd as [| ? ? Hx Hnd']; subst.
    destruct (@add_random_wire_exact x G rng (G1, rng1)
                (Hfresh x (or_introl eq_refl)) Hone)
      as (Hk1 & [l Hl] & Ho1 & He1).
    simpl in Hk1, Hl, Ho1, He1.
    assert (Hfresh1 : forall y, In y xs -> dict_mem y (nodes G1) = false).
    { intros y Hy. rewrite dict_mem_node_attr, Ho1.
      - rewrite <- dict_mem_node_attr. apply Hfresh. right; exact Hy.
      - intros ->. contradiction. }
    destruct (IH G1 rng1 st Hnd' Hfresh1 Hrun) as (Hk & Ha & Ho & He).
    split; [| split; [| split]].
    + rewrite Hk, Hk1, <- app_assoc. reflexivity.
    + intros k [<- | Hin]; [| apply Ha; exact Hin].
      exists l. rewrite Ho by exact Hx. exact Hl.
    + intros k Hk'. rewrite Ho by (intros Hin; apply Hk'; right; exact Hin).
      apply Ho1. intros ->. apply Hk'. left; reflexivity.
    + intros u v. rewrite He. apply He1.
Qed.

Lemma create_NWN_run wl w dn seed resistance NWN :
  create_NWN wl w dn seed resistance = Ok NWN ->
  exists n dens rng st d jd,
    py_round (w * w * dn)%float = Ok n /\
    py_int_truediv n (w * w)%float = Ok dens /\
    default_rng seed = Ok rng /\
    for_each (range n) add_random_wire
      ({| wire_length := wl; width := w;
          size := (w * w)%float; wire_density := dens; wire_num := n;
          electrodes := 0; junction_resistance := resistance;
          electrode_list := []; loc := None; junction_density := None;
          nodes := [] |}, rng) = Ok st /\
    find_intersects (nodes_data_line (fst st)) = Ok d /\
    py_int_truediv (Z.of_nat (length d)) (w * w)%float = Ok jd /\
    NWN = set_junction_density (Some jd)
            (set_loc (Some d) (add_edges_from (dict_keys d) resistance (fst st))).
Proof.
  unfold create_NWN.
  destruct (py_round _) as [n |] eqn:Hn; simpl; [| discriminate].
  destruct (py_int_truediv n _) as [dens |] eqn:Hdens; simpl; [| discriminate].
  destruct (default_rng seed) as [rng |] eqn:Hrng; simpl; [| discriminate].
  destruct (for_each _ _ _) as [st |] eqn:Hst; simpl; [| discriminate].
  destruct (find_intersects _) as [d |] eqn:Hd; simpl; [| discriminate].
  destruct (py_int_truediv (Z.of_nat _) _) as [jd |] eqn:Hjd; simpl; [| discriminate].
  intros E; inversion E; subst.
  exists n, dens, rng, st, d, jd. repeat split; auto.
Qed.

(** What [create_NWN] returns, in full. *)
Lemma create_NWN_wiring wl w dn seed resistance NWN :
  create_NWN wl w dn seed resistance = Ok NWN ->
  exists d jd,
    loc NWN = Some d /\ junction_density NWN = Some jd /\
    py_int_truediv (Z.of_nat (length d)) (w * w)%float = Ok jd /\
    py_int_truediv (wire_num NWN) (w * w)%float = Ok (wire_density NWN) /\
    (wire_length NWN = wl /\ width NWN = w /\ size NWN = (w * w)%float /\
     electrodes NWN = 0 /\ electrode_list NWN = [] /\
     junction_resistance NWN = resistance) /\
    dict_keys (nodes NWN) = range (wire_num NWN) /\
    (forall k, In k (range (wire_num NWN)) ->
       exists l, node_attr k NWN = Some (wire_attr l false)) /\
    (forall x y, In (x, y) (dict_keys d) \/ In (y, x) (dict_keys d) ->
       get_edge_data x y NWN = Some resistance) /\
    (forall x y, ~ In (x, y) (dict_keys d) -> ~ In (y, x) (dict_keys d) ->
       get_edge_data x y NWN = None) /\
    (forall i j, In (i, j) (dict_keys d) -> 0 <= i < j /\ j < wire_num NWN) /\
    (forall i j a b ea eb, 0 <= i < j -> j < wire_num NWN ->
       node_attr i NWN = Some (wire_attr a ea) ->
       node_attr j NWN = Some (wire_attr b eb) ->
       crossing a b = Ok (dict_get (i, j) d)).
Proof.
  intros Hrun.
  destruct (create_NWN_run _ _ _ _ _ Hrun)
    as (n & dens & rng1 & st & d & jd & Hn & Hdens & _ & Hst & Hd & Hjd & ->).
  pose proof (graph_attrs_add_random_wires _ _ Hst) as Hattrs. simpl in Hattrs.
  destruct st as [G0 rng0]. simpl in Hattrs, Hd |- *.
  pose proof Hst as Hloop.
  apply add_random_wires_exact in Hloop;
    [| apply NoDup_range | intros x _; reflexivity].
  destruct Hloop as (Hk & Ha & Ho & He).
  simpl in Hk, Ha, Ho, He.
  set (G := add_edges_from (dict_keys d) resistance G0).
  assert (Hg : graph_attrs G = graph_attrs G0)
    by apply graph_attrs_add_edges_from.
  rewrite Hattrs in Hg.
  assert (Hpresent : forall e, In e (dict_keys d) ->
            dict_mem (fst e) (nodes G0) = true /\ dict_mem (snd e) (nodes G0) = true)
    by (apply find_intersects_keys_present; exact Hd).
  assert (Hsame : forall k, node_attr k G = node_attr k G0)
    by (apply node_attr_add_edges_from; exact Hpresent).
  assert (Hwn : wire_num G = n)
    by (change (wire_num (graph_attrs G) = n); rewrite Hg; reflexivity).
  assert (Hlen : range (lines_len (nodes_data_line G0)) = range n).
  { simpl. rewrite <- (length_map fst). fold (dict_keys (nodes G0)). rewrite Hk.
    unfold range at 2. rewrite length_map, length_seq.
    unfold range. rewrite Nat2Z.id. reflexivity. }
  assert (Htri : forall i j, In (i, j) (triu_indices (lines_len (nodes_data_line G0)))
                             <-> 0 <= i < j /\ j < n).
  { intros i j. rewrite in_triu_indices. simpl.
    rewrite <- (length_map fst). fold (dict_keys (nodes G0)). rewrite Hk.
    unfold range. rewrite length_map, length_seq. lia. }
  pose proof (find_intersects_entries _ Hd) as Hent.
  exists d, jd.
  split; [reflexivity |]. split; [reflexivity |]. split; [exact Hjd |].
  split.
  { change (py_int_truediv (wire_num G) (w * w)%float = Ok (wire_density (graph_attrs G))).
    rewrite Hwn, Hg. exact Hdens. }
  split.
  { repeat split.
    - change (wire_length (graph_attrs G) = wl). rewrite Hg. reflexivity.
    - change (width (graph_attrs G) = w). rewrite Hg. reflexivity.
    - change (size (graph_attrs G) = (w * w)%float). rewrite Hg. reflexivity.
    - change (electrodes (graph_attrs G) = 0). rewrite Hg. reflexivity.
    - change (electrode_list (graph_attrs G) = []). rewrite Hg. reflexivity.
    - change (junction_resistance (graph_attrs G) = resistance). rewrite Hg.
      reflexivity. }
  change (wire_num (set_junction_density (Some jd) (set_loc (Some d) G)))
    with (wire_num G). rewrite Hwn.
  split.
  { change (dict_keys (nodes G) = range n). unfold G.
    rewrite keys_add_edges_from by exact Hpresent. exact Hk. }
  split.
  { intros k Hin. change (exists l, node_attr k G = Some (wire_attr l false)).
    rewrite Hsame. apply Ha. exact Hin. }
  split.
  { intros x y Hin. change (get_edge_data x y G = Some resistance).
    apply (proj1 (add_edges_from_get (dict_keys d) resistance G0 x y)). exact Hin. }
  split.
  { intros x y N1 N2. change (get_edge_data x y G = None).
    unfold G.
    rewrite (proj2 (add_edges_from_get (dict_keys d) resistance G0 x y) N1 N2).
    apply He. }
  split.
  { intros i j Hin. apply Htri. rewrite Hent in Hin.
    rewrite dict_keys_entries in Hin. apply in_map_iff in Hin.
    destruct Hin as (x & <- & Hx). apply filter_In in Hx. tauto. }
  intros i j a b ea eb Hij Hj Hai Hbj.
  change (node_attr i G = Some (wire_attr a ea)) in Hai.
  change (node_attr j G = Some (wire_attr b eb)) in Hbj.
  rewrite Hsame in Hai, Hbj.
  apply (@find_intersects_answered ext (nodes_data_line G0) d i j a b Hd).
  - apply Htri. lia.
  - eapply nodes_item; eauto.
  - eapply nodes_item; eauto.
Qed.
End Wiring.

Section Built.
Context {ext : Extern}.
Implicit Types (NWN G : Graph) (r : float).

Lemma py_int_truediv_value n b q :
  py_int_truediv n b = Ok q -> q = (Z2F n / b)%float.
Proof.
  unfold py_int_truediv, int_to_float.
  destruct (PrimFloat.is_infinity (Z2F n)); simpl; [discriminate |].
  unfold py_truediv. destruct (PrimFloat.is_zero b); [discriminate |].
  intros E; inversion E; reflexivity.
Qed.

(** What an answer of the library for two lines consists of. *)
Lemma crossing_answer a b o :
  crossing a b = Ok o ->
  exists c, intersects a b = Ok c /\
    if c : bool then exists p, intersection a b = Ok p /\ o = Some p
    else o = None.
Proof.
  unfold crossing.
  destruct (intersects a b) as [[|] | e]; simpl; [| | discriminate].
  - destruct (intersection a b) as [p | e]; simpl; [| discriminate].
    intros E; inversion E. exists true. eauto.
  - intros E; inversion E. exists false. auto.
Qed.

(** X4: the junctions of the network [create_NWN] returns.  For two wires
    [i < j] of the network, with lines [a] and [b], [a.intersects(b)] was
    answered, and the graph has the edge between them, seen from both ends
    and carrying the [resistance] argument, exactly when the answer was
    true; then [a.intersection(b)] was answered too and the junction map
    [loc] holds that point under the key [(i, j)]; when the two lines do
    not meet there is no edge and no key. *)
Theorem create_NWN_junctions_meet wl w dn seed resistance NWN :
  create_NWN wl w dn seed resistance = Ok NWN ->
  exists d, loc NWN = Some d /\
    forall i j, 0 <= i < j -> j < wire_num NWN ->
      exists a b c,
        node_attr i NWN = Some (wire_attr a false) /\
        node_attr j NWN = Some (wire_attr b false) /\
        intersects a b = Ok c /\
        get_edge_data i j NWN = (if c : bool then Some resistance else None) /\
        get_edge_data j i NWN = (if c : bool then Some resistance else None) /\
        if c : bool
        then exists p, intersection a b = Ok p /\ dict_get (i, j) d = Some p
        else dict_get (i, j) d = None.
Proof.
  intros Hrun.
  destruct (create_NWN_wiring _ _ _ _ _ Hrun)
    as (d & jd & Hloc & _ & _ & _ & _ & _ & Ha & Hin & Hout & Hkeys & Hget).
  exists d. split; [exact Hloc |].
  intros i j Hij Hj.
  destruct (Ha i) as [a Hai]; [apply in_range; lia |].
  destruct (Ha j) as [b Hbj]; [apply in_range; lia |].
  pose proof (Hget i j a b false false Hij Hj Hai Hbj) as Hd.
  destruct (crossing_answer _ _ Hd) as (c & Hc & Hp).
  exists a, b, c. split; [exact Hai |]. split; [exact Hbj |]. split; [exact Hc |].
  destruct c.
  - destruct Hp as (p & Hp & Hdp).
    assert (Hk : In (i, j) (dict_keys d))
      by (apply dict_get_in_keys; rewrite Hdp; discriminate).
    split; [apply Hin; auto |]. split; [apply Hin; auto |]. eauto.
  - assert (N1 : ~ In (i, j) (dict_keys d))
      by (intros Hk; apply dict_get_in_keys in Hk; contradiction).
    assert (N2 : ~ In (j, i) (dict_keys d))
      by (intros Hk; apply Hkeys in Hk; lia).
    split; [apply Hout; assumption |]. split; [apply Hout; assumption | exact Hp].
Qed.

(** X5: the attributes of the network [create_NWN] returns: the length,
    the width and the junction resistance are the arguments, [size] is
    [width * width], there is no electrode (the count is 0, the list is
    empty, no wire has the flag), the nodes are the indices
    [0 .. wire_num - 1] in this order, and [junction_density] is the number
    of entries of the junction map divided by [size], in binary64. *)
Theorem create_NWN_fresh wl w dn seed resistance NWN :
  create_NWN wl w dn seed resistance = Ok NWN ->
  wire_length NWN = wl /\ width NWN = w /\ size NWN = (w * w)%float /\
  junction_resistance NWN = resistance /\
  electrodes NWN = 0 /\ electrode_list NWN = [] /\
  (forall k, ~ is_electrode k NWN) /\
  dict_keys (nodes NWN) = range (wire_num NWN) /\
  exists d, loc NWN = Some d /\
    junction_density NWN = Some (Z2F (Z.of_nat (length d)) / (w * w))%float.
Proof.
  intros Hrun.
  destruct (create_NWN_wiring _ _ _ _ _ Hrun)
    as (d & jd & Hloc & Hjd & Hdiv & _ & (H1 & H2 & H3 & H4 & H5 & H6)
        & Hk & Ha & _).
  repeat (split; [assumption |]).
  split.
  - intros k (a & Hka & He).
    assert (Hin : In k (range (wire_num NWN))).
    { rewrite <- Hk. apply dict_mem_in_keys. eapply node_attr_mem; eauto. }
    destruct (Ha k Hin) as [l Hl]. rewrite Hl in Hka. inversion Hka; subst.
    discriminate He.
  - split; [exact Hk |]. exists d. split; [exact Hloc |].
    rewrite Hjd. f_equal. apply py_int_truediv_value. exact Hdiv.
Qed.

(** *** One round of the loop of [add_wires] *)

Lemma add_one_wire_steps ind l e G G' :
  add_one_wire ind l e G = (G', Ok tt) ->
  exists d old G2,
    nodes G2 = nodes (add_node ind (wire_attr l e) G) /\
    graph_attrs (set_electrode_list [] G2) = graph_attrs (set_electrode_list [] G) /\
    find_line_intersects ind (nodes_data_line G2) = Ok d /\
    loc G = Some old /\
    G' = set_loc (Some (dict_update old d))
           (add_edges_from (dict_keys d) (junction_resistance G) G2).
Proof.
  unfold add_one_wire. fold (wire_attr l e).
  set (NWN1 := add_node ind (wire_attr l e) G).
  set (NWN2 := if e then set_electrode_list (electrode_list NWN1 ++ [ind]) NWN1
               else NWN1).
  assert (Hn2 : nodes NWN2 = nodes NWN1) by (unfold NWN2; destruct e; reflexivity).
  assert (Ha2 : graph_attrs (set_electrode_list [] NWN2)
                = graph_attrs (set_electrode_list [] G)).
  { transitivity (graph_attrs (set_electrode_list [] NWN1)).
    - unfold NWN2. destruct e; reflexivity.
    - unfold NWN1, add_node.
      destruct (dict_get ind (nodes G)) as [[a row] |]; reflexivity. }
  assert (Hjr : junction_resistance NWN2 = junction_resistance G)
    by (change (junction_resistance (graph_attrs (set_electrode_list [] NWN2))
                = junction_resistance G); rewrite Ha2; reflexivity).
  assert (Hl2 : loc NWN2 = loc G)
    by (change (loc (graph_attrs (set_electrode_list [] NWN2)) = loc G);
        rewrite Ha2; reflexivity).
  destruct (find_line_intersects ind (nodes_data_line NWN2)) as [d |] eqn:Hd;
    [| intros E; inversion E].
  set (NWN3 := add_edges_from (dict_keys d) (junction_resistance NWN2) NWN2).
  assert (Hl3 : loc NWN3 = loc G).
  { change (loc (graph_attrs NWN3) = loc G). unfold NWN3.
    rewrite graph_attrs_add_edges_from. exact Hl2. }
  destruct (loc NWN3) as [old |] eqn:Hold; intros E; inversion E; subst G'; clear E.
  exists d, old, NWN2. unfold NWN3. rewrite Hjr. auto.
Qed.

(** On a graph without a node a wire of negative index cannot be added:
    the view has one item, the loop looks at place 0, and no node is
    there. *)
Lemma add_one_wire_hollow ind l e G :
  nodes G = [] -> ind < 0 ->
  snd (add_one_wire ind l e G) = Raise KeyError /\
  dict_keys (nodes (fst (add_one_wire ind l e G))) = [ind].
Proof.
  intros Hn Hneg. unfold add_one_wire. fold (wire_attr l e).
  set (NWN1 := add_node ind (wire_attr l e) G).
  set (NWN2 := if e then set_electrode_list (electrode_list NWN1 ++ [ind]) NWN1
               else NWN1).
  assert (Hn2 : nodes NWN2 = [(ind, (attr_update no_attr (wire_attr l e), []))]).
  { transitivity (nodes NWN1); [unfold NWN2; destruct e; reflexivity |].
    unfold NWN1, add_node. rewrite Hn. reflexivity. }
  assert (Hf : find_line_intersects ind (nodes_data_line NWN2) = Raise KeyError).
  { unfold find_line_intersects, nodes_data_line, method_call.
    cbn [lines_len lines_item]. rewrite Hn2.
    change (range (Z.of_nat (length [(ind, (attr_update no_attr (wire_attr l e),
                                            @nil (Z * float)))]))) with [0].
    cbn [for_each].
    destruct (Z.eqb_spec ind 0); [lia |].
    cbn [dict_get]. destruct (eq_dec ind ind); [| congruence].
    destruct (eq_dec 0 ind); [lia |]. reflexivity. }
  rewrite Hf. split; [reflexivity |]. simpl. rewrite Hn2. reflexivity.
Qed.

Lemma fixed_attrs_fields G G' :
  fixed_attrs G' = fixed_attrs G ->
  wire_length G' = wire_length G /\ width G' = width G /\ size G' = size G /\
  wire_density G' = wire_density G /\ wire_num G' = wire_num G /\
  electrodes G' = electrodes G /\ junction_resistance G' = junction_resistance G /\
  junction_density G' = junction_density G.
Proof.
  intros E.
  change (wire_length (fixed_attrs G') = wire_length (fixed_attrs G) /\
          width (fixed_attrs G') = width (fixed_attrs G) /\
          size (fixed_attrs G') = size (fixed_attrs G) /\
          wire_density (fixed_attrs G') = wire_density (fixed_attrs G) /\
          wire_num (fixed_attrs G') = wire_num (fixed_attrs G) /\
          electrodes (fixed_attrs G') = electrodes (fixed_attrs G) /\
          junction_resistance (fixed_attrs G') = junction_resistance (fixed_attrs G) /\
          junction_density (fixed_attrs G') = junction_density (fixed_attrs G)).
  rewrite E. repeat split.
Qed.

Lemma add_one_wire_exact ind l e G G' :
  wires_upto ind G -> junctions_recorded G ->
  add_one_wire ind l e G = (G', Ok tt) ->
  0 <= ind /\
  wires_upto (ind + 1) G' /\ junctions_recorded G' /\
  (forall k, node_attr k G' =
             if eq_dec k ind then Some (wire_attr l e) else node_attr k G) /\
  (forall x y, x <> ind -> y <> ind ->
     get_edge_data x y G' = get_edge_data x y G) /\
  (forall j b eb, node_attr j G = Some (wire_attr b eb) ->
     exists c, intersects l b = Ok c /\
       get_edge_data ind j G' =
         (if c : bool then Some (junction_resistance G) else None) /\
       get_edge_data j ind G' =
         (if c : bool then Some (junction_resistance G) else None)) /\
  fixed_attrs G' = fixed_attrs G /\
  electrode_list G' = electrode_list G ++ (if e then [ind] else []).
Proof.
  intros Hw Hj Hrun.
  pose proof Hw as [Hkeys Hattr]. pose proof Hj as [Hedges (old & Hloc & Hold)].
  assert (Hind : 0 <= ind).
  { destruct (Z_lt_le_dec ind 0) as [Hneg | Hpos]; [| exact Hpos]. exfalso.
    rewrite range_nonpos in Hkeys by lia.
    assert (Hn : nodes G = []) by (apply map_eq_nil in Hkeys; exact Hkeys).
    assert (Hr : snd (add_one_wire ind l e G) = Raise KeyError)
      by (apply add_one_wire_hollow; assumption).
    rewrite Hrun in Hr. discriminate Hr. }
  assert (Hfresh : dict_mem ind (nodes G) = false).
  { destruct (dict_mem ind (nodes G)) eqn:Hm; [| reflexivity].
    apply (wires_upto_mem ind Hw) in Hm. lia. }
  destruct (@add_one_wire_spec ext ind l e G G' Hfresh Hrun)
    as (Hspec & Hel & _ & _).
  fold (wire_attr l e) in Hspec.
  destruct (add_one_wire_steps _ _ _ _ Hrun)
    as (d & old' & G2 & Hn2 & Ha2 & Hd & Hloc' & HG').
  assert (old' = old) by congruence. subst old'.
  set (jr := junction_resistance G) in *.
  set (G3 := add_edges_from (dict_keys d) jr G2) in *.
  assert (Hpresent : forall e0, In e0 (dict_keys d) ->
            dict_mem (fst e0) (nodes G2) = true /\ dict_mem (snd e0) (nodes G2) = true)
    by (apply find_line_intersects_keys_present with (ind := ind); exact Hd).
  assert (Hk2 : dict_keys (nodes G2) = range (ind + 1)).
  { rewrite Hn2, keys_add_node, Hfresh, Hkeys. symmetry. apply range_snoc, Hind. }
  assert (Hk3 : dict_keys (nodes G3) = range (ind + 1))
    by (unfold G3; rewrite keys_add_edges_from by exact Hpresent; exact Hk2).
  assert (Hnodes' : nodes G' = nodes G3) by (rewrite HG'; reflexivity).
  assert (Hget' : forall x y, get_edge_data x y G' = get_edge_data x y G3)
    by (intros x y; unfold get_edge_data; rewrite Hnodes'; reflexivity).
  assert (Hget2 : forall x y, get_edge_data x y G2 = get_edge_data x y G).
  { intros x y. unfold get_edge_data at 1. rewrite Hn2.
    apply (get_edge_data_add_node x y ind (wire_attr l e) G). }
  assert (Hattr2 : forall k, node_attr k G2 =
            if eq_dec k ind then Some (wire_attr l e) else node_attr k G).
  { intros k. unfold node_attr at 1. rewrite Hn2.
    fold (node_attr k (add_node ind (wire_attr l e) G)).
    rewrite node_attr_add_node.
    destruct (eq_dec k ind) as [-> | Hk]; [| reflexivity].
    rewrite dict_mem_node_attr in Hfresh.
    destruct (node_attr ind G); [discriminate | reflexivity]. }
  (* the keys of the new entries *)
  pose proof (find_line_intersects_entries _ _ Hd) as Hent.
  assert (Hlen : range (lines_len (nodes_data_line G2)) = range (ind + 1)).
  { simpl. rewrite <- (length_map fst). fold (dict_keys (nodes G2)). rewrite Hk2.
    apply range_length. lia. }
  rewrite Hlen in Hent.
  assert (Hcross : forall j b eb, node_attr j G = Some (wire_attr b eb) ->
            0 <= j < ind /\ crossing l b = Ok (dict_get (j, ind) d)).
  { intros j b eb Hjb.
    assert (Hjr : 0 <= j < ind)
      by (apply (wires_upto_mem j Hw); eapply node_attr_mem; eauto).
    split; [exact Hjr |].
    assert (Hkey : key_of ind j = (j, ind))
      by (unfold key_of; destruct (Z.ltb_spec ind j); [lia | reflexivity]).
    rewrite <- Hkey.
    apply (@find_line_intersects_answered ext (nodes_data_line G2) ind d j l b Hd).
    - apply in_range. rewrite Hlen. apply in_range. lia.
    - lia.
    - apply nodes_item with (ea := e). rewrite Hattr2.
      destruct (eq_dec ind ind); [reflexivity | congruence].
    - apply nodes_item with (ea := eb). rewrite Hattr2.
      destruct (eq_dec j ind); [lia | exact Hjb]. }
  assert (Hdk : forall i j, In (i, j) (dict_keys d) -> j = ind /\ 0 <= i < ind).
  { intros i j Hin. rewrite Hent, dict_keys_entries in Hin.
    apply in_map_iff in Hin. destruct Hin as (x & Hkey & Hx).
    apply filter_In in Hx. destruct Hx as [Hx Hg]. apply in_range in Hx.
    destruct (Z.eqb_spec ind x) as [-> | Hne]; [discriminate |].
    unfold key_of in Hkey. destruct (Z.ltb_spec ind x); [lia |].
    injection Hkey as Hxi Hij. subst x. split; [symmetry; exact Hij | lia]. }
  assert (Hnew : forall x y, In (x, y) (dict_keys d) \/ In (y, x) (dict_keys d) ->
            get_edge_data x y G' = Some jr).
  { intros x y Hin. rewrite Hget'.
    apply (proj1 (add_edges_from_get (dict_keys d) jr G2 x y)). exact Hin. }
  assert (Hkeep : forall x y, ~ In (x, y) (dict_keys d) -> ~ In (y, x) (dict_keys d) ->
            get_edge_data x y G' = get_edge_data x y G).
  { intros x y N1 N2. rewrite Hget'. unfold G3.
    rewrite (proj2 (add_edges_from_get (dict_keys d) jr G2 x y) N1 N2).
    apply Hget2. }
  assert (Hnone : forall y, get_edge_data ind y G = None /\ get_edge_data y ind G = None).
  { intros y. split.
    - destruct (get_edge_data ind y G) as [r |] eqn:E; [| reflexivity].
      apply Hedges in E. destruct E as (_ & Hm & _). congruence.
    - destruct (get_edge_data y ind G) as [r |] eqn:E; [| reflexivity].
      apply Hedges in E. destruct E as (_ & _ & Hm). congruence. }
  assert (Hfix : fixed_attrs G' = fixed_attrs G).
  { rewrite HG'. unfold fixed_attrs.
    transitivity (graph_attrs (set_loc None (set_electrode_list [] G3)));
      [reflexivity |].
    transitivity (set_loc None (set_electrode_list [] (graph_attrs G3)));
      [reflexivity |].
    unfold G3. rewrite graph_attrs_add_edges_from.
    transitivity (set_loc None (graph_attrs (set_electrode_list [] G2)));
      [reflexivity |].
    rewrite Ha2. reflexivity. }
  assert (Hjr' : junction_resistance G' = jr)
    by (apply fixed_attrs_fields in Hfix; tauto).
  split; [exact Hind |].
  split.
  { split.
    - rewrite Hnodes'. exact Hk3.
    - intros k Hk. rewrite Hspec. apply in_range in Hk.
      destruct (eq_dec k ind); [eauto |].
      apply Hattr. apply in_range. lia. }
  split.
  { split.
    - intros u v r Hr.
      assert (Hmem : forall k, dict_mem k (nodes G) = true ->
                               dict_mem k (nodes G') = true).
      { intros k Hk. rewrite dict_mem_node_attr, Hspec.
        destruct (eq_dec k ind); [reflexivity |].
        rewrite <- dict_mem_node_attr. exact Hk. }
      assert (Hmem2 : forall k, dict_mem k (nodes G2) = true ->
                                dict_mem k (nodes G') = true).
      { intros k Hk. rewrite Hnodes'.
        rewrite (dict_mem_ext (nodes G3) (nodes G2)); [exact Hk |].
        rewrite Hk3, Hk2. reflexivity. }
      destruct (in_dec eq_dec (u, v) (dict_keys d)) as [I1 | I1].
      + rewrite Hnew in Hr by auto. inversion Hr; subst r.
        destruct (Hpresent _ I1) as [Hu Hv]. simpl in Hu, Hv.
        rewrite Hjr'. auto.
      + destruct (in_dec eq_dec (v, u) (dict_keys d)) as [I2 | I2].
        * rewrite Hnew in Hr by auto. inversion Hr; subst r.
          destruct (Hpresent _ I2) as [Hv Hu]. simpl in Hu, Hv.
          rewrite Hjr'. auto.
        * rewrite Hkeep in Hr by assumption.
          apply Hedges in Hr. destruct Hr as (-> & Hu & Hv).
          rewrite Hjr'. auto.
    - exists (dict_update old d). split; [rewrite HG'; reflexivity |].
      intros i j. rewrite dict_update_keys_iff, Hold, Hget'.
      unfold G3. rewrite add_edges_from_some.
      assert (Hg2 : get_edge_data i j G2 = get_edge_data i j G) by apply Hget2.
      rewrite Hg2. split.
      + intros [[Hlt Hg] | Hin]; [tauto |].
        split; [| auto]. apply Hdk in Hin. lia.
      + intros [Hlt [Hin | [Hin | Hg]]]; [auto | | auto].
        apply Hdk in Hin. lia. }
  split; [exact Hspec |].
  split.
  { intros x y Hx Hy. apply Hkeep.
    - intros Hin. apply Hdk in Hin. tauto.
    - intros Hin. apply Hdk in Hin. tauto. }
  split.
  { intros j b eb Hjb. destruct (Hcross j b eb Hjb) as [Hjr Hc].
    destruct (crossing_answer _ _ Hc) as (c & Hcb & Hp).
    exists c. split; [exact Hcb |].
    destruct c.
    - destruct Hp as (p & _ & Hdp).
      assert (Hin : In (j, ind) (dict_keys d))
        by (apply dict_get_in_keys; rewrite Hdp; discriminate).
      split; apply Hnew; auto.
    - assert (N1 : ~ In (j, ind) (dict_keys d))
        by (intros Hin; apply dict_get_in_keys in Hin; contradiction).
      assert (N2 : ~ In (ind, j) (dict_keys d))
        by (intros Hin; apply Hdk in Hin; lia).
      destruct (Hnone j) as [E1 E2].
      split; rewrite Hkeep by assumption; assumption. }
  split; [exact Hfix | exact Hel].
Qed.
End Built.

Section Batch.
Context {ext : Extern}.
Implicit Types (NWN G : Graph) (r : float).

(** *** The whole loop *)

Lemma add_wires_loop_exact lines :
  forall ind els G G',
    length lines = length els ->
    wires_upto ind G -> junctions_recorded G ->
    add_wires_loop ind lines els G = (G', Ok tt) ->
    wires_upto (ind + Z.of_nat (length lines)) G' /\ junctions_recorded G' /\
    (forall k, k < ind -> node_attr k G' = node_attr k G) /\
    (forall m l e, nth_error lines m = Some l -> nth_error els m = Some e ->
       node_attr (ind + Z.of_nat m) G' = Some (wire_attr l e)) /\
    (forall x y, x < ind -> y < ind ->
       get_edge_data x y G' = get_edge_data x y G) /\
    (forall i j a b ea eb, ind <= i -> 0 <= j < i ->
       node_attr i G' = Some (wire_attr a ea) ->
       node_attr j G' = Some (wire_attr b eb) ->
       exists c, intersects a b = Ok c /\
         get_edge_data i j G' =
           (if c : bool then Some (junction_resistance G) else None) /\
         get_edge_data j i G' =
           (if c : bool then Some (junction_resistance G) else None)) /\
    fixed_attrs G' = fixed_attrs G /\
    Z.of_nat (length (electrode_list G')) =
      Z.of_nat (length (electrode_list G)) + np_sum_bool els.
Proof.
  induction lines as [| l lines IH]; intros ind els G G' Hlen Hw Hj Hrun.
  - destruct els; [| discriminate Hlen]. simpl in Hrun. inversion Hrun; subst G'.
    simpl length. rewrite Z.add_0_r.
    split; [exact Hw |]. split; [exact Hj |]. split; [reflexivity |].
    split; [intros [| m] l e Hl; discriminate Hl |].
    split; [reflexivity |].
    split.
    { intros i j a b ea eb Hi Hji Hai Hbj. exfalso.
      apply node_attr_mem in Hai. apply (wires_upto_mem i Hw) in Hai. lia. }
    split; [reflexivity |]. unfold np_sum_bool. simpl. lia.
  - destruct els as [| e els]; [discriminate Hlen |].
    injection Hlen as Hlen. cbn [add_wires_loop] in Hrun.
    destruct (add_one_wire ind l e G) as [G1 [[] | x]] eqn:Hone;
      [| inversion Hrun].
    destruct (@add_one_wire_exact ext ind l e G G1 Hw Hj Hone)
      as (Hind & Hw1 & Hj1 & Hspec & Hkeep & Hnew & Hfix1 & Hel1).
    destruct (IH (ind + 1) els G1 G' Hlen Hw1 Hj1 Hrun)
      as (Hw' & Hj' & Hold' & Hnth' & Hkeep' & Hnew' & Hfix' & Hel').
    assert (Hjr1 : junction_resistance G1 = junction_resistance G)
      by (apply fixed_attrs_fields in Hfix1; tauto).
    assert (Hat : node_attr ind G' = Some (wire_attr l e)).
    { rewrite Hold' by lia. rewrite Hspec.
      destruct (eq_dec ind ind); [reflexivity | congruence]. }
    assert (Hbelow : forall k, k < ind -> node_attr k G' = node_attr k G).
    { intros k Hk. rewrite Hold' by lia. rewrite Hspec.
      destruct (eq_dec k ind); [lia | reflexivity]. }
    split.
    { replace (ind + Z.of_nat (length (l :: lines)))
        with (ind + 1 + Z.of_nat (length lines)) by (simpl length; lia).
      exact Hw'. }
    split; [exact Hj' |].
    split; [exact Hbelow |].
    split.
    { intros [| m] l0 e0 Hl0 He0.
      - simpl in Hl0, He0. inversion Hl0; inversion He0; subst.
        rewrite Z.add_0_r. exact Hat.
      - simpl in Hl0, He0.
        replace (ind + Z.of_nat (S m)) with (ind + 1 + Z.of_nat m) by lia.
        apply Hnth'; assumption. }
    split.
    { intros x y Hx Hy. rewrite Hkeep' by lia. apply Hkeep; lia. }
    split.
    { intros i j a b ea eb Hi Hji Hai Hbj.
      destruct (Z.eq_dec i ind) as [-> | Hne].
      - rewrite Hat in Hai. inversion Hai; subst a ea.
        rewrite Hbelow in Hbj by lia.
        rewrite !Hkeep' by lia. eapply Hnew; eauto.
      - rewrite <- Hjr1. apply Hnew' with (ea := ea) (eb := eb); auto; lia. }
    split; [rewrite Hfix'; exact Hfix1 |].
    rewrite Hel', Hel1, length_app. unfold np_sum_bool.
    destruct e; simpl; lia.
Qed.

(** The fields [add_one_wire] and the loop never write, however they end. *)
Lemma add_one_wire_fixed ind l e G :
  fixed_attrs (fst (add_one_wire ind l e G)) = fixed_attrs G.
Proof.
  unfold add_one_wire.
  set (NWN1 := add_node ind _ G).
  set (NWN2 := if e then set_electrode_list (electrode_list NWN1 ++ [ind]) NWN1
               else NWN1).
  assert (H2 : fixed_attrs NWN2 = fixed_attrs G).
  { transitivity (fixed_attrs NWN1); [unfold NWN2; destruct e; reflexivity |].
    unfold NWN1, add_node.
    destruct (dict_get ind (nodes G)) as [[a row] |]; reflexivity. }
  destruct (find_line_intersects ind (nodes_data_line NWN2)) as [d |];
    [| exact H2].
  set (NWN3 := add_edges_from (dict_keys d) (junction_resistance NWN2) NWN2).
  assert (H3 : fixed_attrs NWN3 = fixed_attrs G).
  { rewrite <- H2. unfold fixed_attrs.
    transitivity (set_loc None (set_electrode_list [] (graph_attrs NWN3)));
      [reflexivity |].
    unfold NWN3. rewrite graph_attrs_add_edges_from. reflexivity. }
  destruct (loc NWN3); exact H3.
Qed.

Lemma add_wires_loop_fixed lines :
  forall ind els G,
    fixed_attrs (fst (add_wires_loop ind lines els G)) = fixed_attrs G.
Proof.
  induction lines as [| l lines IH]; intros ind els G; [reflexivity |].
  destruct els as [| e els]; [reflexivity |]. cbn [add_wires_loop].
  pose proof (add_one_wire_fixed ind l e G) as H1.
  destruct (add_one_wire ind l e G) as [G1 [[] | x]]; simpl in H1.
  - rewrite IH. exact H1.
  - exact H1.
Qed.

(** A successful call of [add_wires], in full. *)
Lemma add_wires_exact NWN lines els :
  wires_upto (wire_num NWN) NWN -> junctions_recorded NWN ->
  snd (add_wires NWN lines els) = Ok tt ->
  exists G2,
    length lines = length els /\
    add_wires_loop (wire_num NWN) lines els
      (set_counts (wire_num NWN + Z.of_nat (length lines))
         (electrodes NWN + np_sum_bool els) NWN) = (G2, Ok tt) /\
    fst (add_wires NWN lines els) =
      set_wire_density (Z2F (wire_num G2 - electrodes G2) / size G2)%float G2.
Proof.
  intros Hw Hj. unfold add_wires.
  destruct (Z.eqb_spec (Z.of_nat (length lines)) (Z.of_nat (length els)))
    as [Hlen | Hlen]; simpl; [| discriminate].
  destruct (add_wires_loop _ _ _ _) as [G2 [[] | x]] eqn:Hloop; simpl;
    [| discriminate].
  intros _. exists G2. split; [lia |]. split; reflexivity.
Qed.

Lemma wires_upto_nodes bound G G' :
  nodes G' = nodes G -> wires_upto bound G -> wires_upto bound G'.
Proof.
  intros E [Hk Ha]. unfold wires_upto, node_attr. rewrite E. split; assumption.
Qed.

Lemma junctions_recorded_nodes G G' :
  nodes G' = nodes G -> loc G' = loc G ->
  junction_resistance G' = junction_resistance G ->
  junctions_recorded G -> junctions_recorded G'.
Proof.
  intros En El Er [He Hl]. unfold junctions_recorded, get_edge_data.
  rewrite En, El, Er. split; assumption.
Qed.

(** What holds of the nodes, the junctions and the counters of every
    network the module builds. *)
Lemma reachable_wiring NWN :
  reachable NWN ->
  wires_upto (wire_num NWN) NWN /\ junctions_recorded NWN /\
  electrodes NWN = Z.of_nat (length (electrode_list NWN)) /\
  wire_density NWN = (Z2F (wire_num NWN - electrodes NWN) / size NWN)%float.
Proof.
  induction 1 as [wl w dn seed resistance NWN Hc | NWN lines els Hr IH Ha].
  - destruct (create_NWN_wiring _ _ _ _ _ Hc)
      as (d & jd & Hloc & _ & _ & Hdens & (_ & _ & Hsize & Hel & Hlist & Hjr)
          & Hk & Hattr & Hin & Hout & Hkeys & _).
    assert (Hmem : forall k, 0 <= k < wire_num NWN -> dict_mem k (nodes NWN) = true)
      by (intros k Hk'; apply dict_mem_in_keys; rewrite Hk; apply in_range; exact Hk').
    split; [| split; [| split]].
    + split; [exact Hk |]. intros k Hin'. destruct (Hattr k Hin') as [l Hl]. eauto.
    + split.
      * intros u v r Hr.
        destruct (in_dec eq_dec (u, v) (dict_keys d)) as [I1 | I1].
        -- rewrite Hin in Hr by auto. inversion Hr; subst r.
           apply Hkeys in I1. rewrite Hjr. split; [reflexivity |].
           split; apply Hmem; lia.
        -- destruct (in_dec eq_dec (v, u) (dict_keys d)) as [I2 | I2].
           ++ rewrite Hin in Hr by auto. inversion Hr; subst r.
              apply Hkeys in I2. rewrite Hjr. split; [reflexivity |].
              split; apply Hmem; lia.
           ++ rewrite Hout in Hr by assumption. discriminate Hr.
      * exists d. split; [exact Hloc |]. intros i j. split.
        -- intros I1. split; [apply Hkeys in I1; lia |].
           rewrite Hin by auto. discriminate.
        -- intros [Hlt Hg].
           destruct (in_dec eq_dec (i, j) (dict_keys d)) as [I1 | I1]; [exact I1 |].
           exfalso. apply Hg. apply Hout; [exact I1 |].
           intros I2. apply Hkeys in I2. lia.
    + rewrite Hel, Hlist. reflexivity.
    + rewrite Hel, Z.sub_0_r, Hsize. apply py_int_truediv_value. exact Hdens.
  - destruct IH as (Hw & Hj & Hcount & _).
    destruct (@add_wires_exact NWN lines els Hw Hj Ha) as (G2 & Hlen & Hloop & ->).
    set (NWN1 := set_counts (wire_num NWN + Z.of_nat (length lines))
                   (electrodes NWN + np_sum_bool els) NWN) in *.
    assert (Hw1 : wires_upto (wire_num NWN) NWN1)
      by (apply wires_upto_nodes with (G := NWN); [reflexivity | exact Hw]).
    assert (Hj1 : junctions_recorded NWN1)
      by (apply junctions_recorded_nodes with (G := NWN);
          [reflexivity | reflexivity | reflexivity | exact Hj]).
    destruct (@add_wires_loop_exact lines (wire_num NWN) els NWN1 G2 Hlen Hw1 Hj1 Hloop)
      as (Hw' & Hj' & _ & _ & _ & _ & Hfix & Hel').
    apply fixed_attrs_fields in Hfix.
    destruct Hfix as (_ & _ & _ & _ & Hwn & Helc & _ & _).
    simpl in Hwn, Helc.
    split; [| split; [| split]].
    + apply wires_upto_nodes with (G := G2); [reflexivity |].
      change (wires_upto (wire_num G2) G2). rewrite Hwn. exact Hw'.
    + apply junctions_recorded_nodes with (G := G2);
        [reflexivity | reflexivity | reflexivity | exact Hj'].
    + change (electrodes G2 = Z.of_nat (length (electrode_list G2))).
      rewrite Helc, Hel'. simpl. lia.
    + reflexivity.
Qed.
End Batch.

Section BuiltNetworks.
Context {ext : Extern}.
Implicit Types (NWN G : Graph) (r : float).

(** X6: the nodes of a network made by [create_NWN] and successful calls
    of [add_wires] are exactly the wire indices [0 .. wire_num - 1], in
    this order, so [wire_num] counts the nodes; and every wire has its
    three attributes: a line, the centroid of that line as midpoint, and an
    electrode flag. *)
Theorem reachable_nodes NWN :
  reachable NWN ->
  dict_keys (nodes NWN) = range (wire_num NWN) /\
  (forall k, dict_mem k (nodes NWN) = true <-> 0 <= k < wire_num NWN) /\
  (forall k, 0 <= k < wire_num NWN ->
     exists l e, node_attr k NWN =
       Some {| line := Some l; midpoint := Some (centroid l); electrode := Some e |}).
Proof.
  intros Hr. destruct (reachable_wiring Hr) as (Hw & _).
  split; [exact (proj1 Hw) |].
  split; [intros k; apply (wires_upto_mem k Hw) |].
  intros k Hk. apply (proj2 Hw). apply in_range. exact Hk.
Qed.

(** X7: every junction of such a network joins two different wires of the
    network, is seen from both of them, and carries the network's
    [junction_resistance]: no call gives a junction another resistance. *)
Theorem reachable_junction_ends NWN :
  reachable NWN ->
  forall u v r, get_edge_data u v NWN = Some r ->
    r = junction_resistance NWN /\ u <> v /\
    0 <= u < wire_num NWN /\ 0 <= v < wire_num NWN /\
    get_edge_data v u NWN = Some r.
Proof.
  intros Hr u v r He.
  destruct (reachable_wiring Hr) as (Hw & [Hedges _] & _).
  destruct (@reachable_invariant ext NWN Hr) as (_ & _ & Hsym).
  destruct (@reachable_junctions ext NWN Hr) as [_ Hne].
  destruct (Hedges u v r He) as (Hjr & Hu & Hv).
  split; [exact Hjr |]. split; [eapply Hne; eauto |].
  split; [apply (wires_upto_mem u Hw); exact Hu |].
  split; [apply (wires_upto_mem v Hw); exact Hv |].
  rewrite <- (Hsym u v). exact He.
Qed.

(** X8: the junction map [loc] of such a network and the edges of its
    graph name the same junctions: [(i, j)] is a key of [loc] exactly when
    [i < j] and the graph has the edge between [i] and [j]. *)
Theorem reachable_junction_map NWN :
  reachable NWN ->
  exists d, loc NWN = Some d /\
    forall i j, In (i, j) (dict_keys d) <->
                i < j /\ get_edge_data i j NWN <> None.
Proof.
  intros Hr. destruct (reachable_wiring Hr) as (_ & [_ Hloc] & _). exact Hloc.
Qed.

(** X9: the counters of such a network: [electrodes] is the length of
    [electrode_list], and [wire_density] is the number of wires that are
    not electrodes divided by [size], in binary64 (for a fresh network,
    [wire_num / size]). *)
Theorem reachable_counters NWN :
  reachable NWN ->
  electrodes NWN = Z.of_nat (length (electrode_list NWN)) /\
  wire_density NWN = (Z2F (wire_num NWN - electrodes NWN) / size NWN)%float.
Proof.
  intros Hr. destruct (reachable_wiring Hr) as (_ & _ & Hc & Hd). auto.
Qed.

(** X10: what a successful [add_wires] adds.  The new wires get the
    indices from the old [wire_num] on, with the line, its centroid and the
    flag given for them; the old wires and the junctions among them are as
    before; and for a new wire [i] and a wire [j] of smaller index, old
    or new, [line(i).intersects(line(j))] was answered, and the two have a
    junction exactly when the answer was true, seen from both ends and with
    the network's junction resistance. *)
Theorem add_wires_junctions NWN lines els :
  reachable NWN ->
  snd (add_wires NWN lines els) = Ok tt ->
  (forall m l e, nth_error lines m = Some l -> nth_error els m = Some e ->
     node_attr (wire_num NWN + Z.of_nat m) (fst (add_wires NWN lines els))
       = Some (wire_attr l e)) /\
  (forall k, k < wire_num NWN ->
     node_attr k (fst (add_wires NWN lines els)) = node_attr k NWN) /\
  (forall x y, x < wire_num NWN -> y < wire_num NWN ->
     get_edge_data x y (fst (add_wires NWN lines els)) = get_edge_data x y NWN) /\
  (forall i j a b ea eb, wire_num NWN <= i -> 0 <= j < i ->
     node_attr i (fst (add_wires NWN lines els)) = Some (wire_attr a ea) ->
     node_attr j (fst (add_wires NWN lines els)) = Some (wire_attr b eb) ->
     exists c, intersects a b = Ok c /\
       get_edge_data i j (fst (add_wires NWN lines els)) =
         (if c : bool then Some (junction_resistance NWN) else None) /\
       get_edge_data j i (fst (add_wires NWN lines els)) =
         (if c : bool then Some (junction_resistance NWN) else None)).
Proof.
  intros Hr Ha. destruct (reachable_wiring Hr) as (Hw & Hj & _).
  destruct (@add_wires_exact ext NWN lines els Hw Hj Ha) as (G2 & Hlen & Hloop & ->).
  set (NWN1 := set_counts (wire_num NWN + Z.of_nat (length lines))
                 (electrodes NWN + np_sum_bool els) NWN) in *.
  assert (Hw1 : wires_upto (wire_num NWN) NWN1)
    by (apply wires_upto_nodes with (G := NWN); [reflexivity | exact Hw]).
  assert (Hj1 : junctions_recorded NWN1)
    by (apply junctions_recorded_nodes with (G := NWN);
        [reflexivity | reflexivity | reflexivity | exact Hj]).
  destruct (@add_wires_loop_exact ext lines (wire_num NWN) els NWN1 G2
              Hlen Hw1 Hj1 Hloop)
    as (_ & _ & Hold & Hnth & Hkeep & Hnew & _).
  split; [exact Hnth |]. split; [exact Hold |]. split; [exact Hkeep |].
  exact Hnew.
Qed.

(** X11: the counters are written before the wires are added.  With two
    lists of the same length, [wire_num] and [electrodes] of the graph are
    increased by the number of new wires and of new electrodes however the
    call ends, also when it raises in the middle of the loop;
    [wire_density] is recomputed from them only when the call returns, and
    is left as it was when the call raises. *)
Theorem add_wires_counters NWN lines els :
  length lines = length els ->
  wire_num (fst (add_wires NWN lines els))
    = wire_num NWN + Z.of_nat (length lines) /\
  electrodes (fst (add_wires NWN lines els))
    = electrodes NWN + np_sum_bool els /\
  (snd (add_wires NWN lines els) = Ok tt ->
   wire_density (fst (add_wires NWN lines els)) =
     (Z2F (wire_num NWN + Z.of_nat (length lines)
           - (electrodes NWN + np_sum_bool els)) / size NWN)%float) /\
  (snd (add_wires NWN lines els) <> Ok tt ->
   wire_density (fst (add_wires NWN lines els)) = wire_density NWN).
Proof.
  intros Hlen. unfold add_wires.
  destruct (Z.eqb_spec (Z.of_nat (length lines)) (Z.of_nat (length els)))
    as [_ | N]; [| lia]. cbn [negb].
  set (NWN1 := set_counts (wire_num NWN + Z.of_nat (length lines))
                 (electrodes NWN + np_sum_bool els) NWN).
  pose proof (add_wires_loop_fixed lines (wire_num NWN) els NWN1) as Hfix.
  destruct (add_wires_loop (wire_num NWN) lines els NWN1) as [G2 [[] | x]];
    simpl in Hfix; apply fixed_attrs_fields in Hfix;
    destruct Hfix as (_ & _ & Hsize & Hdens & Hwn & Hel & _ & _);
    simpl in Hsize, Hdens, Hwn, Hel; simpl.
  - split; [exact Hwn |]. split; [exact Hel |].
    split; [intros _; rewrite Hwn, Hel, Hsize; reflexivity |].
    intros N; contradiction N; reflexivity.
  - split; [exact Hwn |]. split; [exact Hel |].
    split; [discriminate |]. intros _. exact Hdens.
Qed.

(** X12: what [add_wires] never writes: the wire length, the width, the
    size, the junction resistance, and also [junction_density], which
    stays the value [create_NWN] computed although the call adds
    junctions to the graph and to [loc]. *)
Theorem add_wires_untouched NWN lines els :
  wire_length (fst (add_wires NWN lines els)) = wire_length NWN /\
  width (fst (add_wires NWN lines els)) = width NWN /\
  size (fst (add_wires NWN lines els)) = size NWN /\
  junction_resistance (fst (add_wires NWN lines els)) = junction_resistance NWN /\
  junction_density (fst (add_wires NWN lines els)) = junction_density NWN.
Proof.
  unfold add_wires.
  destruct (negb _); [simpl; repeat split |].
  set (NWN1 := set_counts (wire_num NWN + Z.of_nat (length lines))
                 (electrodes NWN + np_sum_bool els) NWN).
  pose proof (add_wires_loop_fixed lines (wire_num NWN) els NWN1) as Hfix.
  destruct (add_wires_loop (wire_num NWN) lines els NWN1) as [G2 [[] | x]];
    simpl in Hfix; apply fixed_attrs_fields in Hfix;
    destruct Hfix as (H1 & H2 & H3 & _ & _ & _ & H4 & H5);
    simpl in H1, H2, H3, H4, H5; simpl; auto.
Qed.

(** X13: a network made with a negative density has a negative [wire_num]
    and no node ([round] of a negative product, and [range] of a negative
    number is empty).  Every call of [add_wires] on it with new wires
    raises [KeyError]: the first wire gets the negative index [wire_num],
    the node view then has one item, and the loop of
    [find_line_intersects] asks it for the node 0.  The node of the first
    wire stays in the graph. *)
Theorem add_wires_negative_wire_num NWN lines els :
  reachable NWN -> wire_num NWN < 0 ->
  lines <> [] -> length lines = length els ->
  snd (add_wires NWN lines els) = Raise KeyError /\
  dict_keys (nodes (fst (add_wires NWN lines els))) = [wire_num NWN].
Proof.
  intros Hr Hneg Hne Hlen.
  destruct (reachable_wiring Hr) as ([Hk _] & _).
  rewrite range_nonpos in Hk by lia.
  assert (Hn : nodes NWN = []) by (apply map_eq_nil in Hk; exact Hk).
  unfold add_wires.
  destruct (Z.eqb_spec (Z.of_nat (length lines)) (Z.of_nat (length els)))
    as [_ | N]; [| lia]. cbn [negb].
  set (NWN1 := set_counts (wire_num NWN + Z.of_nat (length lines))
                 (electrodes NWN + np_sum_bool els) NWN).
  destruct lines as [| l lines]; [congruence |].
  destruct els as [| e els]; [discriminate Hlen |].
  cbn [add_wires_loop].
  assert (Hn1 : nodes NWN1 = []) by exact Hn.
  destruct (@add_one_wire_hollow ext (wire_num NWN) l e NWN1 Hn1 Hneg) as [Hs Hf].
  destruct (add_one_wire (wire_num NWN) l e NWN1) as [G1 [[] | x]];
    simpl in Hs, Hf; [discriminate Hs |].
  inversion Hs; subst x. simpl. auto.
Qed.
End BuiltNetworks.

Lemma hollow_reachable : reachable (Sample.hollow 10).
Proof.
  apply reach_create
    with (wire_length := 7%float) (width := 2%float) (density := (-0.625)%float)
         (seed := None) (resistance := 10%float).
  reflexivity.
Defined.

Lemma reachable_nodes_witness :
  dict_keys (nodes (fst Sample.bridge)) = range (wire_num (fst Sample.bridge)) /\
  (forall k, dict_mem k (nodes (fst Sample.bridge)) = true
             <-> 0 <= k < wire_num (fst Sample.bridge)) /\
  (forall k, 0 <= k < wire_num (fst Sample.bridge) ->
     exists l e, node_attr k (fst Sample.bridge) =
       Some {| line := Some l; midpoint := Some (centroid l); electrode := Some e |}).
Proof.
  exact (@reachable_nodes Sample.ext (fst Sample.bridge) bridge_reachable).
Defined.

Lemma reachable_junction_ends_witness :
  get_edge_data 0 1 (fst Sample.bridge) = Some 10%float /\
  10%float = junction_resistance (fst Sample.bridge) /\ 0 <> 1 /\
  0 <= 0 < wire_num (fst Sample.bridge) /\
  0 <= 1 < wire_num (fst Sample.bridge) /\
  get_edge_data 1 0 (fst Sample.bridge) = Some 10%float.
Proof.
  assert (He : get_edge_data 0 1 (fst Sample.bridge) = Some 10%float)
    by (vm_compute; reflexivity).
  split; [exact He |].
  exact (@reachable_junction_ends Sample.ext (fst Sample.bridge) bridge_reachable
           0 1 10%float He).
Defined.

Lemma reachable_junction_map_witness :
  exists d, loc (fst Sample.bridge) = Some d /\
    forall i j, In (i, j) (dict_keys d) <->
                i < j /\ get_edge_data i j (fst Sample.bridge) <> None.
Proof.
  exact (@reachable_junction_map Sample.ext (fst Sample.bridge) bridge_reachable).
Defined.

Lemma reachable_counters_witness :
  electrodes (fst Sample.bridge)
    = Z.of_nat (length (electrode_list (fst Sample.bridge))) /\
  wire_density (fst Sample.bridge) =
    (Z2F (wire_num (fst Sample.bridge) - electrodes (fst Sample.bridge))
     / size (fst Sample.bridge))%float.
Proof.
  exact (@reachable_counters Sample.ext (fst Sample.bridge) bridge_reachable).
Defined.

Lemma empty_graph_reachable : reachable (Sample.empty_graph 10).
Proof.
  apply reach_create
    with (wire_length := 7%float) (width := 2%float) (density := 0%float)
         (seed := None) (resistance := 10%float).
  reflexivity.
Defined.

Lemma add_wires_junctions_witness :
  snd (add_wires (Sample.empty_graph 10)
         [Sample.upright_left; Sample.bar] [true; false]) = Ok tt /\
  get_edge_data 1 0
    (fst (add_wires (Sample.empty_graph 10)
            [Sample.upright_left; Sample.bar] [true; false])) = Some 10%float /\
  get_edge_data 0 1
    (fst (add_wires (Sample.empty_graph 10)
            [Sample.upright_left; Sample.bar] [true; false])) = Some 10%float.
Proof.
  assert (Hs : snd (add_wires (Sample.empty_graph 10)
                      [Sample.upright_left; Sample.bar] [true; false]) = Ok tt)
    by (vm_compute; reflexivity).
  split; [exact Hs |].
  destruct (@add_wires_junctions Sample.ext (Sample.empty_graph 10)
              [Sample.upright_left; Sample.bar] [true; false]
              empty_graph_reachable Hs)
    as (Hnth & _ & _ & Hnew).
  pose proof (Hnth 0%nat Sample.upright_left true eq_refl eq_refl) as H0.
  pose proof (Hnth 1%nat Sample.bar false eq_refl eq_refl) as H1.
  assert (L0 : wire_num (Sample.empty_graph 10) <= 1) by (simpl; lia).
  assert (L1 : 0 <= 0 < 1) by lia.
  destruct (Hnew 1 0 Sample.bar Sample.upright_left false true L0 L1 H1 H0)
    as (c & Hc & E1 & E2).
  assert (Hm : intersects (Extern := Sample.ext) Sample.bar Sample.upright_left
               = Ok true) by (vm_compute; reflexivity).
  rewrite Hm in Hc. inversion Hc; subst c. split; [exact E1 | exact E2].
Defined.

Lemma add_wires_counters_witness :
  wire_num (fst (add_wires (Sample.hollow 10) [Sample.bar] [true])) = -2 + 1 /\
  electrodes (fst (add_wires (Sample.hollow 10) [Sample.bar] [true])) = 0 + 1 /\
  snd (add_wires (Sample.hollow 10) [Sample.bar] [true]) = Raise KeyError /\
  wire_density (fst (add_wires (Sample.hollow 10) [Sample.bar] [true]))
    = (-0.5)%float.
Proof.
  destruct (@add_wires_counters Sample.ext (Sample.hollow 10) [Sample.bar] [true]
              eq_refl) as (Hw & He & _ & Hd).
  assert (Hs : snd (add_wires (Sample.hollow 10) [Sample.bar] [true])
               = Raise KeyError) by (vm_compute; reflexivity).
  split; [exact Hw |]. split; [exact He |]. split; [exact Hs |].
  apply Hd. rewrite Hs. discriminate.
Defined.

Lemma add_wires_negative_wire_num_witness :
  snd (add_wires (Sample.hollow 10) [Sample.bar] [false]) = Raise KeyError /\
  dict_keys (nodes (fst (add_wires (Sample.hollow 10) [Sample.bar] [false]))) = [-2].
Proof.
  apply (@add_wires_negative_wire_num Sample.ext (Sample.hollow 10)
           [Sample.bar] [false] hollow_reachable).
  - simpl. lia.
  - discriminate.
  - reflexivity.
Defined.

(** ** More on the conductance matrix *)

Section MatrixMore.
Context {ext : Extern}.
Implicit Types (NWN : Graph) (G : dok).

Lemma conductance_matrix_outcome NWN drain_node :
  wires_present NWN ->
  (exists G, conductance_matrix NWN drain_node = Ok G) \/
  conductance_matrix NWN drain_node = Raise ZeroDivisionError.
Proof.
  intros Hw. destruct (conductance_matrix NWN drain_node) as [G | e] eqn:Hrun;
    [left; eauto |].
  right. f_equal. rewrite conductance_matrix_flat in Hrun.
  destruct (dok_matrix _ _) as [G0 |] eqn:H0; simpl in Hrun.
  - apply for_each_raise in Hrun. destruct Hrun as ([i j] & G1 & Hin & Hb).
    apply in_prod_iff in Hin. destruct Hin as [Hi _]. apply in_range in Hi.
    destruct (@cell_outcome ext NWN drain_node i j G1 Hw Hi) as [[G' Hok] | Hz];
      simpl in Hb; congruence.
  - apply dok_matrix_raises in H0. destruct Hw as [Hw _]. lia.
Qed.

Lemma conductance_matrix_zero_division NWN drain_node :
  conductance_matrix NWN drain_node = Raise ZeroDivisionError ->
  exists i j r, get_edge_data i j NWN = Some r /\ PrimFloat.is_zero r = true.
Proof.
  rewrite conductance_matrix_flat. intros Hrun.
  destruct (dok_matrix _ _) as [G0 |] eqn:H0; simpl in Hrun.
  - apply for_each_raise in Hrun. destruct Hrun as ([i j] & G1 & _ & Hb).
    simpl in Hb. apply cell_zero_division in Hb.
    destruct Hb as (_ & _ & r & Hr & Hz). exists i, j, r. auto.
  - apply dok_matrix_raises in H0. destruct H0 as [E _]. congruence.
Qed.

Lemma conductance_matrix_nonzero NWN drain_node G i j r :
  conductance_matrix NWN drain_node = Ok G ->
  0 <= i < wire_num NWN -> 0 <= j < wire_num NWN -> i <> j -> i <> drain_node ->
  get_edge_data i j NWN = Some r ->
  PrimFloat.is_zero r = false /\ dok_get (i, j) G = stored ((-1) / r)%float.
Proof.
  intros Hrun Hi Hj Hij Hid Hr.
  destruct (@conductance_matrix_cells ext NWN drain_node G i j Hrun Hi Hj)
    as (G1 & G2 & Hb & H0 & ->).
  destruct (@cell_off_diagonal ext NWN drain_node i j G1 G2 Hij Hid Hb H0)
    as [Hv Hnz].
  split; [apply Hnz; exact Hr |]. rewrite Hv, Hr. reflexivity.
Qed.

Lemma cell_raise_kinds NWN drain_node i j G e :
  conductance_cell NWN drain_node i j G = Raise e ->
  e = NetworkXError \/ e = ZeroDivisionError.
Proof.
  unfold conductance_cell.
  destruct (i =? j).
  - destruct (i =? drain_node); [discriminate |].
    unfold edges_of.
    destruct (dict_get i (nodes NWN)) as [[a row] |] eqn:Hn; simpl.
    + destruct (@conductances_returns ext NWN i a row Hn) as [gs ->]. discriminate.
    + intros E; inversion E; auto.
  - destruct (negb (i =? drain_node)); [| discriminate].
    destruct (get_edge_data i j NWN) as [r |]; [| discriminate].
    unfold py_truediv. destruct (PrimFloat.is_zero r); simpl; [| discriminate].
    intros E; inversion E; auto.
Qed.

(** X14: [conductance_matrix] on a network made by [create_NWN] and
    [add_wires], with [wire_num] not negative.  The call returns a matrix
    when the network's junction resistance is not zero, and also when the
    network has no junction at all; with a junction resistance of zero
    ([0.0] or [-0.0]) one junction is enough to make every call raise
    [ZeroDivisionError], whatever the drain is. *)
Theorem conductance_matrix_built NWN drain_node :
  reachable NWN -> 0 <= wire_num NWN ->
  (PrimFloat.is_zero (junction_resistance NWN) = false \/
   (forall i j, get_edge_data i j NWN = None) ->
   exists G, conductance_matrix NWN drain_node = Ok G) /\
  (PrimFloat.is_zero (junction_resistance NWN) = true ->
   (exists i j, get_edge_data i j NWN <> None) ->
   conductance_matrix NWN drain_node = Raise ZeroDivisionError).
Proof.
  intros Hr Hn.
  destruct (@reachable_wiring ext NWN Hr) as (Hw & [Hedges _] & _).
  destruct (@reachable_invariant ext NWN Hr) as (_ & _ & Hsym).
  destruct (@reachable_junctions ext NWN Hr) as [_ Hne].
  assert (Hp : wires_present NWN).
  { split; [exact Hn |]. intros i Hi. apply (wires_upto_mem i Hw). exact Hi. }
  destruct (conductance_matrix_outcome drain_node Hp) as [Hok | Hz].
  - split; [intros _; exact Hok |].
    intros Hzero (i & j & Hij). exfalso.
    destruct Hok as [G Hrun].
    destruct (get_edge_data i j NWN) as [r |] eqn:He; [| congruence].
    destruct (Hedges i j r He) as (Hjr & Hi & Hj).
    apply (wires_upto_mem i Hw) in Hi. apply (wires_upto_mem j Hw) in Hj.
    assert (Hd : i <> j) by (eapply Hne; eauto).
    subst r.
    destruct (Z.eq_dec i drain_node) as [Hid | Hid].
    + assert (He' : get_edge_data j i NWN = Some (junction_resistance NWN))
        by (rewrite <- (Hsym i j); exact He).
      destruct (@conductance_matrix_nonzero NWN drain_node G j i
                  (junction_resistance NWN) Hrun Hj Hi)
        as [Hnz _]; [congruence | congruence | exact He' |]. congruence.
    + destruct (@conductance_matrix_nonzero NWN drain_node G i j
                  (junction_resistance NWN) Hrun Hi Hj)
        as [Hnz _]; [exact Hd | exact Hid | exact He |]. congruence.
  - split; [| intros _ _; exact Hz].
    intros Hcase. exfalso.
    destruct (conductance_matrix_zero_division _ _ Hz) as (i & j & r & He & Hzr).
    destruct Hcase as [Hnz | Hnone].
    + destruct (Hedges i j r He) as (-> & _). congruence.
    + rewrite Hnone in He. discriminate He.
Qed.

(** X15: the row of the drain is the row of the identity matrix, 1 on the
    diagonal and 0 elsewhere, whatever junctions the drain has; the column
    of the drain is not cleared: for a wire [i] with a junction to the
    drain the entry [(i, drain)] is [-1 / resistance] while [(drain, i)]
    is 0. *)
Theorem conductance_matrix_drain_row NWN drain_node G :
  conductance_matrix NWN drain_node = Ok G ->
  0 <= drain_node < wire_num NWN ->
  (forall j, 0 <= j < wire_num NWN ->
     dok_get (drain_node, j) G = if j =? drain_node then 1%float else 0%float) /\
  (forall i r, 0 <= i < wire_num NWN -> i <> drain_node ->
     get_edge_data i drain_node NWN = Some r ->
     dok_get (i, drain_node) G = stored ((-1) / r)%float /\
     dok_get (drain_node, i) G = 0%float).
Proof.
  intros Hrun Hd.
  assert (Hrow : forall j, 0 <= j < wire_num NWN ->
            dok_get (drain_node, j) G = if j =? drain_node then 1%float else 0%float).
  { intros j Hj.
    destruct (@conductance_matrix_cells ext NWN drain_node G drain_node j Hrun Hd Hj)
      as (G1 & G2 & Hb & H0 & ->).
    destruct (Z.eqb_spec j drain_node) as [-> | Hne].
    - eapply cell_drain; eauto.
    - unfold conductance_cell in Hb.
      destruct (Z.eqb_spec drain_node j); [congruence |].
      rewrite Z.eqb_refl in Hb. simpl in Hb. inversion Hb; subst. exact H0. }
  split; [exact Hrow |].
  intros i r Hi Hne He. split.
  - eapply conductance_matrix_nonzero; eauto.
  - rewrite Hrow by exact Hi. destruct (Z.eqb_spec i drain_node); [contradiction |].
    reflexivity.
Qed.

(** X16: the two other ways [conductance_matrix] ends.  A negative
    [wire_num] is refused by [dok_matrix] with [ValueError]; and when no
    junction has a zero resistance, a wire index below [wire_num], other
    than the drain, that is not a node of the graph makes the call raise
    [NetworkXError], at [NWN.edges(i)] on the diagonal. *)
Theorem conductance_matrix_errors NWN drain_node :
  (wire_num NWN < 0 -> conductance_matrix NWN drain_node = Raise ValueError) /\
  (0 <= wire_num NWN ->
   (forall i j r, get_edge_data i j NWN = Some r -> PrimFloat.is_zero r = false) ->
   (exists i, 0 <= i < wire_num NWN /\ i <> drain_node /\
              dict_mem i (nodes NWN) = false) ->
   conductance_matrix NWN drain_node = Raise NetworkXError).
Proof.
  split.
  - intros Hneg. unfold conductance_matrix, dok_matrix.
    destruct (Z.ltb_spec (wire_num NWN) 0); [reflexivity | lia].
  - intros Hn Hnz (i & Hi & Hid & Hmem).
    assert (Hnone : dict_get i (nodes NWN) = None)
      by (unfold dict_mem in Hmem; destruct (dict_get i (nodes NWN));
          [discriminate | reflexivity]).
    destruct (conductance_matrix NWN drain_node) as [G | e] eqn:Hrun.
    + exfalso.
      destruct (@conductance_matrix_cells ext NWN drain_node G i i Hrun Hi Hi)
        as (G1 & G2 & Hb & _).
      unfold conductance_cell in Hb. rewrite Z.eqb_refl in Hb.
      destruct (Z.eqb_spec i drain_node); [contradiction |].
      unfold edges_of in Hb. rewrite Hnone in Hb. discriminate Hb.
    + f_equal. rewrite conductance_matrix_flat in Hrun.
      destruct (dok_matrix _ _) as [G0 |] eqn:H0; simpl in Hrun.
      * apply for_each_raise in Hrun. destruct Hrun as ([a b] & G1 & _ & Hb).
        simpl in Hb. destruct (cell_raise_kinds _ _ _ _ _ Hb) as [-> | ->];
          [reflexivity |].
        apply cell_zero_division in Hb. destruct Hb as (_ & _ & r & Hr & Hz).
        rewrite (Hnz _ _ _ Hr) in Hz. discriminate Hz.
      * apply dok_matrix_raises in H0. lia.
Qed.

(** X18: a width whose square is zero, a width of [0.0] or one so small
    that [width * width] underflows.  [create_NWN] never returns a network
    then: the wire number rounds to 0 and [wire_num / size] divides by
    zero, or the product [size * density] is not a number (an infinite
    density, or a NaN) and [round] raises [ValueError]. *)
Theorem create_NWN_zero_size wl w dn seed resistance :
  PrimFloat.is_zero (w * w)%float = true ->
  create_NWN wl w dn seed resistance = Raise ZeroDivisionError \/
  create_NWN wl w dn seed resistance = Raise ValueError.
Proof.
  intros Hz. unfold create_NWN.
  assert (Hdiv : py_int_truediv 0 (w * w)%float = Raise ZeroDivisionError).
  { unfold py_int_truediv, int_to_float.
    assert (E : Z2F 0 = 0%float) by (vm_compute; reflexivity).
    rewrite E. change (PrimFloat.is_infinity 0) with false. cbn [bind].
    unfold py_truediv. rewrite Hz. reflexivity. }
  assert (Hround : py_round (w * w * dn)%float = Ok 0 \/
                   py_round (w * w * dn)%float = Raise ValueError).
  { unfold py_round. rewrite FloatAxioms.mul_spec.
    destruct (is_zero_cases Hz) as [E0 | E0]; rewrite E0 in *.
    - change (Prim2SF 0) with (S754_zero false).
      destruct (Prim2SF dn) as [s | s | | s m e]; simpl; auto.
    - change (Prim2SF (-0)) with (S754_zero true).
      destruct (Prim2SF dn) as [s | s | | s m e]; simpl; auto. }
  destruct Hround as [-> | ->]; cbn [bind]; [| right; reflexivity].
  rewrite Hdiv. left. reflexivity.
Qed.
End MatrixMore.

Lemma shorted_reachable : reachable (fst Sample.shorted).
Proof.
  change (reachable
            (fst (add_wires (Sample.empty_graph 0)
                    [Sample.upright_left; Sample.bar; Sample.upright_right]
                    [true; false; true]))).
  apply reach_add.
  - apply reach_create
      with (wire_length := 7%float) (width := 2%float) (density := 0%float)
           (seed := None) (resistance := 0%float).
    reflexivity.
  - vm_compute. reflexivity.
Defined.

Lemma conductance_matrix_built_witness :
  (exists G, conductance_matrix (fst Sample.bridge) 2 = Ok G) /\
  conductance_matrix (fst Sample.shorted) 2 = Raise ZeroDivisionError.
Proof.
  split.
  - apply (@conductance_matrix_built Sample.ext (fst Sample.bridge) 2
             bridge_reachable).
    + assert (Hn : wire_num (fst Sample.bridge) = 3) by (vm_compute; reflexivity).
      lia.
    + left. vm_compute. reflexivity.
  - apply (@conductance_matrix_built Sample.ext (fst Sample.shorted) 2
             shorted_reachable).
    + assert (Hn : wire_num (fst Sample.shorted) = 3) by (vm_compute; reflexivity).
      lia.
    + vm_compute. reflexivity.
    + exists 0, 1.
      assert (He : get_edge_data 0 1 (fst Sample.shorted) = Some 0%float)
        by (vm_compute; reflexivity).
      rewrite He. discriminate.
Defined.

Lemma conductance_matrix_drain_row_witness :
  exists G,
    conductance_matrix (fst Sample.bridge) 2 = Ok G /\
    dok_get (2, 1) G = 0%float /\
    dok_get (1, 2) G = stored ((-1) / 10)%float.
Proof.
  destruct (is_ok_returns (conductance_matrix (fst Sample.bridge) 2))
    as [G E]; [vm_compute; reflexivity |].
  exists G. split; [exact E |].
  assert (Hn : wire_num (fst Sample.bridge) = 3) by (vm_compute; reflexivity).
  assert (He : get_edge_data 1 2 (fst Sample.bridge) = Some 10%float)
    by (vm_compute; reflexivity).
  assert (Hd : 0 <= 2 < wire_num (fst Sample.bridge)) by (rewrite Hn; lia).
  assert (H1 : 0 <= 1 < wire_num (fst Sample.bridge)) by (rewrite Hn; lia).
  destruct (@conductance_matrix_drain_row Sample.ext (fst Sample.bridge) 2 G E Hd)
    as [_ Hcol].
  destruct (Hcol 1 10%float H1 ltac:(lia) He) as [E1 E2].
  split; [exact E2 | exact E1].
Defined.

Lemma conductance_matrix_errors_witness :
  conductance_matrix (set_counts 1 0 (Sample.empty_graph 10)) 5
    = Raise NetworkXError.
Proof.
  apply (proj2 (@conductance_matrix_errors Sample.ext
                  (set_counts 1 0 (Sample.empty_graph 10)) 5)).
  - simpl. lia.
  - intros i j r H. discriminate H.
  - exists 0. split; [simpl; lia |]. split; [lia | reflexivity].
Defined.

Lemma augmented_system_rows_witness :
  exists G A z,
    conductance_matrix (fst Sample.bridge) 2 = Ok G /\
    augmented_system 3 G 0 5 = Ok (A, z) /\
    dok_get (2, 2) A = 1%float /\ dok_get (2, 0) A = 0%float /\
    dok_get (2, 0) z = 0%float /\
    dok_get (3, 0) A = 1%float /\ dok_get (3, 0) z = 5%float.
Proof.
  destruct (is_ok_returns (conductance_matrix (fst Sample.bridge) 2))
    as [G E]; [vm_compute; reflexivity |].
  destruct (is_ok_returns (augmented_system 3 G 0 5)) as [[A z] Ez];
    [reflexivity |].
  exists G, A, z. split; [exact E |]. split; [exact Ez |].
  assert (Hn : wire_num (fst Sample.bridge) = 3) by (vm_compute; reflexivity).
  assert (Ez' : augmented_system (wire_num (fst Sample.bridge)) G 0 5 = Ok (A, z))
    by (rewrite Hn; exact Ez).
  destruct (@augmented_system_rows Sample.ext (fst Sample.bridge) 0 2 5 G A z E)
    as (Hrow & Hz & Hlast & Hv); [rewrite Hn; lia | rewrite Hn; lia | lia | exact Ez' |].
  rewrite Hn in Hrow, Hlast, Hv.
  split; [apply (Hrow 2); lia |]. split; [apply (Hrow 0); lia |].
  split; [exact Hz |]. split; [apply (Hlast 0); lia | exact Hv].
Defined.

Lemma create_NWN_zero_size_witness :
  PrimFloat.is_zero (0x1p-600 * 0x1p-600)%float = true /\
  (create_NWN (ext := Sample.ext) 7 0x1p-600 0.25 None 10 = Raise ZeroDivisionError \/
   create_NWN (ext := Sample.ext) 7 0x1p-600 0.25 None 10 = Raise ValueError).
Proof.
  split; [reflexivity |].
  apply (@create_NWN_zero_size Sample.ext). reflexivity.
Defined.

(** ** How the construction ends *)

Lemma for_each_raise_from {A S : Type} (I : S -> Prop) (xs : list A)
    (body : A -> S -> result S) (s : S) (e : exn) :
  I s ->
  (forall x s1 s2, In x xs -> I s1 -> body x s1 = Ok s2 -> I s2) ->
  for_each xs body s = Raise e ->
  exists x s1, In x xs /\ I s1 /\ body x s1 = Raise e.
Proof.
  revert s. induction xs as [| y xs IH]; intros s Hs Hstep Hrun; [discriminate |].
  cbn [for_each] in Hrun.
  destruct (body y s) as [s' |] eqn:Hb; simpl in Hrun.
  - destruct (IH s') as (x & s1 & Hin & H1 & Hx).
    + eapply Hstep; eauto. left; reflexivity.
    + intros x s1 s2 Hin. apply Hstep. right; exact Hin.
    + exact Hrun.
    + exists x, s1. split; [right; exact Hin | auto].
  - exists y, s. split; [left; reflexivity |]. split; [exact Hs | congruence].
Qed.

Section Outcome.
Context {ext : Extern}.
Implicit Types (NWN G : Graph).

(** [create_line] raises what [rng.uniform] raised. *)
Lemma create_line_refused length xmin xmax ymin ymax rng e :
  create_line length xmin xmax ymin ymax rng = Raise e ->
  exists g, rng_uniform xmin xmax g = Raise e \/
            rng_uniform ymin ymax g = Raise e \/
            rng_uniform 0 np_pi g = Raise e.
Proof.
  unfold create_line.
  destruct (rng_uniform xmin xmax rng) as [[xmid rng1] |] eqn:E1; cbn [bind];
    [| intros H; inversion H; subst; eauto].
  destruct (rng_uniform ymin ymax rng1) as [[ymid rng2] |] eqn:E2; cbn [bind];
    [| intros H; inversion H; subst; eauto].
  destruct (rng_uniform 0 np_pi rng2) as [[angle rng3] |] eqn:E3; cbn [bind];
    [discriminate | intros H; inversion H; subst; eauto].
Qed.

Lemma add_random_wire_refused i st e :
  add_random_wire i st = Raise e ->
  exists g, rng_uniform 0 (width (fst st)) g = Raise e \/
            rng_uniform 0 np_pi g = Raise e.
Proof.
  destruct st as [G rng]. unfold add_random_wire. simpl fst.
  destruct (create_line _ _ _ _ _ rng) as [[l rng'] | x] eqn:Hl; cbn [bind].
  - unfold set_midpoint. rewrite nodes_add_node_same.
    destruct (dict_get i (nodes G)) as [[a row] |]; simpl; discriminate.
  - intros H; inversion H; subst.
    destruct (create_line_refused _ _ _ _ _ _ Hl) as [g [Hg | [Hg | Hg]]]; eauto.
Qed.

(** X21: once [round] has accepted [width * width * density] and the
    division [wire_num / size] has returned, [create_NWN] has no failure of
    its own: it returns a network, or it raises what numpy raised at
    [default_rng(seed)], [rng.uniform(0, width)] or [rng.uniform(0, pi)],
    or what shapely raised at [intersects] or [intersection] on two lines,
    or [OverflowError] at the last division (a number of junctions too
    large for a float).  The node view never raises ([KeyError],
    [AttributeError]). *)
Theorem create_NWN_outcome wl w dn seed resistance n dens :
  py_round (w * w * dn)%float = Ok n ->
  py_int_truediv n (w * w)%float = Ok dens ->
  (exists NWN, create_NWN wl w dn seed resistance = Ok NWN) \/
  exists e, create_NWN wl w dn seed resistance = Raise e /\
    (default_rng seed = Raise e \/
     (exists g, rng_uniform 0 w g = Raise e \/ rng_uniform 0 np_pi g = Raise e) \/
     (exists a b, crossing a b = Raise e) \/
     e = OverflowError).
Proof.
  intros Hn Hdens. unfold create_NWN. rewrite Hn. cbn [bind]. rewrite Hdens.
  cbn [bind].
  destruct (default_rng seed) as [rng0 | e0] eqn:Hrng; cbn [bind];
    [| right; exists e0; auto].
  set (NWN0 := {| wire_length := wl; width := w; size := (w * w)%float;
                  wire_density := dens; wire_num := n; electrodes := 0;
                  junction_resistance := resistance; electrode_list := [];
                  loc := None; junction_density := None; nodes := [] |}).
  destruct (for_each (range n) add_random_wire (NWN0, rng0))
    as [[G0 rng1] | e1] eqn:Hst; cbn [bind fst].
  - pose proof Hst as Hloop.
    apply add_random_wires_exact in Hloop;
      [| apply NoDup_range | intros x _; reflexivity].
    destruct Hloop as (Hk & Ha & _ & _). simpl in Hk, Ha.
    assert (Hw : wires_upto n G0).
    { split; [exact Hk |]. intros k Hin. destruct (Ha k Hin) as [l Hl]. eauto. }
    destruct (find_intersects (nodes_data_line G0)) as [d | e2] eqn:Hd;
      cbn [bind].
    + assert (Hsize : PrimFloat.is_zero (w * w)%float = false).
      { unfold py_int_truediv, int_to_float in Hdens.
        destruct (PrimFloat.is_infinity (Z2F n)); simpl in Hdens; [discriminate |].
        unfold py_truediv in Hdens.
        destruct (PrimFloat.is_zero (w * w)%float); [discriminate | reflexivity]. }
      unfold py_int_truediv, int_to_float.
      destruct (PrimFloat.is_infinity (Z2F (Z.of_nat (length d)))); cbn [bind].
      * right. exists OverflowError. auto 6.
      * unfold py_truediv. rewrite Hsize. cbn [bind]. left. eauto.
    + right. exists e2. split; [reflexivity |]. right. right. left.
      destruct (@find_intersects_refused ext (nodes_data_line G0)
                  (fun i Hi => @nodes_places ext n G0 i Hw Hi) e2 Hd)
        as (i & j & a & b & _ & _ & _ & Hc).
      eauto.
  - right. exists e1. split; [reflexivity |]. right. left.
    apply (for_each_raise_from
             (fun t => graph_attrs (fst t) = graph_attrs NWN0)) in Hst.
    + destruct Hst as (x & s1 & _ & Hinv & Hb).
      destruct (add_random_wire_refused _ _ Hb) as [g Hg].
      assert (Hwd : width (fst s1) = w)
        by (change (width (graph_attrs (fst s1)) = w); rewrite Hinv; reflexivity).
      rewrite Hwd in Hg. eauto.
    + reflexivity.
    + intros x s1 s2 _ H1 Hb. rewrite <- H1.
      eapply graph_attrs_add_random_wire; eauto.
Qed.

(** *** [add_wires] on a network with its wires in place *)

Lemma add_one_wire_outcome ind l e G :
  0 <= ind -> wires_upto ind G -> junctions_recorded G ->
  (exists G', add_one_wire ind l e G = (G', Ok tt)) \/
  (exists x b, crossing l b = Raise x /\
               snd (add_one_wire ind l e G) = Raise x).
Proof.
  intros Hind Hw Hj.
  pose proof Hw as [Hkeys Hattr]. pose proof Hj as [_ (old & Hloc & _)].
  assert (Hfresh : dict_mem ind (nodes G) = false).
  { destruct (dict_mem ind (nodes G)) eqn:Hm; [| reflexivity].
    apply (wires_upto_mem ind Hw) in Hm. lia. }
  unfold add_one_wire. fold (wire_attr l e).
  set (NWN1 := add_node ind (wire_attr l e) G).
  set (NWN2 := if e then set_electrode_list (electrode_list NWN1 ++ [ind]) NWN1
               else NWN1).
  assert (Hn2 : nodes NWN2 = nodes NWN1) by (unfold NWN2; destruct e; reflexivity).
  assert (Hat : node_attr ind NWN2 = Some (wire_attr l e)).
  { unfold node_attr. rewrite Hn2.
    fold (node_attr ind NWN1). unfold NWN1. rewrite node_attr_add_node.
    destruct (eq_dec ind ind); [| congruence].
    rewrite dict_mem_node_attr in Hfresh.
    destruct (node_attr ind G); [discriminate | reflexivity]. }
  assert (Hw2 : wires_upto (ind + 1) NWN2).
  { split.
    - rewrite Hn2. unfold NWN1. rewrite keys_add_node, Hfresh, Hkeys.
      symmetry. apply range_snoc, Hind.
    - intros k Hk. apply in_range in Hk.
      destruct (Z.eq_dec k ind) as [-> | Hne]; [eauto |].
      unfold node_attr. rewrite Hn2.
      fold (node_attr k NWN1). unfold NWN1. rewrite node_attr_add_node.
      destruct (eq_dec k ind); [contradiction |].
      apply Hattr. apply in_range. lia. }
  destruct (find_line_intersects ind (nodes_data_line NWN2)) as [d | x] eqn:Hd.
  - left.
    set (NWN3 := add_edges_from (dict_keys d) (junction_resistance NWN2) NWN2).
    assert (Hl3 : loc NWN3 = Some old).
    { change (loc (graph_attrs NWN3) = Some old). unfold NWN3.
      rewrite graph_attrs_add_edges_from.
      transitivity (loc (graph_attrs NWN1));
        [unfold NWN2; destruct e; reflexivity |].
      unfold NWN1. rewrite graph_attrs_add_node. exact Hloc. }
    rewrite Hl3. eauto.
  - right.
    destruct (@find_line_intersects_refused ext (nodes_data_line NWN2)
                (fun i Hi => @nodes_places ext (ind + 1) NWN2 i Hw2 Hi)
                ind l x (@nodes_item ext NWN2 ind l e Hat) Hd)
      as (j & b & _ & _ & _ & Hc).
    exists x, b. split; [exact Hc | reflexivity].
Qed.

Lemma add_wires_loop_outcome lines :
  forall ind els G,
    0 <= ind -> wires_upto ind G -> junctions_recorded G ->
    (exists G', add_wires_loop ind lines els G = (G', Ok tt)) \/
    (exists x a b, In a lines /\ crossing a b = Raise x /\
                   snd (add_wires_loop ind lines els G) = Raise x).
Proof.
  induction lines as [| l lines IH]; intros ind els G Hind Hw Hj.
  - left. simpl. eauto.
  - destruct els as [| e els]; [left; simpl; eauto |]. cbn [add_wires_loop].
    destruct (@add_one_wire_outcome ind l e G Hind Hw Hj)
      as [[G1 Hone] | (x & b & Hc & Hs)].
    + rewrite Hone.
      destruct (@add_one_wire_exact ext ind l e G G1 Hw Hj Hone)
        as (_ & Hw1 & Hj1 & _).
      destruct (IH (ind + 1) els G1 ltac:(lia) Hw1 Hj1)
        as [Hok | (x & a & b & Ha & Hc & Hs)]; [left; exact Hok |].
      right. exists x, a, b. split; [right; exact Ha | auto].
    + right. exists x, l, b. split; [left; reflexivity |]. split; [exact Hc |].
      destruct (add_one_wire ind l e G) as [G1 [[] | y]]; simpl in Hs;
        [discriminate Hs | exact Hs].
Qed.

(** X20: on a network made by [create_NWN] and [add_wires] whose
    [wire_num] is not negative, [add_wires] with two lists of the same
    length has no failure of its own: it returns, or it raises what
    shapely raised at [intersects] or [intersection] with one of the new
    lines as receiver.  Every line the loop asks the node view for is
    there, and the junction map exists. *)
Theorem add_wires_outcome NWN lines els :
  reachable NWN -> 0 <= wire_num NWN -> length lines = length els ->
  snd (add_wires NWN lines els) = Ok tt \/
  exists x a b, In a lines /\ crossing a b = Raise x /\
                snd (add_wires NWN lines els) = Raise x.
Proof.
  intros Hr Hn Hlen. destruct (@reachable_wiring ext NWN Hr) as (Hw & Hj & _).
  unfold add_wires.
  destruct (Z.eqb_spec (Z.of_nat (length lines)) (Z.of_nat (length els)))
    as [_ | N]; [| lia]. cbn [negb].
  set (NWN1 := set_counts (wire_num NWN + Z.of_nat (length lines))
                 (electrodes NWN + np_sum_bool els) NWN).
  assert (Hw1 : wires_upto (wire_num NWN) NWN1)
    by (apply wires_upto_nodes with (G := NWN); [reflexivity | exact Hw]).
  assert (Hj1 : junctions_recorded NWN1)
    by (apply junctions_recorded_nodes with (G := NWN);
        [reflexivity | reflexivity | reflexivity | exact Hj]).
  destruct (@add_wires_loop_outcome lines (wire_num NWN) els NWN1 Hn Hw1 Hj1)
    as [[G2 Hloop] | (x & a & b & Ha & Hc & Hs)].
  - left. rewrite Hloop. reflexivity.
  - right. exists x, a, b. split; [exact Ha |]. split; [exact Hc |].
    destruct (add_wires_loop (wire_num NWN) lines els NWN1) as [G2 [[] | y]];
      simpl in Hs; [discriminate Hs | exact Hs].
Qed.

(** X19: adding no wire to such a network changes nothing: the call
    returns and the graph is the one it was given, attribute for
    attribute ([wire_density] is written again with the value it has). *)
Theorem add_wires_nothing NWN :
  reachable NWN -> add_wires NWN [] [] = (NWN, Ok tt).
Proof.
  intros Hr. destruct (@reachable_wiring ext NWN Hr) as (_ & _ & _ & Hd).
  unfold add_wires. simpl. f_equal.
  unfold set_wire_density, set_counts. simpl.
  unfold np_sum_bool. simpl. rewrite !Z.add_0_r. rewrite <- Hd.
  destruct NWN; reflexivity.
Qed.
End Outcome.

Lemma create_NWN_junctions_meet_witness :
  exists NWN,
    create_NWN (ext := Sample.ext) 1 2 0.625%float (Some 7) 10 = Ok NWN /\
    exists d, loc NWN = Some d /\
      forall i j, 0 <= i < j -> j < wire_num NWN ->
        exists a b c,
          node_attr i NWN = Some (wire_attr a false) /\
          node_attr j NWN = Some (wire_attr b false) /\
          intersects a b = Ok c /\
          get_edge_data i j NWN = (if c : bool then Some 10%float else None) /\
          get_edge_data j i NWN = (if c : bool then Some 10%float else None) /\
          if c : bool
          then exists p, intersection a b = Ok p /\ dict_get (i, j) d = Some p
          else dict_get (i, j) d = None.
Proof.
  destruct (is_ok_returns
              (create_NWN (ext := Sample.ext) 1 2 0.625%float (Some 7) 10))
    as [NWN E]; [vm_compute; reflexivity |].
  exists NWN. split; [exact E |].
  exact (@create_NWN_junctions_meet Sample.ext 1%float 2%float 0.625%float
           (Some 7) 10%float NWN E).
Defined.

Lemma create_NWN_fresh_witness :
  exists NWN,
    create_NWN (ext := Sample.ext) 1 2 0.625%float (Some 7) 10 = Ok NWN /\
    width NWN = 2%float /\ size NWN = 4%float /\
    electrodes NWN = 0 /\ electrode_list NWN = [] /\
    dict_keys (nodes NWN) = range (wire_num NWN).
Proof.
  destruct (is_ok_returns
              (create_NWN (ext := Sample.ext) 1 2 0.625%float (Some 7) 10))
    as [NWN E]; [vm_compute; reflexivity |].
  exists NWN. split; [exact E |].
  destruct (@create_NWN_fresh Sample.ext 1%float 2%float 0.625%float
              (Some 7) 10%float NWN E)
    as (_ & Hw & Hs & _ & He & Hl & _ & Hk & _).
  split; [exact Hw |]. split; [exact Hs |]. split; [exact He |].
  split; [exact Hl | exact Hk].
Defined.

Lemma create_NWN_outcome_witness :
  is_ok (create_NWN (ext := Sample.ext) 7 2 0.25%float (Some (-1)) 10) = false /\
  ((exists NWN,
      create_NWN (ext := Sample.ext) 7 2 0.25%float (Some (-1)) 10 = Ok NWN) \/
   exists e,
     create_NWN (ext := Sample.ext) 7 2 0.25%float (Some (-1)) 10 = Raise e /\
     (default_rng (Extern := Sample.ext) (Some (-1)) = Raise e \/
      (exists g, rng_uniform (Extern := Sample.ext) 0 2 g = Raise e \/
                 rng_uniform (Extern := Sample.ext) 0 np_pi g = Raise e) \/
      (exists a b, crossing (ext := Sample.ext) a b = Raise e) \/
      e = OverflowError)).
Proof.
  split; [vm_compute; reflexivity |].
  apply (@create_NWN_outcome Sample.ext 7%float 2%float 0.25%float (Some (-1))
           10%float 1 0.25%float).
  - vm_compute. reflexivity.
  - vm_compute. reflexivity.
Defined.

Lemma add_wires_outcome_witness :
  snd (add_wires (fst Sample.bridge)
         [((0, 0), (infinity, infinity))%float] [false]) = Raise TopologicalError /\
  (snd (add_wires (fst Sample.bridge)
          [((0, 0), (infinity, infinity))%float] [false]) = Ok tt \/
   exists x a b,
     In a [((0, 0), (infinity, infinity))%float] /\
     crossing (ext := Sample.ext) a b = Raise x /\
     snd (add_wires (fst Sample.bridge)
            [((0, 0), (infinity, infinity))%float] [false]) = Raise x).
Proof.
  split; [vm_compute; reflexivity |].
  apply (@add_wires_outcome Sample.ext (fst Sample.bridge)
           [((0, 0), (infinity, infinity))%float] [false] bridge_reachable).
  - assert (Hn : wire_num (fst Sample.bridge) = 3) by (vm_compute; reflexivity).
    lia.
  - reflexivity.
Defined.

Lemma add_wires_nothing_witness :
  add_wires (fst Sample.bridge) [] [] = (fst Sample.bridge, Ok tt).
Proof.
  exact (@add_wires_nothing Sample.ext (fst Sample.bridge) bridge_reachable).
Defined.
